(** * ETL_simple: a shallow embedding of [etl_script.py]

    The class [ExtractTransformLoad] reads tabular records from csv, json and
    xml sources into three attributes ([rows], [columns], [common_columns]) and
    writes two reports.  The decoders ([csv.reader], [json.load], [ET.parse])
    and the file writer ([csv.writer]) are library code: a source is modelled
    by what its decoder delivers, a report by the sequence of [writerow]
    calls.  Strings are ASCII strings.  An exception ends the run, the script
    has no handler: a call that raises leaves no state behind. *)

From stdpp Require Import gmap strings list fin_maps pretty sorting.
From Stdlib Require Import ZArith String Ascii.

Local Open Scope string_scope.
Local Open Scope Z_scope.
Local Open Scope list_scope.

(** ** Exceptions and the error monad *)

Inductive exn := IndexError | KeyError | TypeError | ValueError.

Inductive res (A : Type) : Type :=
| Ok (a : A)
| Raise (e : exn).
Arguments Ok {A} a.
Arguments Raise {A} e.

#[global] Instance res_ret : MRet res := fun _ a => Ok a.
#[global] Instance res_bind : MBind res := fun _ _ f x =>
  match x with
  | Ok a => f a
  | Raise e => Raise e
  end.

#[global] Instance res_fmap : FMap res := fun _ _ f x =>
  match x with
  | Ok a => Ok (f a)
  | Raise e => Raise e
  end.

(** A [for] loop whose body may raise: the loop variables are threaded
    through as [s]. *)
Fixpoint foldM {A S : Type} (f : S -> A -> res S) (l : list A) (s : S) : res S :=
  match l with
  | [] => Ok s
  | a :: l' => s' ← f s a; foldM f l' s'
  end.

Definition is_ok {A : Type} (x : res A) : bool :=
  match x with Ok _ => true | Raise _ => false end.

(** ** Python values

    What a row can hold: text, an integer, or [None] (an xml element without
    text, a json [null]).  The other json values (fractions, booleans,
    arrays, objects) are left out. *)

Inductive value :=
| VStr (s : string)
| VInt (z : Z)
| VNone.

#[global] Instance value_eq_dec : EqDecision value.
Proof. solve_decision. Defined.

Definition is_VStr (v : value) : bool :=
  match v with VStr _ => true | _ => false end.
Definition is_VInt (v : value) : bool :=
  match v with VInt _ => true | _ => false end.

(** ** The builtins the script uses *)

Module Py.

(** [c.isspace()] as [int] applies it to an ASCII string. *)
Definition is_space (c : ascii) : bool :=
  let n := Z.of_nat (nat_of_ascii c) in
  ((9 <=? n) && (n <=? 13)) || (n =? 32).

Definition digit (c : ascii) : option Z :=
  let n := Z.of_nat (nat_of_ascii c) in
  if (48 <=? n) && (n <=? 57) then Some (n - 48) else None.

Fixpoint lstrip (s : string) : string :=
  match s with
  | String c s' => if is_space c then lstrip s' else s
  | EmptyString => s
  end.

Fixpoint all_space (s : string) : bool :=
  match s with
  | String c s' => is_space c && all_space s'
  | EmptyString => true
  end.

(** Decimal digits, single underscores between digits, then trailing
    white space.  [after_digit] says that the previous character was a
    digit. *)
Fixpoint digits (s : string) (acc : Z) (after_digit : bool) : option Z :=
  match s with
  | EmptyString => if after_digit then Some acc else None
  | String c s' =>
      match digit c with
      | Some d => digits s' (10 * acc + d) true
      | None =>
          if negb after_digit then None
          else if Ascii.eqb c "_" then digits s' acc false
          else if is_space c && all_space s' then Some acc
          else None
      end
  end.

(** [int(s)] for a string [s]; [None] stands for [ValueError].  (The
    interpreter's configurable cap on the number of digits is left out.) *)
Definition int_of_str (s : string) : option Z :=
  match lstrip s with
  | String "+" s' => digits s' 0 false
  | String "-" s' => Z.opp <$> digits s' 0 false
  | s' => digits s' 0 false
  end.

(** [int(v)]. *)
Definition int (v : value) : res Z :=
  match v with
  | VStr s => match int_of_str s with Some z => Ok z | None => Raise ValueError end
  | VInt z => Ok z
  | VNone => Raise TypeError
  end.

(** [s[0]]. *)
Definition index0 (s : string) : res ascii :=
  match s with
  | String c _ => Ok c
  | EmptyString => Raise IndexError
  end.

(** [s[1:]]. *)
Definition tail (s : string) : string :=
  match s with
  | String _ s' => s'
  | EmptyString => EmptyString
  end.

(** [a < b] on strings: code point by code point. *)
Fixpoint str_lt (a b : string) : bool :=
  match a, b with
  | EmptyString, EmptyString => false
  | EmptyString, String _ _ => true
  | String _ _, EmptyString => false
  | String x a', String y b' =>
      if (nat_of_ascii x <? nat_of_ascii y)%nat then true
      else if (nat_of_ascii y <? nat_of_ascii x)%nat then false
      else str_lt a' b'
  end.

(** [a < b] on values: defined within one type only, and not on [None]. *)
Definition lt (a b : value) : res bool :=
  match a, b with
  | VStr x, VStr y => Ok (str_lt x y)
  | VInt x, VInt y => Ok (x <? y)
  | _, _ => Raise TypeError
  end.

(** [a < b] on tuples: the first position where the two differ decides;
    without one, the shorter tuple is the smaller. *)
Fixpoint tuple_lt (a b : list value) : res bool :=
  match a, b with
  | [], [] => Ok false
  | [], _ :: _ => Ok true
  | _ :: _, [] => Ok false
  | x :: a', y :: b' => if decide (x = y) then tuple_lt a' b' else lt x y
  end.

(** [a + b]. *)
Definition add (a b : value) : res value :=
  match a, b with
  | VInt x, VInt y => Ok (VInt (x + y))
  | VStr x, VStr y => Ok (VStr (String.append x y))
  | _, _ => Raise TypeError
  end.

Section Sorted.
Context {K A : Type}.
Variable key : A -> res K.
Variable less : K -> K -> res bool.

(** The sort is stable and compares with [<] only, an exception of [<]
    ending it.  It is written as an insertion sort: [x] goes in front of
    the first element that is not smaller, so with equal keys the element
    that came first stays first. *)
Fixpoint insert_sorted (x : K * A) (l : list (K * A)) : res (list (K * A)) :=
  match l with
  | [] => Ok [x]
  | y :: l' =>
      b ← less (fst y) (fst x);
      if (b : bool) then r ← insert_sorted x l'; Ok (y :: r)
      else Ok (x :: l)
  end.

Fixpoint sort_keyed (l : list (K * A)) : res (list (K * A)) :=
  match l with
  | [] => Ok []
  | x :: l' => r ← sort_keyed l'; insert_sorted x r
  end.

Definition with_key (a : A) : res (K * A) := k ← key a; Ok (k, a).

(** [sorted(l, key=key)]: every key is computed first, then the list is
    sorted stably with [<] on the keys. *)
Definition sorted (l : list A) : res (list A) :=
  ks ← mapM with_key l;
  r ← sort_keyed ks;
  Ok (snd <$> r : list A).
End Sorted.

End Py.

(** ** The object state *)

(** One [print] of the script: what was wrong and where. *)
Inductive diag :=
| IncorrectCsv (val path column : string) (line_num : nat)
| IncorrectJson (val : value) (path key : string) (field : list (string * value))
| IncorrectXml (val path object_name : string).

(** The attributes set by [__init__], and the lines printed so far. *)
Record etl := Etl {
  rows : list (gmap string value);
  columns : gset string;
  common_columns : list (gset string);
  stdout : list diag
}.

Definition init : etl :=
  {| rows := []; columns := ∅; common_columns := []; stdout := [] |}.

(** ** Reading *)

(** The body of the loop over [zip(columns, row)] (lines 53-66); [new_row]
    and the printed lines are the loop variables. *)
Definition csv_field (path : string) (line_num : nat)
    (acc : gmap string value * list diag) (kv : string * string)
    : res (gmap string value * list diag) :=
  let '(new_row, out) := acc in
  let '(key, val) := kv in
  c ← Py.index0 key;
  if Ascii.eqb c "D" then Ok (<[key := VStr val]> new_row, out)
  else if Ascii.eqb c "M" then
    match Py.int_of_str val with
    | Some value => Ok (<[key := VInt value]> new_row, out)
    | None => Ok (new_row, out ++ [IncorrectCsv val path key line_num])
    end
  else Ok (new_row, out).

(** [not columns]: true of [None] and of the empty list. *)
Definition not_columns (columns : option (list string)) : bool :=
  match columns with
  | None | Some [] => true
  | Some (_ :: _) => false
  end.

(** The body of the loop over the reader (lines 46-68).  A record is the
    reader's [line_num] after it produced the row, and the row. *)
Definition csv_record (path : string)
    (acc : etl * option (list string)) (rec : nat * list string)
    : res (etl * option (list string)) :=
  let '(self, cols) := acc in
  let '(line_num, row) := rec in
  if not_columns cols then
    Ok ({| rows := rows self;
           columns := columns self ∪ list_to_set row;
           common_columns := common_columns self ++ [list_to_set row];
           stdout := stdout self |}, Some row)
  else
    '(new_row, out) ← foldM (csv_field path line_num)
                         (zip (default [] cols) row) (∅, stdout self);
    Ok ({| rows := rows self ++ [new_row];
           columns := columns self;
           common_columns := common_columns self;
           stdout := out |}, cols).

Definition read_csv (path : string) (reader : list (nat * list string))
    (self : etl) : res etl :=
  '(self', _) ← foldM (csv_record path) reader (self, None);
  Ok self'.

(** The body of the loop over [field.items()] (lines 87-100). *)
Definition json_item (path : string) (field : list (string * value))
    (acc : gmap string value * gset string * list diag) (kv : string * value)
    : res (gmap string value * gset string * list diag) :=
  let '(new_row, common, out) := acc in
  let '(key, val) := kv in
  let common := common ∪ {[key]} in
  c ← Py.index0 key;
  if Ascii.eqb c "M" then
    match Py.int val with
    | Raise ValueError => Ok (new_row, common, out ++ [IncorrectJson val path key field])
    | Raise e => Raise e
    | Ok value => Ok (<[key := val]> (<[key := VInt value]> new_row), common, out)
    end
  else Ok (<[key := val]> new_row, common, out).

(** The body of the loop over [data['fields']] (lines 84-102); a field is
    the sequence of its items, in the order of the document. *)
Definition json_field (path : string)
    (acc : etl * gset string) (field : list (string * value))
    : res (etl * gset string) :=
  let '(self, common) := acc in
  let cols := columns self ∪ list_to_set (fst <$> field) in
  '(new_row, common, out) ← foldM (json_item path field) field (∅, common, stdout self);
  Ok ({| rows := rows self ++ [new_row];
         columns := cols;
         common_columns := common_columns self;
         stdout := out |}, common).

Definition read_json (path : string) (fields : list (list (string * value)))
    (self : etl) : res etl :=
  '(self', common) ← foldM (json_field path) fields (self, ∅);
  Ok {| rows := rows self';
        columns := columns self';
        common_columns := common_columns self' ++ [common];
        stdout := stdout self' |}.

(** An [object] element: its [name] attribute, if it has one, and the text
    of each child ([None] for a child without text). *)
Record xml_object := XmlObject {
  attrib_name : option string;
  children : list (option string)
}.

(** [val.text]: the text of a child, [None] without one. *)
Definition text_value (text : option string) : value :=
  match text with Some s => VStr s | None => VNone end.

(** The body of the loop over the children of an object (lines 123-136). *)
Definition xml_child (path column : string)
    (acc : gmap string value * list diag) (text : option string)
    : res (gmap string value * list diag) :=
  let '(new_row, out) := acc in
  let val := text_value text in
  c ← Py.index0 column;
  if Ascii.eqb c "D" then Ok (<[column := val]> new_row, out)
  else if Ascii.eqb c "M" then
    match Py.int val with
    | Raise ValueError => Ok (new_row, out ++ [IncorrectXml (default "" text) path column])
    | Raise e => Raise e
    | Ok value => Ok (<[column := VInt value]> new_row, out)
    end
  else Ok (new_row, out).

(** The body of the loop over the objects (lines 119-136). *)
Definition xml_obj (path : string)
    (acc : gset string * gmap string value * gset string * list diag)
    (obj : xml_object)
    : res (gset string * gmap string value * gset string * list diag) :=
  let '(cols, new_row, common, out) := acc in
  column ← match attrib_name obj with Some n => Ok n | None => Raise KeyError end;
  let cols := cols ∪ {[column]} in
  let common := common ∪ {[column]} in
  '(new_row, out) ← foldM (xml_child path column) (children obj) (new_row, out);
  Ok (cols, new_row, common, out).

Definition read_xml (path : string) (objects : list xml_object)
    (self : etl) : res etl :=
  '(cols, new_row, common, out) ←
    foldM (xml_obj path) objects (columns self, ∅, ∅, stdout self);
  Ok {| rows := rows self ++ [new_row];
        columns := cols;
        common_columns := common_columns self ++ [common];
        stdout := out |}.

(** ** Resolving the report columns *)

(** A Python [set] is iterated in an order the language leaves open: any
    enumeration of the elements.  The order in which the interpreter
    iterates a set depends on how the set was built, so two objects that
    hold the same names may iterate them differently: a [set_order] gives the
    orders for the sets of one object, and where two objects are compared
    each has an order of its own. *)
Record set_order := SetOrder {
  iter : gset string -> list string;
  iter_perm : forall s, iter s ≡ₚ elements s
}.

Definition elements_order : set_order :=
  {| iter := elements; iter_perm := fun s => reflexivity (elements s) |}.

(** The body of the loop that splits the names (lines 151-155, 177-182). *)
Definition d_m_step (acc : list string * list string) (column : string)
    : res (list string * list string) :=
  let '(d_columns, m_columns) := acc in
  c ← Py.index0 column;
  if Ascii.eqb c "D" then Ok (d_columns ++ [column], m_columns)
  else if Ascii.eqb c "M" then Ok (d_columns, m_columns ++ [column])
  else Ok (d_columns, m_columns).

(** The sort key [lambda y: int(y[1:])]. *)
Definition suffix_key (y : string) : res Z := Py.int (VStr (Py.tail y)).

Definition int_lt (a b : Z) : res bool := Ok (a <? b).

Definition sorted_by_suffix (l : list string) : res (list string) :=
  Py.sorted suffix_key int_lt l.

(** What both properties do with the names they iterate over: split, then
    sort each list by the number after the first character. *)
Definition d_m_sorted (names : list string) : res (list string * list string) :=
  '(d_columns, m_columns) ← foldM d_m_step names ([], []);
  d_columns ← sorted_by_suffix d_columns;
  m_columns ← sorted_by_suffix m_columns;
  Ok (d_columns, m_columns).

Definition d_m_sorted_columns (o : set_order) (self : etl)
    : res (list string * list string) :=
  d_m_sorted (iter o (columns self)).

(** [s0.intersection( *rest )]. *)
Definition intersection (s0 : gset string) (rest : list (gset string)) : gset string :=
  foldl (∩) s0 rest.

Definition d_m_sorted_common_columns (o : set_order) (self : etl)
    : res (list string * list string) :=
  match common_columns self with
  | [] => Ok ([], [])
  | s0 :: rest => d_m_sorted (iter o (intersection s0 rest))
  end.

(** The [if common_columns:] of both writers. *)
Definition resolve (o : set_order) (self : etl) (common : bool)
    : res (list string * list string) :=
  if common then d_m_sorted_common_columns o self else d_m_sorted_columns o self.

(** ** Writing *)

(** [row.get(col, dflt)]. *)
Definition row_get (row : gmap string value) (col : string) (dflt : value) : value :=
  default dflt (row !! col).

(** [x['D1']]. *)
Definition key_D1 (x : gmap string value) : res value :=
  match x !! "D1" with
  | Some v => Ok v
  | None => Raise KeyError
  end.

(** The [out_row] built for a row (lines 217-219). *)
Definition basic_line (cols : list string) (row : gmap string value) : list value :=
  (fun col => row_get row col (VStr "-")) <$> cols.

(** The report is the list of the rows handed to [writerow]. *)
Definition write_tsv_basic (o : set_order) (self : etl) (common : bool)
    : res (list (list value)) :=
  '(d_columns, m_columns) ← resolve o self common;
  let cols := d_columns ++ m_columns in
  sorted_rows ← Py.sorted key_D1 Py.lt (rows self);
  Ok ((VStr <$> cols) :: (basic_line cols <$> sorted_rows)).

(** A Python [dict] as the list of its items in insertion order, each key
    once. *)
Module Dict.
Section Dict.
Context {K V : Type} `{EqDecision K}.

Fixpoint get (k : K) (d : list (K * V)) : option V :=
  match d with
  | [] => None
  | (k', v) :: d' => if decide (k = k') then Some v else get k d'
  end.

(** [d[k] = v]: in place for a key that is there, at the end otherwise. *)
Fixpoint set (k : K) (v : V) (d : list (K * V)) : list (K * V) :=
  match d with
  | [] => [(k, v)]
  | (k', v') :: d' =>
      if decide (k = k') then (k, v) :: d' else (k', v') :: set k v d'
  end.

(** [d.setdefault(k, v)]: the value found or set, and the dict. *)
Definition setdefault (k : K) (v : V) (d : list (K * V)) : V * list (K * V) :=
  match get k d with
  | Some v' => (v', d)
  | None => (v, set k v d)
  end.

Definition keys (d : list (K * V)) : list K := fst <$> d.

(** [d[k]]. *)
Definition getitem (k : K) (d : list (K * V)) : res V :=
  match get k d with
  | Some v => Ok v
  | None => Raise KeyError
  end.
End Dict.
End Dict.

(** [tuple(map(lambda x: row.get(x, '-'), d_columns))]: the Group Key of a
    row. *)
Definition group_key (d_columns : list string) (row : gmap string value) : list value :=
  (fun x => row_get row x (VStr "-")) <$> d_columns.

(** [tuple(map(lambda x: row.get(x, 0), m_columns))]. *)
Definition measure_vals (m_columns : list string) (row : gmap string value) : list value :=
  (fun x => row_get row x (VInt 0)) <$> m_columns.

(** The body of the loop over the rows (lines 244-249). *)
Definition advanced_step (d_columns m_columns : list string)
    (data : list (list value * list value)) (row : gmap string value)
    : res (list (list value * list value)) :=
  let default_val := (fun _ => VInt 0) <$> m_columns in
  let key := group_key d_columns row in
  let val := measure_vals m_columns row in
  let '(val_dict, data) := Dict.setdefault key default_val data in
  new_val ← mapM (fun x => Py.add x.1 x.2) (zip val_dict val);
  Ok (Dict.set key new_val data).

Definition get_data_advanced (self_rows : list (gmap string value))
    (d_columns m_columns : list string) : res (list (list value * list value)) :=
  foldM (advanced_step d_columns m_columns) self_rows [].

(** [f'{v[0]}S{v[1:]}']. *)
Definition rename_sum (v : string) : res string :=
  c ← Py.index0 v;
  Ok (String c (String "S" (Py.tail v))).

Definition tuple_key (k : list value) : res (list value) := Ok k.

Definition write_tsv_advanced (o : set_order) (self : etl) (common : bool)
    : res (list (list value)) :=
  '(d_columns, m_columns) ← resolve o self common;
  ms ← mapM rename_sum m_columns;
  data ← get_data_advanced (rows self) d_columns m_columns;
  ks ← Py.sorted tuple_key Py.tuple_lt (Dict.keys data);
  body ← mapM (fun key => v ← Dict.getitem key data; Ok (key ++ v)) ks;
  Ok ((VStr <$> (d_columns ++ ms)) :: body).

(** What [csv.writer] makes of a cell: text as it is, an integer in decimal,
    [None] as the empty string. *)
Definition cell_text (v : value) : string :=
  match v with
  | VStr s => s
  | VInt z => pretty z
  | VNone => ""
  end.

Definition report_text (report : list (list value)) : list (list string) :=
  (fun line : list value => cell_text <$> line) <$> report.

(** ** Sources and runs *)

(** A source, as its decoder delivers it: the records of a csv reader, each
    with the reader's line number; the fields of a json document, each the
    items of a dict; the [object] elements of an xml document. *)
Inductive source :=
| Csv (path : string) (reader : list (nat * list string))
| Json (path : string) (fields : list (list (string * value)))
| Xml (path : string) (objects : list xml_object).

Definition read (self : etl) (src : source) : res etl :=
  match src with
  | Csv path reader => read_csv path reader self
  | Json path fields => read_json path fields self
  | Xml path objects => read_xml path objects self
  end.

(** A sequence of ingestion calls on one object. *)
Definition ingest (srcs : list source) (self : etl) : res etl :=
  foldM read srcs self.

(** The csv source of the spec's scenario: the header D1,M1,M2 and the rows
    (a,3,5) and (b,x,2). *)
Definition scenario : source :=
  Csv "t.csv" [(1%nat, ["D1"; "M1"; "M2"]); (2%nat, ["a"; "3"; "5"]);
               (3%nat, ["b"; "x"; "2"])].

(** ** Notions used to state the properties *)

(** The first character of [s] is [c]. *)
Definition starts (c : ascii) (s : string) : bool :=
  match s with
  | String x _ => Ascii.eqb x c
  | EmptyString => false
  end.

Definition is_dim (name : string) : bool := starts "D" name.
Definition is_meas (name : string) : bool := starts "M" name.

(** The number a name is sorted by, where [int] accepts what follows the
    first character. *)
Definition suffix_num (name : string) : Z := default 0 (Py.int_of_str (Py.tail name)).

Definition suffix_ok (name : string) : bool :=
  match Py.int_of_str (Py.tail name) with Some _ => true | None => false end.

(** A name that one of the two sorts looks at. *)
Definition role_name (name : string) : bool := is_dim name || is_meas name.

(** The names a resolution iterates over cause no error. *)
Definition names_ok (names : list string) : bool :=
  forallb (fun y => negb (String.eqb y "") && (negb (role_name y) || suffix_ok y)) names.

Definition suffix_le (a b : string) : Prop := suffix_num a <= suffix_num b.

(** The set of names that a policy resolves. *)
Definition resolved_set (self : etl) (common : bool) : gset string :=
  if common then
    match common_columns self with
    | [] => ∅
    | s0 :: rest => intersection s0 rest
    end
  else columns self.

(** A non-negative integer literal: decimal digits, at least one. *)
Fixpoint all_digits (s : string) : bool :=
  match s with
  | EmptyString => true
  | String c s' =>
      match Py.digit c with Some _ => all_digits s' | None => false end
  end.

Definition nat_literal (s : string) : bool :=
  match s with
  | EmptyString => false
  | String _ _ => all_digits s
  end.

(** What a second stretch of calls adds to the state the first has left. *)
Definition etl_app (a b : etl) : etl :=
  {| rows := rows a ++ rows b;
     columns := columns a ∪ columns b;
     common_columns := common_columns a ++ common_columns b;
     stdout := stdout a ++ stdout b |}.

(** Every recorded source column set lies within the column universe. *)
Definition sets_in_universe (self : etl) : Prop :=
  Forall (fun s => s ⊆ columns self) (common_columns self).

(** A row whose columns all start with D or M. *)
Definition row_DM (row : gmap string value) : Prop :=
  forall k, is_Some (row !! k) -> role_name k = true.

Definition is_json (src : source) : bool :=
  match src with Json _ _ => true | _ => false end.

(** The values that the children of an object named [column] store, in
    document order: each text for a D object, the integer of each text that
    [int] accepts for an M object. *)
Definition child_values (column : string) (texts : list (option string)) : list value :=
  if is_dim column then text_value <$> texts
  else if is_meas column then omap (fun t => VInt <$> (t ≫= Py.int_of_str)) texts
  else [].

(** The values that a document stores under the name [k]. *)
Fixpoint xml_values (objects : list xml_object) (k : string) : list value :=
  match objects with
  | [] => []
  | obj :: objects' =>
      (if decide (attrib_name obj = Some k) then child_values k (children obj) else [])
      ++ xml_values objects' k
  end.

(** The [name] attributes of a document. *)
Definition xml_names (objects : list xml_object) : gset string :=
  list_to_set (omap attrib_name objects).

(** An object that [read_xml] gets through: it has a name; with children,
    the name is not empty and, for an M object, every child has text. *)
Definition xml_ok (obj : xml_object) : bool :=
  match attrib_name obj with
  | None => false
  | Some n =>
      match children obj with
      | [] => true
      | _ :: _ =>
          negb (String.eqb n "")
          && (negb (is_meas n)
              || forallb (fun t : option string => bool_decide (is_Some t))
                   (children obj))
      end
  end.

(** The integer a measure cell holds. *)
Definition int_of (v : value) : Z :=
  match v with VInt z => z | _ => 0 end.

(** The text a dimension cell holds. *)
Definition text_of (v : value) : string :=
  match v with VStr s => s | _ => "" end.

Definition sum_Z (l : list Z) : Z := foldr Z.add 0 l.

(** The rows of the group [k]. *)
Definition group_rows (d_columns : list string) (k : list value)
    (rs : list (gmap string value)) : list (gmap string value) :=
  filter (fun row => group_key d_columns row = k) rs.

(** The Group Value of [k]: for each measure column the sum over the rows of
    the group, a row without the column counting 0. *)
Definition group_sums (rs : list (gmap string value))
    (d_columns m_columns : list string) (k : list value) : list Z :=
  (fun c => sum_Z ((fun row => int_of (row_get row c (VInt 0)))
                     <$> group_rows d_columns k rs))
    <$> m_columns.

(** Every measure of the row is an integer. *)
Definition ints_row (m_columns : list string) (row : gmap string value) : bool :=
  forallb is_VInt (measure_vals m_columns row).

(** A cell typed as the data model has it: text under a D name, an integer
    under an M name. *)
Definition typed_cell (c : string) (v : value) : bool :=
  (negb (is_dim c) || is_VStr v) && (negb (is_meas c) || is_VInt v).

Definition typed_row (row : gmap string value) : bool :=
  forallb (fun cv => typed_cell cv.1 cv.2) (map_to_list row).

Definition typed_rows (rs : list (gmap string value)) : bool := forallb typed_row rs.

Definition cells_typed (rs : list (gmap string value)) : Prop :=
  forall row c v, row ∈ rs -> row !! c = Some v ->
    (is_dim c = true -> is_VStr v = true) /\ (is_meas c = true -> is_VInt v = true).

(** The row has a text under the name D1. *)
Definition has_D1_text (row : gmap string value) : bool :=
  match row !! "D1" with Some (VStr _) => true | _ => false end.

(** [M3] becomes [MS3]. *)
Definition sum_name (v : string) : string :=
  match v with
  | String c s => String c (String "S" s)
  | EmptyString => EmptyString
  end.

(** What the aggregation holds after the rows [rs]. *)
Definition aggregated (d_columns m_columns : list string)
    (rs : list (gmap string value)) (data : list (list value * list value)) : Prop :=
  NoDup (Dict.keys data)
  /\ forall k, Dict.get k data
               = if decide (k ∈ group_key d_columns <$> rs)
                 then Some (VInt <$> group_sums rs d_columns m_columns k)
                 else None.


(** The text of the D1 cell that the Basic report sorts by. *)
Definition D1_text (row : gmap string value) : string :=
  match row !! "D1" with Some (VStr s) => s | _ => "" end.

(** The state after the calls [srcs] on a new object. *)
Definition run (srcs : list source) : etl :=
  match ingest srcs init with Ok self => self | Raise _ => init end.



(** A Group Key of texts, as texts and as values. *)
Definition key_text (k : list value) : list string := text_of <$> k.
Definition key_values (k : list string) : list value := VStr <$> k.

(** ** Concrete sources *)

(** Two csv sources that share D1 and M1; the second also has D2. *)
Definition source_a : source :=
  Csv "a.csv" [(1%nat, ["D1"; "M1"]); (2%nat, ["x"; "1"])].
Definition source_b : source :=
  Csv "b.csv" [(1%nat, ["D1"; "D2"; "M1"]); (2%nat, ["y"; "z"; "2"])].

(** An xml document with a D object and an M object of two children each. *)
Definition two_objects : list xml_object :=
  [XmlObject (Some "D1") [Some "a"; Some "b"];
   XmlObject (Some "M1") [Some "3"; Some "x"]].

(** A state with the columns D1 and M2 and nothing else. *)
Definition two_columns : etl :=
  {| rows := []; columns := {["D1"; "M2"]}; common_columns := []; stdout := [] |}.

(** [a < b] on tuples of strings, position by position. *)
Fixpoint strs_lt (a b : list string) : bool :=
  match a, b with
  | [], [] => false
  | [], _ :: _ => true
  | _ :: _, [] => false
  | x :: a', y :: b' => if decide (x = y) then strs_lt a' b' else Py.str_lt x y
  end.

(** With the key [kf] and the order [ltb] on keys, [a] may stand before
    [b]: the key of [b] is not smaller. *)
Definition key_le {K' A : Type} (kf : A -> K') (ltb : K' -> K' -> bool) (a b : A) : Prop :=
  ltb (kf b) (kf a) = false.

(** The elements of [l], each paired with its key. *)
Definition keyed {K K' A : Type} (inj : K' -> K) (kf : A -> K') (l : list A)
    : list (K * A) :=
  (fun a => (inj (kf a), a)) <$> l.

(** With the key [kf] and Python's [<] on keys, [b] is not smaller than
    [a]. *)
Definition ascends {K A : Type} (less : K -> K -> res bool) (kf : A -> K) (a b : A) : Prop :=
  less (kf b) (kf a) = Ok false.


(** ** Notions used to state the further properties *)

(** The names that a policy resolves: under the union policy the names in
    [columns]; under the intersection policy, once a source is recorded, the
    names that every source column set holds. *)
Definition in_policy (self : etl) (common : bool) (x : string) : Prop :=
  if common
  then common_columns self <> [] /\ forall s, s ∈ common_columns self -> x ∈ s
  else x ∈ columns self.

(** The column universe is the union of the source column sets. *)
Definition universe_is_union (self : etl) : Prop :=
  forall x, x ∈ columns self <-> exists s, s ∈ common_columns self /\ x ∈ s.

(** What [read_csv] stores for the text [val] under the header name [key]:
    the text under a D name, the integer under an M name when [int] accepts
    the text, nothing otherwise. *)
Definition csv_store (key val : string) : option value :=
  if is_dim key then Some (VStr val)
  else if is_meas key then VInt <$> Py.int_of_str val
  else None.

(** The values that the fields [kvs] of a record store under [k], in
    order. *)
Definition csv_values (kvs : list (string * string)) (k : string) : list value :=
  omap (fun kv => if decide (kv.1 = k) then csv_store kv.1 kv.2 else None) kvs.

(** The lines that [read_csv] prints for the fields [kvs] of the record
    read at [line_num]: one for each text under an M name that [int]
    rejects. *)
Definition csv_diags (path : string) (line_num : nat) (kvs : list (string * string))
    : list diag :=
  omap (fun kv => if is_meas kv.1 && bool_decide (Py.int_of_str kv.2 = None)
                  then Some (IncorrectCsv kv.2 path kv.1 line_num) else None) kvs.

(** No field of the record stands under an empty header name. *)
Definition csv_rec_ok (hdr : list string) (rec : nat * list string) : bool :=
  forallb (fun kv => negb (String.eqb kv.1 "")) (zip hdr rec.2).

(** The lines that [read_csv] prints for the records [recs] under the
    header [hdr]. *)
Definition csv_all_diags (path : string) (hdr : list string)
    (recs : list (nat * list string)) : list diag :=
  List.concat ((fun rec => csv_diags path rec.1 (zip hdr rec.2)) <$> recs).

(** The row that a record stores holds under each name the last value that
    the fields of that name store. *)
Definition csv_row_of (hdr : list string) (rec : nat * list string)
    (r : gmap string value) : Prop :=
  forall k, r !! k = last (csv_values (zip hdr rec.2) k).

(** What [read_json] stores for the value [val] under the key [key]: the
    value as the document has it, unless the key starts with M and [int]
    rejects the value. *)
Definition json_store (key : string) (val : value) : option value :=
  if is_meas key then (if is_ok (Py.int val) then Some val else None) else Some val.

Definition json_values (field : list (string * value)) (k : string) : list value :=
  omap (fun kv => if decide (kv.1 = k) then json_store kv.1 kv.2 else None) field.

(** An item that [read_json] gets through: the key is not empty and, if it
    starts with M, the value is not [None]. *)
Definition json_item_ok (kv : string * value) : bool :=
  negb (String.eqb kv.1 "") && negb (is_meas kv.1 && bool_decide (kv.2 = VNone)).

(** The line that [read_json] prints for an item, if any: one for a text
    under a key that starts with M that [int] rejects. *)
Definition json_diag (path : string) (field : list (string * value))
    (kv : string * value) : list diag :=
  match kv.2 with
  | VStr s =>
      if is_meas kv.1 && bool_decide (Py.int_of_str s = None)
      then [IncorrectJson (VStr s) path kv.1 field] else []
  | _ => []
  end.

(** The lines that [read_json] prints for the items [kvs] of [field], and
    for a document. *)
Definition json_field_diags (path : string) (field kvs : list (string * value))
    : list diag :=
  List.concat (json_diag path field <$> kvs).

Definition json_all_diags (path : string) (fields : list (list (string * value)))
    : list diag :=
  List.concat ((fun field => json_field_diags path field field) <$> fields).

(** All the keys of a document. *)
Definition json_keys (fields : list (list (string * value))) : gset string :=
  list_to_set (List.concat ((fun field => field.*1) <$> fields)).

Definition json_row_of (field : list (string * value)) (r : gmap string value) : Prop :=
  forall k, r !! k = last (json_values field k).


(** What a row holds under the name D1, the key of the Basic report's
    sort. *)
Definition D1_value (row : gmap string value) : value := default VNone (row !! "D1").

(** A source that records a source column set without a name: a csv file
    that begins with a blank record, a json document whose fields are all
    empty, an xml document without an object. *)
Definition no_column (src : source) : bool :=
  match src with
  | Csv _ ((_, []) :: _) => true
  | Csv _ _ => false
  | Json _ fields => forallb (fun field => match field with [] => true | _ :: _ => false end) fields
  | Xml _ [] => true
  | Xml _ (_ :: _) => false
  end.

(** The line that [read_xml] prints for a child of the object named
    [column], if any; the lines for an object and for a document. *)
Definition xml_child_diag (path column : string) (text : option string) : list diag :=
  match text with
  | Some s =>
      if is_meas column && bool_decide (Py.int_of_str s = None)
      then [IncorrectXml s path column] else []
  | None => []
  end.

Definition xml_obj_diags (path : string) (obj : xml_object) : list diag :=
  match attrib_name obj with
  | Some column => List.concat (xml_child_diag path column <$> children obj)
  | None => []
  end.

Definition xml_all_diags (path : string) (objects : list xml_object) : list diag :=
  List.concat (xml_obj_diags path <$> objects).

(** The elements of [l], each once, in the order in which they first
    occur: the order of the keys of a [dict] filled in the order of [l]. *)
Definition first_seen {A : Type} `{EqDecision A} (l : list A) : list A :=
  foldl (fun acc k => if decide (k ∈ acc) then acc else acc ++ [k]) [] l.

(** ** The files of the writers, and the script *)

(** What a call of [write_tsv_basic] leaves in the file it opens, and the
    exception that ends the call, if any (lines 208-220).  The file is
    opened for writing, and so emptied, before anything is computed, and
    the header is written before the rows are sorted; leaving the [with]
    block closes the file with what was written.  (Opening the file is
    taken to succeed.) *)
Definition write_tsv_basic_file (o : set_order) (self : etl) (common : bool)
    : list (list value) * option exn :=
  match resolve o self common with
  | Raise e => ([], Some e)
  | Ok (d_columns, m_columns) =>
      let cols := d_columns ++ m_columns in
      match Py.sorted key_D1 Py.lt (rows self) with
      | Raise e => ([VStr <$> cols], Some e)
      | Ok sorted_rows => ((VStr <$> cols) :: (basic_line cols <$> sorted_rows), None)
      end
  end.

(** The loop [for key in sorted(data.keys())] (lines 283-284): the lines
    written until a [data[key]] raises. *)
Fixpoint write_lines (data : list (list value * list value)) (ks : list (list value))
    : list (list value) * option exn :=
  match ks with
  | [] => ([], None)
  | key :: ks' =>
      match Dict.getitem key data with
      | Raise e => ([], Some e)
      | Ok v => let '(ls, e) := write_lines data ks' in ((key ++ v) :: ls, e)
      end
  end.

(** The same for [write_tsv_advanced] (lines 273-284): the header is written
    before the rows are aggregated. *)
Definition write_tsv_advanced_file (o : set_order) (self : etl) (common : bool)
    : list (list value) * option exn :=
  match resolve o self common with
  | Raise e => ([], Some e)
  | Ok (d_columns, m_columns) =>
      match mapM rename_sum m_columns with
      | Raise e => ([], Some e)
      | Ok ms =>
          let header := VStr <$> (d_columns ++ ms) in
          match get_data_advanced (rows self) d_columns m_columns with
          | Raise e => ([header], Some e)
          | Ok data =>
              match Py.sorted tuple_key Py.tuple_lt (Dict.keys data) with
              | Raise e => ([header], Some e)
              | Ok ks => let '(ls, e) := write_lines data ks in (header :: ls, e)
              end
          end
      end
  end.

(** A line that the script prints. *)
Inductive printed :=
| StartProcess
| Incorrect (d : diag)
| ProcessCompleted.

(** The four sources that the script reads (lines 290-293), as their
    decoders deliver them. *)
Definition script_sources (csv_data_1 csv_data_2 : list (nat * list string))
    (json_data : list (list (string * value))) (xml_data : list xml_object)
    : list source :=
  [Csv "data/csv_data_1.csv" csv_data_1; Csv "data/csv_data_2.csv" csv_data_2;
   Json "data/json_data.json" json_data; Xml "data/xml_data.xml" xml_data].

(** The four reports that the script writes (lines 294-298), each with its
    file and its [common_columns] flag. *)
Definition script_reports (o : set_order)
    : list (string * (etl -> list (list value) * option exn)) :=
  [("results/out_basic.tsv", fun self => write_tsv_basic_file o self false);
   ("results/out_advanced.tsv", fun self => write_tsv_advanced_file o self false);
   ("results/out_basic_union.tsv", fun self => write_tsv_basic_file o self true);
   ("results/out_advanced_union.tsv", fun self => write_tsv_advanced_file o self true)].

(** The calls of the writers one after the other on the files [fs]; the
    first exception ends them. *)
Fixpoint write_all (ws : list (string * (etl -> list (list value) * option exn)))
    (self : etl) (fs : gmap string (list (list value)))
    : gmap string (list (list value)) * option exn :=
  match ws with
  | [] => (fs, None)
  | (path, w) :: ws' =>
      let '(content, e) := w self in
      let fs := <[path := content]> fs in
      match e with
      | Some e => (fs, Some e)
      | None => write_all ws' self fs
      end
  end.

(** The script (lines 287-299) on the files [fs]: the files after it, and
    either the lines it has printed when it completes or the exception that
    ends it. *)
Definition main (o : set_order) (fs : gmap string (list (list value)))
    (csv_data_1 csv_data_2 : list (nat * list string))
    (json_data : list (list (string * value))) (xml_data : list xml_object)
    : gmap string (list (list value)) * res (list printed) :=
  match ingest (script_sources csv_data_1 csv_data_2 json_data xml_data) init with
  | Raise e => (fs, Raise e)
  | Ok self =>
      match write_all (script_reports o) self fs with
      | (fs', Some e) => (fs', Raise e)
      | (fs', None) =>
          (fs', Ok (StartProcess :: (Incorrect <$> stdout self) ++ [ProcessCompleted]))
      end
  end.

(** ** Further concrete sources *)

(** A json document of one field that gives its measure as text. *)
Definition text_measure : list (list (string * value)) :=
  [[("D1", VStr "a"); ("M1", VStr "3")]].

(** A csv source without a column named D1. *)
Definition source_c : source :=
  Csv "c.csv" [(1%nat, ["D2"]); (2%nat, ["a"])].

(** The Basic and the Advanced report of the scenario. *)
Definition scenario_basic : list (list value) :=
  [[VStr "D1"; VStr "M1"; VStr "M2"]; [VStr "a"; VInt 3; VInt 5];
   [VStr "b"; VStr "-"; VInt 2]].

(** Sources for a run of the script: two csv readers, a json document of
    one field and the xml document [two_objects]. *)
Definition csv_data_a : list (nat * list string) :=
  [(1%nat, ["D1"; "M1"]); (2%nat, ["x"; "1"])].
Definition csv_data_b : list (nat * list string) :=
  [(1%nat, ["D1"; "D2"; "M1"]); (2%nat, ["y"; "z"; "2"])].
Definition json_data_c : list (list (string * value)) :=
  [[("D1", VStr "x"); ("M1", VInt 4)]].

(** ** The Group Key and the Group Value as the data model has them *)

(** The Group Key of a row (section 3 of the specification): for each
    dimension column, in order, the value of the row, [-] where the row has
    none. *)
Definition spec_group_key (d : list string) (row : gmap string value) : list value :=
  (fun c => match row !! c with Some v => v | None => VStr "-" end) <$> d.

(** The Group Value of the key [k]: for each measure column, in order, the
    sum, over the rows whose Group Key is [k], of the integer that the row
    holds in the column, 0 for a row that holds none. *)
Definition spec_group_value (rs : list (gmap string value)) (d m : list string)
    (k : list value) : list Z :=
  (fun c => sum_Z ((fun row => match row !! c with Some (VInt z) => z | _ => 0 end)
                     <$> filter (fun row => spec_group_key d row = k) rs))
    <$> m.

(** The row holds a text, or nothing, under each of the names [d]; an
    integer, or nothing, under each of the names [m]. *)
Definition texts_under (d : list string) (row : gmap string value) : bool :=
  forallb (fun c => match row !! c with Some (VStr _) | None => true | _ => false end) d.
Definition integers_under (m : list string) (row : gmap string value) : bool :=
  forallb (fun c => match row !! c with Some (VInt _) | None => true | _ => false end) m.



(** ** Concrete sources for the corrections *)



(** A csv source with two rows of the same D1 text, stored after a row with
    a greater one; its Basic and its Advanced report. *)
Definition tied : source :=
  Csv "t.csv" [(1%nat, ["D1"; "M1"]); (2%nat, ["b"; "1"]); (3%nat, ["a"; "2"]);
               (4%nat, ["a"; "3"])].
Definition tied_basic : list (list value) :=
  [[VStr "D1"; VStr "M1"]; [VStr "a"; VInt 2]; [VStr "a"; VInt 3];
   [VStr "b"; VInt 1]].

(** A csv source whose header has the name M1 twice, both texts rejected. *)
Definition twice : source :=
  Csv "m.csv" [(1%nat, ["M1"; "M1"]); (2%nat, ["x"; "x"])].

(** * Properties *)

(** ** [int] on strings *)

Example int_of_str_examples :
  Py.int_of_str " 5 " = Some 5 /\ Py.int_of_str "-5" = Some (-5) /\
  Py.int_of_str "1_0" = Some 10 /\ Py.int_of_str "007" = Some 7 /\
  Py.int_of_str "- 5" = None /\ Py.int_of_str "1__0" = None /\
  Py.int_of_str "_1" = None /\ Py.int_of_str "1_" = None /\
  Py.int_of_str "" = None /\ Py.int_of_str "+" = None /\
  Py.int_of_str "x" = None /\ Py.int_of_str "1 0" = None.
Proof. repeat split; reflexivity. Qed.

(** ** [sorted] and [+] on small inputs *)

Example sorted_is_stable :
  Py.sorted (fun x : Z * string => Ok (VInt x.1)) Py.lt [(2, "a"); (1, "b"); (2, "c"); (1, "d")]
  = Ok [(1, "b"); (1, "d"); (2, "a"); (2, "c")].
Proof. reflexivity. Qed.

Example sorted_text_not_numeric :
  Py.sorted (fun x => Ok (VStr x)) Py.lt ["10"; "9"; "1"] = Ok ["1"; "10"; "9"].
Proof. reflexivity. Qed.

Example sorted_mixed_keys :
  Py.sorted (fun x : value => Ok x) Py.lt [VStr "a"; VInt 1] = Raise TypeError
  /\ Py.sorted (fun x : value => Ok x) Py.lt [VNone; VNone] = Raise TypeError
  /\ Py.sorted (fun x : value => Ok x) Py.lt [VNone] = Ok [VNone].
Proof. repeat split; reflexivity. Qed.

Example tuple_lt_first_difference :
  Py.tuple_lt [VStr "a"; VInt 1] [VStr "b"; VStr "x"] = Ok true
  /\ Py.tuple_lt [VStr "a"; VInt 1] [VStr "a"; VStr "x"] = Raise TypeError.
Proof. split; reflexivity. Qed.

Example add_int_text : Py.add (VInt 0) (VStr "3") = Raise TypeError.
Proof. reflexivity. Qed.

(** ** The error monad and the loops *)

Lemma bind_Ok {A B : Type} (x : res A) (f : A -> res B) (b : B) :
  x ≫= f = Ok b <-> exists a, x = Ok a /\ f a = Ok b.
Proof.
  destruct x as [a|e]; simpl; split.
  - intros H. exists a. auto.
  - intros (a' & Ha & H). congruence.
  - discriminate.
  - intros (a' & Ha & _). discriminate.
Qed.

Ltac inv_bind H :=
  let a := fresh "a" in
  let Ha := fresh "H" a in
  apply bind_Ok in H; destruct H as (a & Ha & H).

(** A loop invariant: kept by every turn whose body returns, it holds of
    what the loop returns. *)
Lemma foldM_invariant {A S : Type} (P : S -> Prop) (f : S -> A -> res S)
    (l : list A) (s s' : S) :
  foldM f l s = Ok s' -> P s ->
  (forall s a s', a ∈ l -> P s -> f s a = Ok s' -> P s') ->
  P s'.
Proof.
  revert s. induction l as [|a l IH]; intros s H Hs Hf; simpl in H.
  - congruence.
  - inv_bind H. apply (IH a0); auto.
    + eapply Hf; eauto. by left.
    + intros. eapply Hf; eauto. by right.
Qed.

(** A loop whose body always returns, returns. *)
Lemma foldM_total {A S : Type} (P : S -> Prop) (f : S -> A -> res S)
    (l : list A) (s : S) :
  (forall s a, a ∈ l -> P s -> exists s', f s a = Ok s' /\ P s') ->
  P s -> exists s', foldM f l s = Ok s' /\ P s'.
Proof.
  revert s. induction l as [|a l IH]; intros s Hf Hs; simpl.
  - eauto.
  - destruct (Hf s a) as (s1 & -> & Hs1); [by left | auto |]. simpl.
    apply IH; auto. intros. apply Hf; auto. by right.
Qed.

Lemma mapM_Ok_pure {A B : Type} (f : A -> res B) (g : A -> B) (l : list A) :
  (forall a, a ∈ l -> f a = Ok (g a)) -> mapM f l = Ok (g <$> l).
Proof.
  induction l as [|a l IH]; intros H; simpl; [reflexivity|].
  rewrite H by (by left). simpl. rewrite IH; [reflexivity|].
  intros. apply H. by right.
Qed.

Lemma mapM_Raise {A B : Type} (f : A -> res B) (e : exn) (l : list A) :
  (forall a, a ∈ l -> f a = Raise e \/ is_ok (f a) = true) ->
  (exists a, a ∈ l /\ f a = Raise e) -> mapM f l = Raise e.
Proof.
  induction l as [|a l IH]; intros Hall (x & Hx & Hfx).
  - inversion Hx.
  - simpl. destruct (Hall a) as [Ha|Ha]; [by left | rewrite Ha; reflexivity |].
    destruct (f a) as [b|e'] eqn:E; [|discriminate]. simpl.
    rewrite IH; [reflexivity | |].
    + intros. apply Hall. by right.
    + exists x. split; [|assumption].
      apply elem_of_cons in Hx as [->|Hx]; [congruence | assumption].
Qed.

(** ** The order on strings and on tuples of strings *)

Lemma str_lt_asym (a b : string) : Py.str_lt a b = true -> Py.str_lt b a = false.
Proof.
  revert b. induction a as [|x a IH]; intros [|y b]; simpl; try done.
  destruct (Nat.ltb_spec (nat_of_ascii x) (nat_of_ascii y));
    destruct (Nat.ltb_spec (nat_of_ascii y) (nat_of_ascii x));
    try lia; try done; auto.
Qed.

Lemma str_le_trans (a b c : string) :
  Py.str_lt b a = false -> Py.str_lt c b = false -> Py.str_lt c a = false.
Proof.
  revert b c. induction a as [|x a IH]; intros [|y b] [|z c]; simpl; try done.
  destruct (Nat.ltb_spec (nat_of_ascii y) (nat_of_ascii x));
    destruct (Nat.ltb_spec (nat_of_ascii x) (nat_of_ascii y));
    destruct (Nat.ltb_spec (nat_of_ascii z) (nat_of_ascii y));
    destruct (Nat.ltb_spec (nat_of_ascii y) (nat_of_ascii z));
    destruct (Nat.ltb_spec (nat_of_ascii z) (nat_of_ascii x));
    destruct (Nat.ltb_spec (nat_of_ascii x) (nat_of_ascii z));
    try lia; try done; eauto.
Qed.

Lemma str_lt_total (a b : string) :
  a <> b -> Py.str_lt a b = false -> Py.str_lt b a = true.
Proof.
  revert b. induction a as [|x a IH]; intros [|y b]; simpl; try done.
  intros Hne.
  destruct (Nat.ltb_spec (nat_of_ascii x) (nat_of_ascii y));
    destruct (Nat.ltb_spec (nat_of_ascii y) (nat_of_ascii x));
    try lia; try done.
  assert (x = y) as ->.
  { rewrite <- (ascii_nat_embedding x), <- (ascii_nat_embedding y). f_equal. lia. }
  apply IH. congruence.
Qed.

Lemma tuple_lt_strs (a b : list string) :
  Py.tuple_lt (VStr <$> a) (VStr <$> b) = Ok (strs_lt a b).
Proof.
  revert b. induction a as [|x a IH]; intros [|y b]; simpl; try reflexivity.
  destruct (decide (x = y)) as [->|Hne].
  - rewrite decide_True by reflexivity. apply IH.
  - rewrite decide_False by congruence. reflexivity.
Qed.

Lemma strs_lt_asym (a b : list string) : strs_lt a b = true -> strs_lt b a = false.
Proof.
  revert b. induction a as [|x a IH]; intros [|y b]; simpl; try done.
  destruct (decide (x = y)) as [->|Hne].
  - rewrite decide_True by reflexivity. apply IH.
  - rewrite decide_False by congruence. apply str_lt_asym.
Qed.

Lemma strs_le_trans (a b c : list string) :
  strs_lt b a = false -> strs_lt c b = false -> strs_lt c a = false.
Proof.
  revert b c. induction a as [|x a IH]; intros [|y b] [|z c]; simpl; try done.
  destruct (decide (y = x)) as [Eyx|Hyx]; destruct (decide (z = y)) as [Ezy|Hzy];
    subst.
  - rewrite decide_True by reflexivity. apply IH.
  - rewrite decide_False by assumption. auto.
  - rewrite decide_False by assumption. auto.
  - intros H1 H2. destruct (decide (z = x)) as [->|Hzx].
    + apply str_lt_total in H2; [|assumption]. congruence.
    + eapply str_le_trans; eauto.
Qed.

Lemma strs_lt_total (a b : list string) :
  a <> b -> strs_lt a b = false -> strs_lt b a = true.
Proof.
  revert b. induction a as [|x a IH]; intros [|y b]; simpl; try done.
  intros Hne. destruct (decide (x = y)) as [->|Hxy].
  - rewrite decide_True by reflexivity. apply IH. congruence.
  - rewrite decide_False by congruence. by apply str_lt_total.
Qed.

Lemma lt_asym (x y : value) : Py.lt x y = Ok true -> Py.lt y x = Ok false.
Proof.
  destruct x as [a|a|], y as [b|b|]; simpl; try discriminate; intros H; f_equal.
  - apply str_lt_asym. congruence.
  - inversion H as [H']. apply Z.ltb_lt in H'. apply Z.ltb_ge. lia.
Qed.

Lemma lt_total (x y : value) : x <> y -> Py.lt y x = Ok false -> Py.lt x y = Ok true.
Proof.
  destruct x as [a|a|], y as [b|b|]; simpl; try discriminate; intros Hne H; f_equal.
  - apply str_lt_total; congruence.
  - inversion H as [H']. apply Z.ltb_ge in H'. apply Z.ltb_lt.
    assert (a <> b) by congruence. lia.
Qed.

Lemma tuple_lt_asym (a b : list value) :
  Py.tuple_lt a b = Ok true -> Py.tuple_lt b a = Ok false.
Proof.
  revert b. induction a as [|x a IH]; intros [|y b]; simpl; try done.
  destruct (decide (x = y)) as [->|Hne].
  - rewrite decide_True by reflexivity. apply IH.
  - rewrite decide_False by congruence. apply lt_asym.
Qed.

Lemma tuple_lt_total (a b : list value) :
  a <> b -> Py.tuple_lt b a = Ok false -> Py.tuple_lt a b = Ok true.
Proof.
  revert b. induction a as [|x a IH]; intros [|y b]; simpl; try done.
  intros Hne. destruct (decide (y = x)) as [->|Hyx].
  - rewrite decide_True by reflexivity. apply IH. congruence.
  - rewrite decide_False by congruence. by apply lt_total.
Qed.

(** ** [sorted] on keys that can be compared *)

Lemma StronglySorted_weaken {A : Type} (R1 R2 : A -> A -> Prop) (l : list A) :
  (forall a b, R1 a b -> R2 a b) -> StronglySorted R1 l -> StronglySorted R2 l.
Proof.
  intros HR. induction 1 as [|a l Hs IH Ha]; constructor; auto.
  eapply Forall_impl; eauto.
Qed.

Section SortSpec.
Context {K K' A : Type}.
Variable key : A -> res K.
Variable less : K -> K -> res bool.
Variable inj : K' -> K.
Variable kf : A -> K'.
Variable ltb : K' -> K' -> bool.
Hypothesis less_inj : forall x y, less (inj x) (inj y) = Ok (ltb x y).
Hypothesis ltb_asym : forall x y, ltb x y = true -> ltb y x = false.
Hypothesis ltb_le_trans :
  forall x y z, ltb y x = false -> ltb z y = false -> ltb z x = false.

Abbreviation key_le := (key_le kf ltb).
Abbreviation keyed := (keyed inj kf).

Lemma insert_sorted_spec (x : A) (l : list A) :
  StronglySorted key_le l ->
  exists r, Py.insert_sorted less (inj (kf x), x) (keyed l) = Ok (keyed r)
            /\ r ≡ₚ x :: l /\ StronglySorted key_le r.
Proof.
  induction l as [|y l IH]; intros Hs; simpl.
  - exists [x]. repeat split; auto. repeat constructor.
  - apply StronglySorted_inv in Hs as [Hs Hy].
    rewrite less_inj. simpl. destruct (ltb (kf y) (kf x)) eqn:E.
    + destruct (IH Hs) as (r & -> & Hp & Hr). simpl.
      exists (y :: r). repeat split.
      * rewrite Hp. apply perm_swap.
      * constructor; [assumption|]. rewrite Hp. constructor; [|assumption].
        unfold key_le. auto.
    + exists (x :: y :: l). repeat split; auto.
      constructor; [by constructor|]. constructor; [exact E|].
      eapply Forall_impl; [exact Hy|]. intros z Hz. unfold key_le in *. eauto.
Qed.

Lemma sort_keyed_spec (l : list A) :
  exists r, Py.sort_keyed less (keyed l) = Ok (keyed r)
            /\ r ≡ₚ l /\ StronglySorted key_le r.
Proof.
  induction l as [|x l (r & Hr & Hp & Hs)]; simpl.
  - exists []. repeat split; auto. constructor.
  - rewrite Hr. simpl.
    destruct (insert_sorted_spec x r Hs) as (r' & -> & Hp' & Hs').
    exists r'. repeat split; auto. by rewrite Hp', Hp.
Qed.

Lemma snd_keyed (l : list A) : (keyed l).*2 = l.
Proof. unfold keyed. rewrite <- list_fmap_compose. apply list_fmap_id. Qed.

(** When every key is computed and any two of them compare, [sorted]
    returns the elements reordered so that no key is followed by a smaller
    one. *)
Lemma sorted_spec (l : list A) :
  (forall a, a ∈ l -> key a = Ok (inj (kf a))) ->
  exists r, Py.sorted key less l = Ok r /\ r ≡ₚ l /\ StronglySorted key_le r.
Proof.
  intros Hk. unfold Py.sorted.
  rewrite (mapM_Ok_pure _ (fun a => (inj (kf a), a))).
  - simpl. destruct (sort_keyed_spec l) as (r & Hr & Hp & Hs).
    fold (keyed l). rewrite Hr. simpl. rewrite snd_keyed. eauto.
  - intros a Ha. unfold Py.with_key. by rewrite Hk.
Qed.
End SortSpec.

(** ** [sorted] when it returns *)

Section SortOk.
Context {K A : Type}.
Variable less : K -> K -> res bool.
Variable kf : A -> K.
Hypothesis less_asym : forall x y, less x y = Ok true -> less y x = Ok false.

Abbreviation ascends := (ascends less kf).
Abbreviation keyed := (keyed id kf).

Lemma insert_sorted_Ok (x : A) (l : list A) (r' : list (K * A)) :
  Py.insert_sorted less (kf x, x) (keyed l) = Ok r' ->
  exists r, r' = keyed r /\ r ≡ₚ x :: l
            /\ (forall z, ascends z x -> HdRel ascends z l -> HdRel ascends z r)
            /\ (Sorted ascends l -> Sorted ascends r).
Proof.
  revert r'. induction l as [|y l IH]; intros r' H.
  - inversion H; subst. exists [x]. repeat split; auto.
  - cbn [keyed fmap list_fmap Py.insert_sorted fst] in H. inv_bind H.
    destruct a.
    + inv_bind H. inversion H; subst; clear H.
      destruct (IH _ Ha0) as (r & -> & Hp & Hhd & Hs).
      exists (y :: r). repeat split.
      * rewrite Hp. apply perm_swap.
      * intros z _ Hz. constructor. by apply HdRel_inv in Hz.
      * intros Hys. apply Sorted_inv in Hys as [Hl Hy]. constructor; [auto|].
        apply Hhd; [|exact Hy]. by apply less_asym.
    + inversion H; subst; clear H. exists (x :: y :: l). repeat split; auto.
Qed.

Lemma sort_keyed_Ok (l : list A) (r' : list (K * A)) :
  Py.sort_keyed less (keyed l) = Ok r' ->
  exists r, r' = keyed r /\ r ≡ₚ l /\ Sorted ascends r.
Proof.
  revert r'. induction l as [|x l IH]; intros r' H.
  - inversion H; subst. exists []. repeat split; auto.
  - cbn [keyed fmap list_fmap Py.sort_keyed] in H. inv_bind H.
    destruct (IH _ Ha) as (r & -> & Hp & Hs).
    destruct (insert_sorted_Ok x r r' H) as (r0 & -> & Hp0 & _ & Hs0).
    exists r0. repeat split; auto. by rewrite Hp0, Hp.
Qed.

(** What [sorted] returns holds the elements it was given, none followed
    by one with a smaller key. *)
Lemma sorted_Ok (key : A -> res K) (l r : list A) :
  (forall a, key a = Ok (kf a)) ->
  Py.sorted key less l = Ok r -> r ≡ₚ l /\ Sorted ascends r.
Proof.
  intros Hkey H. unfold Py.sorted in H.
  rewrite (mapM_Ok_pure _ (fun a => (kf a, a))) in H
    by (intros a _; unfold Py.with_key; by rewrite Hkey).
  cbn [mbind res_bind] in H. inv_bind H. inversion H; subst; clear H.
  destruct (sort_keyed_Ok l a Ha) as (r & -> & Hp & Hs).
  by rewrite (snd_keyed id kf).
Qed.
End SortOk.

(** A key that cannot be computed makes [sorted] raise what the key raised. *)
Lemma sorted_key_Raise {K A : Type} (key : A -> res K) (less : K -> K -> res bool)
    (e : exn) (l : list A) :
  (forall a, a ∈ l -> key a = Raise e \/ is_ok (key a) = true) ->
  (exists a, a ∈ l /\ key a = Raise e) ->
  Py.sorted key less l = Raise e.
Proof.
  intros Hall (a & Ha & Hka). unfold Py.sorted.
  rewrite (mapM_Raise _ e); [reflexivity | |].
  - intros x Hx. unfold Py.with_key.
    destruct (Hall x Hx) as [->| H]; [by left|].
    destruct (key x); [by right | discriminate].
  - exists a. split; [assumption|]. unfold Py.with_key. by rewrite Hka.
Qed.

(** ** Resolving *)

Lemma index0_starts (c : ascii) (s : string) :
  s <> "" -> exists x, Py.index0 s = Ok x /\ Ascii.eqb x c = starts c s.
Proof. destruct s as [|x s]; [done|]. intros _. exists x. auto. Qed.

Lemma d_m_split (names d0 m0 : list string) :
  "" ∉ names ->
  foldM d_m_step names (d0, m0)
  = Ok (d0 ++ filter is_dim names, m0 ++ filter is_meas names).
Proof.
  revert d0 m0. induction names as [|y names IH]; intros d0 m0 Hne.
  - simpl. by rewrite !app_nil_r.
  - apply not_elem_of_cons in Hne as [Hy Hne].
    rewrite !filter_cons. simpl. unfold is_dim, is_meas.
    destruct y as [|c y]; [done|]. simpl.
    destruct (Ascii.eqb_spec c "D") as [->|HD]; simpl.
    + rewrite IH by assumption. by rewrite <- app_assoc.
    + destruct (Ascii.eqb_spec c "M") as [->|HM]; simpl.
      * rewrite IH by assumption. by rewrite <- app_assoc.
      * by rewrite IH.
Qed.

Lemma d_m_split_empty (names : list string) (acc : list string * list string) :
  "" ∈ names -> foldM d_m_step names acc = Raise IndexError.
Proof.
  revert acc. induction names as [|y names IH]; intros [d0 m0] Hin.
  - inversion Hin.
  - simpl. destruct y as [|c y]; [reflexivity|].
    apply elem_of_cons in Hin as [Hin|Hin]; [discriminate|].
    simpl. destruct (Ascii.eqb c "D"); [|destruct (Ascii.eqb c "M")]; simpl; by apply IH.
Qed.

Lemma suffix_key_ok (y : string) :
  suffix_ok y = true -> suffix_key y = Ok (suffix_num y).
Proof.
  unfold suffix_ok, suffix_key, suffix_num, Py.int.
  destruct (Py.int_of_str (Py.tail y)); [reflexivity | discriminate].
Qed.

Lemma suffix_key_bad (y : string) :
  suffix_ok y = false -> suffix_key y = Raise ValueError.
Proof.
  unfold suffix_ok, suffix_key, Py.int.
  destruct (Py.int_of_str (Py.tail y)); [discriminate | reflexivity].
Qed.

Lemma sorted_by_suffix_Ok (l : list string) :
  (forall y, y ∈ l -> suffix_ok y = true) ->
  exists r, sorted_by_suffix l = Ok r /\ r ≡ₚ l /\ StronglySorted suffix_le r.
Proof.
  intros Hl.
  destruct (sorted_spec suffix_key int_lt id suffix_num Z.ltb) with (l := l)
    as (r & Hr & Hp & Hs).
  - reflexivity.
  - intros x y H. apply Z.ltb_lt in H. apply Z.ltb_ge. lia.
  - intros x y z H1 H2. apply Z.ltb_ge in H1, H2. apply Z.ltb_ge. lia.
  - intros a Ha. apply suffix_key_ok. auto.
  - exists r. repeat split; auto.
    eapply StronglySorted_weaken; [|exact Hs].
    intros a b H. unfold key_le in H. apply Z.ltb_ge in H. exact H.
Qed.

Lemma sorted_by_suffix_Raise (l : list string) :
  (exists y, y ∈ l /\ suffix_ok y = false) ->
  sorted_by_suffix l = Raise ValueError.
Proof.
  intros (y & Hy & Hbad). apply sorted_key_Raise.
  - intros a _. destruct (suffix_ok a) eqn:E.
    + right. by rewrite suffix_key_ok.
    + left. by apply suffix_key_bad.
  - exists y. split; [assumption|]. by apply suffix_key_bad.
Qed.

Lemma names_ok_spec (names : list string) :
  names_ok names = true <->
  ("" ∉ names) /\ (forall y, y ∈ names -> role_name y = true -> suffix_ok y = true).
Proof.
  unfold names_ok. rewrite forallb_forall. split.
  - intros H. split.
    + intros Hin. apply list_elem_of_In, H in Hin. discriminate.
    + intros y Hy Hr. apply list_elem_of_In, H in Hy.
      rewrite Hr in Hy. simpl in Hy. by apply andb_prop in Hy as [_ ?].
  - intros [Hne H] y Hy. apply list_elem_of_In in Hy. apply andb_true_intro. split.
    + apply negb_true_iff, String.eqb_neq. intros ->. contradiction.
    + destruct (role_name y) eqn:Hr; simpl; auto.
Qed.

Lemma names_bad_spec (names : list string) :
  names_ok names = false ->
  ("" ∈ names) \/ exists y, y ∈ names /\ role_name y = true /\ suffix_ok y = false.
Proof.
  induction names as [|y names IH]; simpl; [discriminate|].
  destruct (String.eqb_spec y "") as [->|Hy]; simpl.
  { intros _. left. by left. }
  destruct (role_name y) eqn:Hr; simpl.
  - destruct (suffix_ok y) eqn:Hs; simpl.
    + intros H. destruct (IH H) as [?|(z & ? & ?)]; [left; by right|].
      right. exists z. split; [by right | assumption].
    + intros _. right. exists y. split; [by left | auto].
  - intros H. destruct (IH H) as [?|(z & ? & ?)]; [left; by right|].
    right. exists z. split; [by right | assumption].
Qed.

Lemma d_m_sorted_Ok (names : list string) :
  names_ok names = true ->
  exists d m, d_m_sorted names = Ok (d, m)
    /\ d ≡ₚ filter is_dim names /\ m ≡ₚ filter is_meas names
    /\ StronglySorted suffix_le d /\ StronglySorted suffix_le m.
Proof.
  intros H. apply names_ok_spec in H as [Hne Hok].
  unfold d_m_sorted. rewrite d_m_split by assumption. simpl.
  destruct (sorted_by_suffix_Ok (filter is_dim names)) as (d & -> & Hpd & Hsd).
  { intros y Hy. apply list_elem_of_filter in Hy as [Hd Hy].
    apply Hok; [assumption|]. unfold role_name. by apply Is_true_true in Hd as ->. }
  destruct (sorted_by_suffix_Ok (filter is_meas names)) as (m & -> & Hpm & Hsm).
  { intros y Hy. apply list_elem_of_filter in Hy as [Hm Hy].
    apply Hok; [assumption|]. unfold role_name.
    apply Is_true_true in Hm as ->. apply orb_true_r. }
  simpl. eauto 10.
Qed.

Lemma is_dim_not_meas (y : string) : is_dim y = true -> is_meas y = false.
Proof.
  destruct y as [|c y]; [discriminate|]. unfold is_dim, is_meas. simpl.
  intros H. apply Ascii.eqb_eq in H as ->. reflexivity.
Qed.

Lemma is_dim_false_of_meas (y : string) : is_meas y = true -> is_dim y = false.
Proof.
  destruct y as [|c y]; [discriminate|]. unfold is_dim, is_meas. simpl.
  intros H. apply Ascii.eqb_eq in H as ->. reflexivity.
Qed.

(** Which exception a resolution raises: [IndexError] on an empty name,
    otherwise [ValueError] on a suffix that [int] rejects. *)
Lemma d_m_sorted_Raise (names : list string) :
  names_ok names = false ->
  d_m_sorted names = Raise (if decide ("" ∈ names) then IndexError else ValueError).
Proof.
  intros H. unfold d_m_sorted. destruct (decide ("" ∈ names)) as [Hin|Hne].
  - by rewrite d_m_split_empty.
  - rewrite d_m_split by assumption. simpl.
    destruct (names_bad_spec _ H) as [?|(y & Hy & Hr & Hbad)]; [contradiction|].
    destruct (is_dim y) eqn:Hd.
    + rewrite (sorted_by_suffix_Raise (filter is_dim names)); [reflexivity|].
      exists y. split; [|assumption]. apply list_elem_of_filter. split; [|assumption].
      by apply Is_true_true.
    + assert (is_meas y = true) as Hm.
      { unfold role_name in Hr. rewrite Hd in Hr. exact Hr. }
      assert (sorted_by_suffix (filter is_meas names) = Raise ValueError) as Hms.
      { apply sorted_by_suffix_Raise. exists y. split; [|assumption].
        apply list_elem_of_filter. split; [|assumption]. by apply Is_true_true. }
      destruct (decide (Forall (fun z => suffix_ok z = true) (filter is_dim names)))
        as [Hall|Hnall].
      * destruct (sorted_by_suffix_Ok (filter is_dim names)) as (d & -> & _).
        { intros z Hz. rewrite Forall_forall in Hall. by apply Hall. }
        simpl. by rewrite Hms.
      * rewrite (sorted_by_suffix_Raise (filter is_dim names)); [reflexivity|].
        apply not_Forall_Exists in Hnall; [|apply _].
        apply Exists_exists in Hnall as (z & Hz & Hzbad).
        exists z. split; [assumption|]. by apply not_true_iff_false.
Qed.

Lemma iter_elem (o : set_order) (s : gset string) (x : string) :
  x ∈ iter o s <-> x ∈ s.
Proof. rewrite (iter_perm o s). apply elem_of_elements. Qed.

Lemma iter_empty (o : set_order) : iter o ∅ = [].
Proof.
  apply Permutation_nil_r. rewrite (iter_perm o ∅). by rewrite elements_empty.
Qed.

Lemma resolve_eq (o : set_order) (self : etl) (common : bool) :
  resolve o self common = d_m_sorted (iter o (resolved_set self common)).
Proof.
  unfold resolve, resolved_set, d_m_sorted_common_columns, d_m_sorted_columns.
  destruct common; [|reflexivity].
  destruct (common_columns self); [|reflexivity].
  by rewrite iter_empty.
Qed.

Lemma elem_of_intersection_all (s0 : gset string) (rest : list (gset string)) (x : string) :
  x ∈ intersection s0 rest <-> x ∈ s0 /\ forall s, s ∈ rest -> x ∈ s.
Proof.
  unfold intersection. revert s0. induction rest as [|s rest IH]; intros s0; simpl.
  - split; [intros H; split; [assumption|] | tauto].
    intros s Hs. inversion Hs.
  - rewrite IH, elem_of_intersection. split.
    + intros [[H0 Hs] Hr]. split; [assumption|].
      intros s' Hs'. apply elem_of_cons in Hs' as [->|Hs']; auto.
    + intros [H0 Hr]. repeat split; [assumption | apply Hr; by left |].
      intros s' Hs'. apply Hr. by right.
Qed.

(** What a resolution that returns has returned. *)
Lemma resolve_inv (o : set_order) (self : etl) (common : bool) (d m : list string) :
  resolve o self common = Ok (d, m) ->
  names_ok (iter o (resolved_set self common)) = true
  /\ d ≡ₚ filter is_dim (iter o (resolved_set self common))
  /\ m ≡ₚ filter is_meas (iter o (resolved_set self common))
  /\ StronglySorted suffix_le d /\ StronglySorted suffix_le m.
Proof.
  rewrite resolve_eq. intros H.
  destruct (names_ok (iter o (resolved_set self common))) eqn:E.
  - destruct (d_m_sorted_Ok _ E) as (d' & m' & H' & ?).
    rewrite H' in H. inversion H; subst. auto.
  - rewrite (d_m_sorted_Raise _ E) in H. discriminate.
Qed.

Lemma resolve_elem_d (o : set_order) (self : etl) (common : bool) (d m : list string) :
  resolve o self common = Ok (d, m) ->
  forall x, x ∈ d <-> x ∈ resolved_set self common /\ is_dim x = true.
Proof.
  intros H x. apply resolve_inv in H as (_ & Hd & _).
  rewrite Hd, list_elem_of_filter, iter_elem, Is_true_true. tauto.
Qed.

Lemma resolve_elem_m (o : set_order) (self : etl) (common : bool) (d m : list string) :
  resolve o self common = Ok (d, m) ->
  forall x, x ∈ m <-> x ∈ resolved_set self common /\ is_meas x = true.
Proof.
  intros H x. apply resolve_inv in H as (_ & _ & Hm & _).
  rewrite Hm, list_elem_of_filter, iter_elem, Is_true_true. tauto.
Qed.

Lemma nat_literal_digits (s : string) (acc : Z) :
  all_digits s = true -> s <> "" \/ 0 <= acc ->
  forall b, (s = "" -> b = true) ->
  exists z, Py.digits s acc b = Some z /\ (0 <= acc -> 0 <= z).
Proof.
  revert acc. induction s as [|c s IH]; intros acc Hd Hne b Hb; simpl in *.
  - rewrite Hb by reflexivity. exists acc. auto.
  - unfold Py.digit in *.
    destruct ((48 <=? Z.of_nat (nat_of_ascii c)) && (Z.of_nat (nat_of_ascii c) <=? 57))
      eqn:E; [|discriminate].
    apply andb_prop in E as [E1 E2]. apply Z.leb_le in E1, E2.
    destruct (decide (0 <= acc)) as [Hacc|Hacc].
    + destruct (IH (10 * acc + (Z.of_nat (nat_of_ascii c) - 48)) Hd) with (b := true)
        as (z & Hz & Hpos); [right; lia | auto |].
      exists z. split; [assumption|]. intros _. apply Hpos. lia.
    + destruct s as [|c' s].
      * simpl. eexists. split; [reflexivity|]. intros. lia.
      * destruct (IH (10 * acc + (Z.of_nat (nat_of_ascii c) - 48)) Hd) with (b := true)
          as (z & Hz & Hpos); [by left | discriminate |].
        exists z. split; [assumption|]. intros. lia.
Qed.

(** [int] accepts every non-negative integer literal. *)
Lemma nat_literal_int (s : string) :
  nat_literal s = true -> exists z, Py.int_of_str s = Some z /\ 0 <= z.
Proof.
  destruct s as [|c s]; [discriminate|]. unfold nat_literal. intros Hd.
  assert (exists d, Py.digit c = Some d) as (d & Hc).
  { simpl in Hd. destruct (Py.digit c); [eauto | discriminate]. }
  assert (Py.is_space c = false /\ c <> "+"%char /\ c <> "-"%char) as (Hsp & Hplus & Hminus).
  { unfold Py.digit in Hc. unfold Py.is_space.
    destruct ((48 <=? Z.of_nat (nat_of_ascii c)) && (Z.of_nat (nat_of_ascii c) <=? 57))
      eqn:E; [|discriminate].
    apply andb_prop in E as [E1 E2]. apply Z.leb_le in E1, E2.
    repeat split.
    - apply orb_false_intro; [apply andb_false_intro2; apply Z.leb_gt; lia
                             | apply Z.eqb_neq; lia].
    - intros ->. simpl in *. lia.
    - intros ->. simpl in *. lia. }
  destruct (nat_literal_digits (String c s) 0 Hd) with (b := false)
    as (z & Hz & Hpos); [by left | discriminate |].
  exists z. split; [|apply Hpos; lia].
  unfold Py.int_of_str. simpl Py.lstrip. rewrite Hsp.
  destruct c as [[] [] [] [] [] [] [] []]; try exact Hz; congruence.
Qed.

Lemma names_ok_subset (l1 l2 : list string) :
  l1 ⊆ l2 -> names_ok l2 = true -> names_ok l1 = true.
Proof.
  intros Hsub H. apply names_ok_spec in H as [Hne Hok]. apply names_ok_spec. split.
  - intros Hin. apply Hne, Hsub, Hin.
  - intros y Hy. apply Hok, Hsub, Hy.
Qed.




Lemma resolved_set_init (common : bool) : resolved_set init common = ∅.
Proof. by destruct common. Qed.

Lemma resolve_init (o : set_order) (common : bool) :
  resolve o init common = Ok ([], []).
Proof. by rewrite resolve_eq, resolved_set_init, iter_empty. Qed.

(** C9: with no source ingested, both policies resolve to two empty lists
    without an error, and either report is one header row without a column
    and no body row. *)
Theorem zero_sources (o : set_order) (common : bool) :
  ingest [] init = Ok init
  /\ resolve o init common = Ok ([], [])
  /\ write_tsv_basic o init common = Ok [[]]
  /\ write_tsv_advanced o init common = Ok [[]].
Proof.
  repeat split.
  - apply resolve_init.
  - unfold write_tsv_basic. by rewrite resolve_init.
  - unfold write_tsv_advanced. by rewrite resolve_init.
Qed.

(** C8 (amended): resolving raises exactly when the set being resolved holds
    the empty name or a name starting with D or M whose suffix [int]
    rejects, [IndexError] in the first case and [ValueError] otherwise; it
    returns when no name is empty and every such suffix is a non-negative
    integer literal. *)
Theorem resolve_aborts_iff (o : set_order) (self : etl) (common : bool) :
  ((exists e, resolve o self common = Raise e) <->
     ("" ∈ resolved_set self common) \/
     (exists y, y ∈ resolved_set self common /\ role_name y = true
                /\ Py.int_of_str (Py.tail y) = None))
  /\ (forall e, resolve o self common = Raise e ->
        e = if decide ("" ∈ resolved_set self common) then IndexError else ValueError)
  /\ (("" ∉ resolved_set self common) ->
      (forall y, y ∈ resolved_set self common -> role_name y = true ->
                 nat_literal (Py.tail y) = true) ->
      exists d m, resolve o self common = Ok (d, m)).
Proof.
  rewrite resolve_eq. split; [split|split].
  3:{ intros e He.
      destruct (names_ok (iter o (resolved_set self common))) eqn:E.
      - destruct (d_m_sorted_Ok _ E) as (d & m & H & _). congruence.
      - rewrite (d_m_sorted_Raise _ E) in He. inversion He as [He'].
        destruct (decide ("" ∈ iter o (resolved_set self common))) as [H1|H1],
                 (decide ("" ∈ resolved_set self common)) as [H2|H2];
          try reflexivity; exfalso;
          [apply H2; by apply (iter_elem o) | apply H1; by apply (iter_elem o)]. }
  - intros (e & He).
    destruct (names_ok (iter o (resolved_set self common))) eqn:E.
    + destruct (d_m_sorted_Ok _ E) as (d & m & H & _). congruence.
    + destruct (names_bad_spec _ E) as [H|(y & Hy & Hr & Hbad)].
      * left. by apply iter_elem in H.
      * right. exists y. apply iter_elem in Hy. repeat split; auto.
        unfold suffix_ok in Hbad. by destruct (Py.int_of_str (Py.tail y)).
  - intros H.
    assert (names_ok (iter o (resolved_set self common)) = false) as E.
    { apply not_true_iff_false. intros E. apply names_ok_spec in E as [Hne Hok].
      destruct H as [H|(y & Hy & Hr & Hbad)].
      - apply Hne. by apply iter_elem.
      - rewrite <- (iter_elem o) in Hy. specialize (Hok y Hy Hr).
        unfold suffix_ok in Hok. rewrite Hbad in Hok. discriminate. }
    rewrite (d_m_sorted_Raise _ E). eauto.
  - intros Hne Hlit.
    destruct (d_m_sorted_Ok (iter o (resolved_set self common))) as (d & m & H & _).
    + apply names_ok_spec. split.
      * by rewrite iter_elem.
      * intros y Hy Hr. apply iter_elem in Hy.
        destruct (nat_literal_int _ (Hlit y Hy Hr)) as (z & Hz & _).
        unfold suffix_ok. by rewrite Hz.
    + eauto.
Qed.

(** The columns D1 and M2 resolve. *)
Lemma resolve_aborts_iff_witness :
  exists d m, resolve elements_order two_columns false = Ok (d, m).
Proof.
  apply (proj2 (proj2 (resolve_aborts_iff elements_order two_columns false))).
  - simpl. intros H. apply elem_of_union in H as [H|H];
      apply elem_of_singleton in H; discriminate.
  - simpl. intros y H _. apply elem_of_union in H as [H|H];
      apply elem_of_singleton in H; subst; reflexivity.
Defined.

(** The name [D-1] resolves: [int] reads the suffix [-1], which is no
    non-negative integer literal. *)
Lemma resolve_negative_suffix :
  exists self,
    ingest [Csv "f.csv" [(1%nat, ["D-1"])]] init = Ok self
    /\ "D-1" ∈ resolved_set self false
    /\ role_name "D-1" = true
    /\ nat_literal (Py.tail "D-1") = false
    /\ resolve elements_order self false = Ok (["D-1"], []).
Proof.
  eexists. split; [reflexivity|]. repeat split; reflexivity.
Qed.

(** ** Reading does not look at what is already stored

    A call on a state [pre] adds to [pre] what it adds to the initial
    state. *)

Lemma foldM_frame {A S T : Type} (phi : S -> T) (f : S -> A -> res S)
    (g : T -> A -> res T) (l : list A) (s : S) :
  (forall s a, a ∈ l -> g (phi s) a = phi <$> f s a) ->
  foldM g l (phi s) = phi <$> foldM f l s.
Proof.
  revert s. induction l as [|a l IH]; intros s H; simpl; [reflexivity|].
  rewrite H by (by left). destruct (f s a) as [s'|e]; simpl; [|reflexivity].
  apply IH. intros. apply H. by right.
Qed.

Lemma etl_app_init_r (a : etl) : etl_app a init = a.
Proof.
  destruct a. unfold etl_app. simpl. rewrite !app_nil_r.
  by rewrite (right_id_L ∅ (∪)).
Qed.

Lemma csv_field_frame (path : string) (n : nat) (pre : list diag)
    (kvs : list (string * string)) (r : gmap string value) (out : list diag) :
  foldM (csv_field path n) kvs (r, pre ++ out)
  = (fun x => (x.1, pre ++ x.2)) <$> foldM (csv_field path n) kvs (r, out).
Proof.
  apply (foldM_frame (fun x => (x.1, pre ++ x.2)) _ _ kvs (r, out)).
  intros [r' o] [key val] _. unfold csv_field. simpl.
  destruct (Py.index0 key) as [c|e]; simpl; [|reflexivity].
  destruct (Ascii.eqb c "D"); [reflexivity|].
  destruct (Ascii.eqb c "M"); [|reflexivity].
  destruct (Py.int_of_str val); simpl; [reflexivity|]. by rewrite app_assoc.
Qed.

Lemma csv_record_frame (path : string) (pre : etl) (reader : list (nat * list string))
    (self : etl) (cols : option (list string)) :
  foldM (csv_record path) reader (etl_app pre self, cols)
  = (fun x => (etl_app pre x.1, x.2)) <$> foldM (csv_record path) reader (self, cols).
Proof.
  apply (foldM_frame (fun x => (etl_app pre x.1, x.2)) _ _ reader (self, cols)).
  intros [st c] [n row] _. unfold csv_record. simpl.
  destruct (not_columns c).
  - simpl. unfold etl_app. simpl. rewrite <- app_assoc. by rewrite (assoc_L (∪)).
  - rewrite csv_field_frame.
    destruct (foldM (csv_field path n) (zip (default [] c) row) (∅, stdout st))
      as [[r o]|e]; simpl; [|reflexivity].
    unfold etl_app. simpl. by rewrite <- app_assoc.
Qed.

Lemma read_csv_frame (path : string) (reader : list (nat * list string)) (pre self : etl) :
  read_csv path reader (etl_app pre self) = etl_app pre <$> read_csv path reader self.
Proof.
  unfold read_csv. rewrite csv_record_frame.
  by destruct (foldM (csv_record path) reader (self, None)) as [[st c]|e].
Qed.

Lemma json_item_frame (path : string) (field : list (string * value)) (pre : list diag)
    (kvs : list (string * value)) (r : gmap string value) (c : gset string)
    (out : list diag) :
  foldM (json_item path field) kvs (r, c, pre ++ out)
  = (fun x => (x.1, pre ++ x.2)) <$> foldM (json_item path field) kvs (r, c, out).
Proof.
  apply (foldM_frame (fun x => (x.1, pre ++ x.2)) _ _ kvs (r, c, out)).
  intros [[r' c'] o] [key val] _. unfold json_item. simpl.
  destruct (Py.index0 key) as [x|e]; simpl; [|reflexivity].
  destruct (Ascii.eqb x "M"); [|reflexivity].
  destruct (Py.int val) as [z|[]]; simpl; try reflexivity. by rewrite app_assoc.
Qed.

Lemma json_field_frame (path : string) (pre : etl) (fields : list (list (string * value)))
    (self : etl) (c : gset string) :
  foldM (json_field path) fields (etl_app pre self, c)
  = (fun x => (etl_app pre x.1, x.2)) <$> foldM (json_field path) fields (self, c).
Proof.
  apply (foldM_frame (fun x => (etl_app pre x.1, x.2)) _ _ fields (self, c)).
  intros [st c'] field _. unfold json_field. simpl.
  rewrite json_item_frame.
  destruct (foldM (json_item path field) field (∅, c', stdout st))
    as [[[r c''] o]|e]; simpl; [|reflexivity].
  unfold etl_app. simpl. rewrite <- app_assoc. by rewrite (assoc_L (∪)).
Qed.

Lemma read_json_frame (path : string) (fields : list (list (string * value)))
    (pre self : etl) :
  read_json path fields (etl_app pre self) = etl_app pre <$> read_json path fields self.
Proof.
  unfold read_json. rewrite json_field_frame.
  destruct (foldM (json_field path) fields (self, ∅)) as [[st c]|e]; simpl; [|reflexivity].
  unfold etl_app. simpl. by rewrite <- app_assoc.
Qed.

Lemma xml_child_frame (path column : string) (pre : list diag)
    (texts : list (option string)) (r : gmap string value) (out : list diag) :
  foldM (xml_child path column) texts (r, pre ++ out)
  = (fun x => (x.1, pre ++ x.2)) <$> foldM (xml_child path column) texts (r, out).
Proof.
  apply (foldM_frame (fun x => (x.1, pre ++ x.2)) _ _ texts (r, out)).
  intros [r' o] text _. unfold xml_child. simpl.
  destruct (Py.index0 column) as [x|e]; simpl; [|reflexivity].
  destruct (Ascii.eqb x "D"); [reflexivity|].
  destruct (Ascii.eqb x "M"); [|reflexivity].
  destruct (Py.int _) as [z|[]]; simpl; try reflexivity. by rewrite app_assoc.
Qed.

Lemma xml_obj_frame (path : string) (pre_cols : gset string) (pre : list diag)
    (objects : list xml_object) (cols : gset string) (r : gmap string value)
    (c : gset string) (out : list diag) :
  foldM (xml_obj path) objects (pre_cols ∪ cols, r, c, pre ++ out)
  = (fun x => (pre_cols ∪ x.1.1.1, x.1.1.2, x.1.2, pre ++ x.2))
      <$> foldM (xml_obj path) objects (cols, r, c, out).
Proof.
  apply (foldM_frame (fun x => (pre_cols ∪ x.1.1.1, x.1.1.2, x.1.2, pre ++ x.2))
           _ _ objects (cols, r, c, out)).
  intros [[[cols' r'] c'] o] obj _. unfold xml_obj. simpl.
  destruct (attrib_name obj) as [column|]; simpl; [|reflexivity].
  rewrite xml_child_frame.
  destruct (foldM (xml_child path column) (children obj) (r', o))
    as [[r'' o']|e]; simpl; [|reflexivity].
  by rewrite (assoc_L (∪)).
Qed.

Lemma read_xml_frame (path : string) (objects : list xml_object) (pre self : etl) :
  read_xml path objects (etl_app pre self) = etl_app pre <$> read_xml path objects self.
Proof.
  unfold read_xml. simpl. rewrite xml_obj_frame.
  destruct (foldM (xml_obj path) objects (columns self, ∅, ∅, stdout self))
    as [[[[cols r] c] o]|e]; simpl; [|reflexivity].
  unfold etl_app. simpl. by rewrite <- !app_assoc.
Qed.

Lemma read_frame (src : source) (pre self : etl) :
  read (etl_app pre self) src = etl_app pre <$> read self src.
Proof.
  destruct src; simpl;
    [apply read_csv_frame | apply read_json_frame | apply read_xml_frame].
Qed.

(** Every call appends to what is there. *)
Lemma read_init (src : source) (self : etl) :
  read self src = etl_app self <$> read init src.
Proof. by rewrite <- read_frame, etl_app_init_r. Qed.

(** ** What the readers keep true *)

Lemma add_subseteq (c S : gset string) (k : string) :
  c ⊆ S -> k ∈ S -> c ∪ {[k]} ⊆ S.
Proof.
  intros Hc Hk x [Hx|Hx]%elem_of_union; [by apply Hc|].
  apply elem_of_singleton in Hx. by subst.
Qed.

Lemma read_csv_sets_in_universe (path : string) (reader : list (nat * list string))
    (self self' : etl) :
  sets_in_universe self -> read_csv path reader self = Ok self' ->
  sets_in_universe self'.
Proof.
  unfold read_csv. intros H0 H. inv_bind H. destruct a as [st c].
  inversion H; subst; clear H.
  apply (foldM_invariant (fun x => sets_in_universe x.1) _ _ _ _ Ha); [exact H0|].
  intros [st0 c0] [n row] [st1 c1] _ Hst Hstep. unfold csv_record in Hstep.
  unfold sets_in_universe in *. simpl in *.
  destruct (not_columns c0).
  - inversion Hstep; subst; clear Hstep. simpl. apply Forall_app. split.
    + eapply Forall_impl; [exact Hst|]. intros s Hs. set_solver.
    + constructor; [|constructor]. set_solver.
  - inv_bind Hstep. destruct a as [r o]. inversion Hstep; subst. exact Hst.
Qed.

Lemma read_json_sets_in_universe (path : string) (fields : list (list (string * value)))
    (self self' : etl) :
  sets_in_universe self -> read_json path fields self = Ok self' ->
  sets_in_universe self'.
Proof.
  unfold read_json. intros H0 H. inv_bind H. destruct a as [st c].
  inversion H; subst; clear H.
  assert (sets_in_universe st /\ c ⊆ columns st) as [Hst Hc].
  { apply (foldM_invariant (fun x => sets_in_universe x.1 /\ x.2 ⊆ columns x.1)
             _ _ _ _ Ha); [split; [exact H0 | set_solver]|].
    clear. intros [st0 c0] field [st1 c1] _ [Hst Hc] Hstep.
    unfold json_field in Hstep. inv_bind Hstep. destruct a as [[r c'] o].
    inversion Hstep; subst; clear Hstep. simpl in *. split.
    - unfold sets_in_universe in *. simpl.
      eapply Forall_impl; [exact Hst|]. intros s Hs. set_solver.
    - apply (foldM_invariant
               (fun x => x.1.2 ⊆ columns st0 ∪ list_to_set (fst <$> field))
               _ _ _ _ Ha); [simpl; set_solver|].
      clear -Hc. intros [[r0 c0'] o0] [key val] [[r1 c1'] o1] Hin Hsub Hitem.
      unfold json_item in Hitem. simpl in *.
      assert (key ∈ (list_to_set (fst <$> field) : gset string)) as Hkey.
      { apply elem_of_list_to_set, list_elem_of_fmap. by exists (key, val). }
      inv_bind Hitem. destruct (Ascii.eqb a "M").
      + destruct (Py.int val) as [z|[]]; simplify_eq;
          apply add_subseteq; auto; apply elem_of_union; by right.
      + simplify_eq. apply add_subseteq; auto. apply elem_of_union. by right. }
  unfold sets_in_universe in *. simpl. apply Forall_app. split; [assumption|].
  constructor; [assumption | constructor].
Qed.

Lemma read_xml_sets_in_universe (path : string) (objects : list xml_object)
    (self self' : etl) :
  sets_in_universe self -> read_xml path objects self = Ok self' ->
  sets_in_universe self'.
Proof.
  unfold read_xml. intros H0 H. inv_bind H. destruct a as [[[cols r] c] o].
  inversion H; subst; clear H.
  assert (c ⊆ cols /\ columns self ⊆ cols) as [Hc Hcols].
  { apply (foldM_invariant (fun x => x.1.2 ⊆ x.1.1.1 /\ columns self ⊆ x.1.1.1)
             _ _ _ _ Ha); [simpl; set_solver|].
    clear. intros [[[cols0 r0] c0] o0] obj [[[cols1 r1] c1] o1] _ [Hc Hcols] Hstep.
    unfold xml_obj in Hstep. inv_bind Hstep. inv_bind Hstep. destruct a0 as [r' o'].
    simplify_eq. simpl in *. split.
    - apply add_subseteq; [|apply elem_of_union; right; by apply elem_of_singleton].
      intros x Hx. apply elem_of_union. left. by apply Hc.
    - intros x Hx. apply elem_of_union. left. by apply Hcols. }
  unfold sets_in_universe in *. simpl. apply Forall_app. split.
  - eapply Forall_impl; [exact H0|]. intros s Hs. set_solver.
  - constructor; [assumption | constructor].
Qed.

Lemma read_sets_in_universe (src : source) (self self' : etl) :
  sets_in_universe self -> read self src = Ok self' -> sets_in_universe self'.
Proof.
  destruct src; simpl;
    eauto using read_csv_sets_in_universe, read_json_sets_in_universe,
      read_xml_sets_in_universe.
Qed.

Lemma ingest_sets_in_universe (srcs : list source) (self self' : etl) :
  sets_in_universe self -> ingest srcs self = Ok self' -> sets_in_universe self'.
Proof.
  intros H0 H. apply (foldM_invariant sets_in_universe _ _ _ _ H); [exact H0|].
  intros s a s' _. apply read_sets_in_universe.
Qed.

Lemma intersection_in_universe (self : etl) (common : bool) :
  sets_in_universe self -> resolved_set self true ⊆ resolved_set self common.
Proof.
  intros H. destruct common; [reflexivity|]. simpl.
  destruct (common_columns self) as [|s0 rest] eqn:E; [set_solver|].
  unfold sets_in_universe in H. rewrite E in H. apply Forall_cons in H as [H0 _].
  intros x Hx. apply elem_of_intersection_all in Hx as [Hx _]. auto.
Qed.

(** C6: in every state that ingestion calls produce, when the union policy
    resolves, the intersection policy resolves too, and its dimension list
    and its measure list hold only names of the corresponding union list. *)
Theorem intersection_subset_union (o : set_order) (srcs : list source)
    (self : etl) (d' m' : list string) :
  ingest srcs init = Ok self ->
  resolve o self false = Ok (d', m') ->
  exists d m, resolve o self true = Ok (d, m) /\ d ⊆ d' /\ m ⊆ m'.
Proof.
  intros Hing Hu.
  assert (sets_in_universe self) as Hinv.
  { apply (ingest_sets_in_universe srcs init); [constructor | assumption]. }
  pose proof (intersection_in_universe self false Hinv) as Hsub.
  destruct (resolve_inv _ _ _ _ _ Hu) as (Hok & _).
  destruct (d_m_sorted_Ok (iter o (resolved_set self true))) as (d & m & Hi & _).
  { eapply names_ok_subset; [|exact Hok]. intros x. rewrite !iter_elem. apply Hsub. }
  rewrite <- resolve_eq in Hi. exists d, m. split; [assumption|]. split.
  - intros x Hx. apply (resolve_elem_d _ _ _ _ _ Hi) in Hx as [Hx Hd].
    apply (resolve_elem_d _ _ _ _ _ Hu). auto.
  - intros x Hx. apply (resolve_elem_m _ _ _ _ _ Hi) in Hx as [Hx Hd].
    apply (resolve_elem_m _ _ _ _ _ Hu). auto.
Qed.

Lemma row_DM_empty : row_DM ∅.
Proof. intros k [v Hv]. by rewrite lookup_empty in Hv. Qed.

Lemma row_DM_insert (row : gmap string value) (k : string) (v : value) :
  role_name k = true -> row_DM row -> row_DM (<[k := v]> row).
Proof.
  intros Hk Hrow k' Hk'. destruct (decide (k = k')) as [<-|Hne]; [assumption|].
  rewrite lookup_insert_ne in Hk' by assumption. auto.
Qed.

Lemma index0_role (key : string) (c : ascii) :
  Py.index0 key = Ok c ->
  (Ascii.eqb c "D" = true -> role_name key = true)
  /\ (Ascii.eqb c "M" = true -> role_name key = true).
Proof.
  destruct key as [|x key]; [discriminate|]. intros H. inversion H; subst.
  unfold role_name, is_dim, is_meas. simpl. split; intros ->; auto using orb_true_r.
Qed.

Lemma csv_field_row_DM (path : string) (n : nat) (kvs : list (string * string))
    (r r' : gmap string value) (o o' : list diag) :
  foldM (csv_field path n) kvs (r, o) = Ok (r', o') -> row_DM r -> row_DM r'.
Proof.
  intros H Hr.
  apply (foldM_invariant (fun x => row_DM x.1) _ _ _ _ H); [exact Hr|].
  clear. intros [r0 o0] [key val] [r1 o1] _ Hr0 Hstep. unfold csv_field in Hstep.
  inv_bind Hstep. destruct (index0_role _ _ Ha) as [HD HM]. simpl in *.
  destruct (Ascii.eqb a "D").
  - inversion Hstep; subst. apply row_DM_insert; auto.
  - destruct (Ascii.eqb a "M").
    + destruct (Py.int_of_str val); inversion Hstep; subst; [|assumption].
      apply row_DM_insert; auto.
    + by inversion Hstep; subst.
Qed.

Lemma read_csv_rows_DM (path : string) (reader : list (nat * list string))
    (self self' : etl) :
  Forall row_DM (rows self) -> read_csv path reader self = Ok self' ->
  Forall row_DM (rows self').
Proof.
  unfold read_csv. intros H0 H. inv_bind H. destruct a as [st c].
  inversion H; subst; clear H.
  apply (foldM_invariant (fun x => Forall row_DM (rows x.1)) _ _ _ _ Ha); [exact H0|].
  clear. intros [st0 c0] [n row] [st1 c1] _ Hst Hstep. unfold csv_record in Hstep.
  simpl in *. destruct (not_columns c0).
  - by inversion Hstep; subst.
  - inv_bind Hstep. destruct a as [r o]. inversion Hstep; subst. simpl.
    apply Forall_app. split; [assumption|]. constructor; [|constructor].
    eapply csv_field_row_DM; [exact Ha | apply row_DM_empty].
Qed.

Lemma xml_child_row_DM (path column : string) (texts : list (option string))
    (r r' : gmap string value) (o o' : list diag) :
  foldM (xml_child path column) texts (r, o) = Ok (r', o') -> row_DM r -> row_DM r'.
Proof.
  intros H Hr.
  apply (foldM_invariant (fun x => row_DM x.1) _ _ _ _ H); [exact Hr|].
  clear. intros [r0 o0] text [r1 o1] _ Hr0 Hstep. unfold xml_child in Hstep.
  inv_bind Hstep. destruct (index0_role _ _ Ha) as [HD HM]. simpl in *.
  destruct (Ascii.eqb a "D").
  - inversion Hstep; subst. apply row_DM_insert; auto.
  - destruct (Ascii.eqb a "M").
    + destruct (Py.int _) as [z|[]]; inversion Hstep; subst; [|assumption].
      apply row_DM_insert; auto.
    + by inversion Hstep; subst.
Qed.

Lemma read_xml_rows_DM (path : string) (objects : list xml_object) (self self' : etl) :
  Forall row_DM (rows self) -> read_xml path objects self = Ok self' ->
  Forall row_DM (rows self').
Proof.
  unfold read_xml. intros H0 H. inv_bind H. destruct a as [[[cols r] c] o].
  inversion H; subst; clear H. simpl.
  apply Forall_app. split; [assumption|]. constructor; [|constructor].
  apply (foldM_invariant (fun x => row_DM x.1.1.2) _ _ _ _ Ha); [apply row_DM_empty|].
  clear. intros [[[cols0 r0] c0] o0] obj [[[cols1 r1] c1] o1] _ Hr Hstep.
  unfold xml_obj in Hstep. inv_bind Hstep. inv_bind Hstep. destruct a0 as [r' o'].
  inversion Hstep; subst. simpl in *. eapply xml_child_row_DM; eauto.
Qed.

(** C2 (amended): after any sequence of [read_csv] and [read_xml] calls no
    stored row holds a column whose name starts with neither D nor M, and
    after any sequence of calls at all the lists resolved under either policy
    hold only names that start with D or M. *)
Theorem only_D_M_stored (o : set_order) (srcs : list source) (self : etl) :
  ingest srcs init = Ok self ->
  (forallb (fun src => negb (is_json src)) srcs = true ->
   forall row k, row ∈ rows self -> is_Some (row !! k) -> role_name k = true)
  /\ (forall common d m, resolve o self common = Ok (d, m) ->
      (forall x, x ∈ d -> is_dim x = true) /\ (forall x, x ∈ m -> is_meas x = true)).
Proof.
  intros Hing. split.
  - intros Hsrc row k Hrow. revert k. change (row_DM row). revert row Hrow.
    apply Forall_forall.
    apply (foldM_invariant (fun st => Forall row_DM (rows st)) _ _ _ _ Hing);
      [constructor|].
    intros st src st' Hin Hst Hread.
    rewrite forallb_forall in Hsrc. apply list_elem_of_In, Hsrc in Hin.
    destruct src; simpl in *;
      [eapply read_csv_rows_DM | discriminate | eapply read_xml_rows_DM]; eauto.
  - intros common d m H. split; intros x Hx.
    + by apply (resolve_elem_d _ _ _ _ _ H) in Hx as [_ ?].
    + by apply (resolve_elem_m _ _ _ _ _ H) in Hx as [_ ?].
Qed.

(** A csv header names a column that starts with neither D nor M: the name
    is in [columns]. *)
Lemma ignored_name_in_columns :
  exists self,
    ingest [Csv "f.csv" [(1%nat, ["D1"; "X1"])]] init = Ok self
    /\ "X1" ∈ columns self /\ role_name "X1" = false.
Proof. eexists. repeat split; reflexivity. Qed.

(** ** The readers on concrete sources *)

(** C1: at the json field [{"M1": "3"}] the text ["3"] parses as the integer
    3, yet [read_json] stores the text: line 100 overwrites what line 99
    stored. *)
Theorem read_json_keeps_raw_text :
  Py.int (VStr "3") = Ok 3
  /\ exists self row,
       read_json "f.json" [[("M1", VStr "3")]] init = Ok self
       /\ rows self = [row]
       /\ row !! "M1" = Some (VStr "3").
Proof. split; [reflexivity|]. eexists _, _. repeat split; reflexivity. Qed.

(** The same field read from a csv source is stored as the integer. *)
Lemma read_csv_stores_integer :
  exists self row,
    read_csv "f.csv" [(1%nat, ["M1"]); (2%nat, ["3"])] init = Ok self
    /\ rows self = [row]
    /\ row !! "M1" = Some (VInt 3).
Proof. eexists _, _. repeat split; reflexivity. Qed.

Lemma resolve_D1_M1_M2 (o : set_order) (self : etl) :
  columns self = {["D1"; "M1"; "M2"]} ->
  resolve o self false = Ok (["D1"], ["M1"; "M2"]).
Proof.
  intros Hcols.
  assert (iter o (columns self) ≡ₚ ["M1"; "M2"; "D1"]) as Hp.
  { rewrite (iter_perm o), Hcols. by vm_compute. }
  destruct (d_m_sorted_Ok (iter o (resolved_set self false)))
    as (d & m & H & Hd & Hm & _ & Hsm).
  { apply names_ok_spec. simpl. split.
    - rewrite Hp. intros Hin. by repeat (apply elem_of_cons in Hin as [Hin|Hin];
        [discriminate|]); inversion Hin.
    - intros y. rewrite Hp. intros Hin _.
      repeat (apply elem_of_cons in Hin as [->|Hin]; [reflexivity|]). inversion Hin. }
  rewrite resolve_eq, H. simpl in Hd, Hm. rewrite Hp in Hd, Hm.
  apply Permutation_singleton_r in Hd as ->.
  change (m ≡ₚ ["M1"; "M2"]) in Hm. symmetry in Hm.
  apply Permutation_length_2_inv in Hm as [->| ->]; [reflexivity|].
  apply StronglySorted_inv in Hsm as [_ Hsm]. apply Forall_cons in Hsm as [Hsm _].
  unfold suffix_le in Hsm. vm_compute in Hsm. by destruct Hsm.
Qed.

(** C4: a csv source with header D1,M1,M2 and the data rows (a,3,5) and
    (b,x,2), where [int] rejects [x]: one diagnostic for the value [x] in
    column M1 of the third line; the rows [{D1:a, M1:3, M2:5}] and
    [{D1:b, M2:2}]; the Basic report over all columns with the body
    [a 3 5], [b - 2]; the Advanced report over all columns with the header
    [D1 MS1 MS2] and the lines [a 3 5], [b 0 2]. *)
Theorem scenario_reports (o : set_order) (path x : string) :
  Py.int_of_str x = None ->
  exists self,
    read_csv path [(1%nat, ["D1"; "M1"; "M2"]); (2%nat, ["a"; "3"; "5"]);
                   (3%nat, ["b"; x; "2"])] init = Ok self
    /\ stdout self = [IncorrectCsv x path "M1" 3]
    /\ rows self = [ {[ "D1" := VStr "a"; "M1" := VInt 3; "M2" := VInt 5 ]};
                     {[ "D1" := VStr "b"; "M2" := VInt 2 ]} ]
    /\ report_text <$> write_tsv_basic o self false
       = Ok [["D1"; "M1"; "M2"]; ["a"; "3"; "5"]; ["b"; "-"; "2"]]
    /\ report_text <$> write_tsv_advanced o self false
       = Ok [["D1"; "MS1"; "MS2"]; ["a"; "3"; "5"]; ["b"; "0"; "2"]].
Proof.
  intros Hx.
  exists {| rows := [ {[ "D1" := VStr "a"; "M1" := VInt 3; "M2" := VInt 5 ]};
                      {[ "D1" := VStr "b"; "M2" := VInt 2 ]} ];
            columns := {["D1"; "M1"; "M2"]};
            common_columns := [ {["D1"; "M1"; "M2"]} ];
            stdout := [IncorrectCsv x path "M1" 3] |}.
  split.
  { unfold read_csv. simpl. rewrite Hx. reflexivity. }
  split; [reflexivity|]. split; [reflexivity|]. split.
  - unfold write_tsv_basic. rewrite resolve_D1_M1_M2 by reflexivity. by vm_compute.
  - unfold write_tsv_advanced. rewrite resolve_D1_M1_M2 by reflexivity. by vm_compute.
Qed.

(** ** One xml document *)

Lemma last_or_app {A : Type} (l1 l2 : list A) (d : option A) :
  from_option Some d (last (l1 ++ l2))
  = from_option Some (from_option Some d (last l1)) (last l2).
Proof.
  rewrite last_app. destruct (last l2); [reflexivity|]. reflexivity.
Qed.

Lemma last_or_cons {A : Type} (x : A) (l : list A) (d : option A) :
  from_option Some d (last (x :: l)) = from_option Some (Some x) (last l).
Proof. apply (last_or_app [x] l d). Qed.

Lemma xml_child_lookup (path column : string) (texts : list (option string))
    (r r' : gmap string value) (o o' : list diag) :
  foldM (xml_child path column) texts (r, o) = Ok (r', o') ->
  forall k, r' !! k
            = if decide (k = column)
              then from_option Some (r !! k) (last (child_values column texts))
              else r !! k.
Proof.
  revert r o. induction texts as [|t texts IH]; intros r o H k.
  - inversion H; subst. unfold child_values.
    destruct (decide (k = column)); [|reflexivity].
    by destruct (is_dim column), (is_meas column).
  - simpl in H. inv_bind H. destruct a as [r1 o1].
    rewrite (IH _ _ H k). destruct (decide (k = column)) as [->|Hne].
    + unfold xml_child in Ha. inv_bind Ha.
      assert (column <> "") as Hcol by (intros ->; discriminate).
      destruct (index0_starts "D" column Hcol) as (x & Hx & HD).
      destruct (index0_starts "M" column Hcol) as (x' & Hx' & HM).
      assert (x' = x) as -> by congruence. assert (a = x) as -> by congruence.
      unfold child_values. fold (is_dim column) in HD. fold (is_meas column) in HM.
      rewrite HD in Ha. rewrite HM in Ha.
      destruct (is_dim column).
      * inversion Ha; subst. rewrite fmap_cons, last_or_cons.
        by rewrite lookup_insert_eq.
      * destruct (is_meas column); [|by inversion Ha; subst].
        destruct t as [s|]; simpl in Ha; [|discriminate].
        simpl. destruct (Py.int_of_str s) as [z|]; simpl.
        -- inversion Ha; subst. rewrite last_or_cons.
           by rewrite lookup_insert_eq.
        -- by inversion Ha; subst.
    + unfold xml_child in Ha. inv_bind Ha.
      destruct (Ascii.eqb a "D").
      * inversion Ha; subst. by rewrite lookup_insert_ne.
      * destruct (Ascii.eqb a "M"); [|by inversion Ha; subst].
        destruct (Py.int (text_value t)) as [z|[]] eqn:E;
          fold (text_value t) in Ha; rewrite ?E in Ha; inversion Ha; subst;
          try reflexivity.
        by rewrite lookup_insert_ne.
Qed.

Lemma xml_names_cons (obj : xml_object) (objects : list xml_object) (column : string) :
  attrib_name obj = Some column ->
  xml_names (obj :: objects) = {[column]} ∪ xml_names objects.
Proof. unfold xml_names. simpl. by intros ->. Qed.

Lemma xml_obj_fold (path : string) (objects : list xml_object)
    (cols0 cols : gset string) (r0 r : gmap string value) (c0 c : gset string)
    (o0 o : list diag) :
  foldM (xml_obj path) objects (cols0, r0, c0, o0) = Ok (cols, r, c, o) ->
  cols = cols0 ∪ xml_names objects
  /\ c = c0 ∪ xml_names objects
  /\ forall k, r !! k = from_option Some (r0 !! k) (last (xml_values objects k)).
Proof.
  revert cols0 r0 c0 o0. induction objects as [|obj objects IH];
    intros cols0 r0 c0 o0 H.
  - inversion H; subst. unfold xml_names. simpl. by rewrite !(right_id_L ∅ (∪)).
  - simpl in H. inv_bind H. destruct a as [[[cols1 r1] c1] o1].
    unfold xml_obj in Ha. inv_bind Ha. inv_bind Ha. destruct a0 as [r' o'].
    inversion Ha; subst; clear Ha.
    destruct (attrib_name obj) as [column|] eqn:Hname; [|discriminate].
    inversion Ha0; subst; clear Ha0.
    destruct (IH _ _ _ _ H) as (-> & -> & Hr).
    rewrite (xml_names_cons _ _ _ Hname), !(assoc_L (∪)).
    split; [reflexivity|]. split; [reflexivity|].
    intros k. rewrite Hr. simpl. rewrite last_or_app. f_equal.
    rewrite (xml_child_lookup _ _ _ _ _ _ _ Ha1 k).
    destruct (decide (k = a)) as [->|Hne].
    + by rewrite decide_True.
    + rewrite decide_False by congruence. reflexivity.
Qed.

Lemma xml_child_total (path column : string) (texts : list (option string))
    (r : gmap string value) (o : list diag) :
  column <> "" ->
  (is_meas column = true -> forall t, t ∈ texts -> is_Some t) ->
  exists x, foldM (xml_child path column) texts (r, o) = Ok x.
Proof.
  intros Hcol Hm.
  destruct (foldM_total (fun _ => True) (xml_child path column) texts (r, o))
    as (x & Hx & _); [|exact I|eauto].
  intros [r0 o0] t Ht _. unfold xml_child.
  destruct (index0_starts "M" column Hcol) as (x & -> & HM). simpl.
  destruct (Ascii.eqb x "D"); [eauto|]. rewrite HM.
  fold (is_meas column). destruct (is_meas column) eqn:E; [|eauto].
  destruct (Hm eq_refl t Ht) as [s ->]. simpl.
  destruct (Py.int_of_str s); eauto.
Qed.

Lemma xml_obj_total (path : string) (obj : xml_object)
    (acc : gset string * gmap string value * gset string * list diag) :
  xml_ok obj = true -> exists x, xml_obj path acc obj = Ok x.
Proof.
  destruct acc as [[[cols r] c] o]. unfold xml_ok, xml_obj.
  destruct (attrib_name obj) as [column|]; [|discriminate]. simpl.
  destruct (children obj) as [|t texts] eqn:E; [eauto|].
  intros H. apply andb_prop in H as [Hne Hm].
  destruct (xml_child_total path column (t :: texts) r o) as ([r' o'] & Hx).
  - apply negb_true_iff, String.eqb_neq in Hne. exact Hne.
  - intros Hmeas. rewrite Hmeas in Hm. cbn [negb orb] in Hm.
    rewrite forallb_forall in Hm. intros x Hx.
    apply list_elem_of_In, Hm in Hx. by apply bool_decide_eq_true in Hx.
  - rewrite Hx. simpl. eauto.
Qed.

Lemma xml_obj_bad (path : string) (obj : xml_object)
    (acc : gset string * gmap string value * gset string * list diag) :
  xml_ok obj = false -> exists e, xml_obj path acc obj = Raise e.
Proof.
  destruct acc as [[[cols r] c] o]. unfold xml_ok, xml_obj.
  destruct (attrib_name obj) as [column|]; [|eauto]. simpl.
  destruct (children obj) as [|t texts]; [discriminate|].
  intros H. destruct (String.eqb_spec column "") as [->|Hne]; [simpl; eauto|].
  cbn [negb andb] in H. apply orb_false_elim in H as [Hm H].
  apply negb_false_iff in Hm.
  assert (None ∈ t :: texts) as Hin.
  { apply not_true_iff_false in H. rewrite forallb_forall in H.
    destruct (decide (None ∈ t :: texts)) as [?|Hno]; [assumption|].
    exfalso. apply H. intros [s|] Hs; [by apply bool_decide_eq_true|].
    by apply list_elem_of_In in Hs. }
  assert (exists e, foldM (xml_child path column) (t :: texts) (r, o) = Raise e)
    as (e & ->); [|simpl; eauto].
  clear H. revert r o. induction (t :: texts) as [|t' texts' IH]; intros r o;
    [inversion Hin|].
  destruct (index0_starts "D" column Hne) as (x & Hx & HD).
  destruct (index0_starts "M" column Hne) as (x' & Hx' & HM).
  assert (x' = x) as -> by congruence.
  fold (is_dim column) in HD. fold (is_meas column) in HM.
  rewrite (is_dim_false_of_meas _ Hm) in HD. rewrite Hm in HM.
  apply elem_of_cons in Hin as [<-|Hin].
  - simpl. unfold xml_child. rewrite Hx. simpl. rewrite HD, HM. simpl. eauto.
  - cbn [foldM]. destruct (xml_child path column (r, o) t') as [[r1 o1]|e];
      [|by eexists].
    apply (IH Hin r1 o1).
Qed.

Lemma foldM_Raise {A S : Type} (f : S -> A -> res S) (l : list A) (s : S) :
  (exists a, a ∈ l /\ forall s, exists e, f s a = Raise e) ->
  exists e, foldM f l s = Raise e.
Proof.
  intros (a & Ha & Hf). revert s. induction l as [|b l IH]; intros s; [inversion Ha|].
  simpl. apply elem_of_cons in Ha as [<-|Ha].
  - destruct (Hf s) as (e & ->). simpl. eauto.
  - destruct (f s b) as [s'|e]; simpl; [auto | eauto].
Qed.

(** C10 (amended): a [read_xml] call returns exactly when every object has
    a name that, if the object has children, is not empty and, for an M
    object, every child has text.  It then appends one row and one source
    column set, the names of all objects, and the row holds for each name
    the last value that the children of the objects of that name store: the
    text of a child of a D object, the integer of a child of an M object
    whose text [int] accepts. *)
Theorem read_xml_one_row (path : string) (objects : list xml_object) (self : etl) :
  (forallb xml_ok objects = true <-> exists self', read_xml path objects self = Ok self')
  /\ (forall self', read_xml path objects self = Ok self' ->
      exists row,
        rows self' = rows self ++ [row]
        /\ common_columns self' = common_columns self ++ [xml_names objects]
        /\ columns self' = columns self ∪ xml_names objects
        /\ forall k, row !! k = last (xml_values objects k)).
Proof.
  split; [split|].
  - intros Hok. unfold read_xml.
    destruct (foldM_total (fun _ => True) (xml_obj path) objects
                (columns self, ∅, ∅, stdout self)) as ([[[cols r] c] o] & -> & _);
      [|exact I|simpl; eauto].
    intros acc obj Hobj _. rewrite forallb_forall in Hok.
    apply list_elem_of_In, Hok in Hobj.
    destruct (xml_obj_total path obj acc Hobj) as (x & Hx). eauto.
  - intros (self' & H). destruct (forallb xml_ok objects) eqn:E; [reflexivity|].
    exfalso. unfold read_xml in H.
    destruct (foldM_Raise (xml_obj path) objects (columns self, ∅, ∅, stdout self))
      as (e & He); [|rewrite He in H; discriminate].
    apply not_true_iff_false in E. rewrite forallb_forall in E.
    destruct (decide (Forall (fun obj => xml_ok obj = true) objects)) as [Hall|Hnall].
    + exfalso. apply E. intros obj Hobj. rewrite Forall_forall in Hall.
      by apply Hall, list_elem_of_In.
    + apply not_Forall_Exists in Hnall; [|apply _].
      apply Exists_exists in Hnall as (obj & Hobj & Hbad).
      exists obj. split; [assumption|]. intros acc.
      apply xml_obj_bad. by apply not_true_iff_false.
  - intros self' H. unfold read_xml in H. inv_bind H.
    destruct a as [[[cols r] c] o]. inversion H; subst; clear H. simpl.
    destruct (xml_obj_fold _ _ _ _ _ _ _ _ _ _ Ha) as (-> & -> & Hr).
    exists r. repeat split.
    + by rewrite (left_id_L ∅ (∪)).
    + intros k. rewrite Hr, lookup_empty. by destruct (last (xml_values objects k)).
Qed.

(** An M object with the children [3] and [x]: the row keeps the integer of
    the first child; the text of the last child is not stored. *)
Lemma read_xml_last_child_rejected :
  exists self row,
    read_xml "f.xml" [XmlObject (Some "M1") [Some "3"; Some "x"]] init = Ok self
    /\ rows self = [row]
    /\ row !! "M1" = Some (VInt 3).
Proof. eexists _, _. repeat split; reflexivity. Qed.

(** ** Dicts *)

Section DictFacts.
Context {K V : Type} `{EqDecision K}.
Implicit Types (d : list (K * V)) (k : K) (v : V).

Lemma dict_get_set k k' v d :
  Dict.get k' (Dict.set k v d) = if decide (k' = k) then Some v else Dict.get k' d.
Proof.
  induction d as [|[k0 v0] d IH]; simpl.
  - destruct (decide (k' = k)); reflexivity.
  - destruct (decide (k = k0)) as [->|Hne]; simpl.
    + destruct (decide (k' = k0)); reflexivity.
    + destruct (decide (k' = k0)) as [->|Hne'].
      * by rewrite decide_False by congruence.
      * exact IH.
Qed.

Lemma dict_get_keys k d : is_Some (Dict.get k d) <-> k ∈ Dict.keys d.
Proof.
  unfold Dict.keys. induction d as [|[k0 v0] d IH]; simpl.
  - split; [by intros [? ?] | by intros ?%elem_of_nil].
  - rewrite elem_of_cons. destruct (decide (k = k0)) as [->|Hne].
    + split; eauto.
    + rewrite IH. tauto.
Qed.

Lemma dict_keys_set k v d :
  Dict.keys (Dict.set k v d)
  = if decide (k ∈ Dict.keys d) then Dict.keys d else Dict.keys d ++ [k].
Proof.
  unfold Dict.keys. induction d as [|[k0 v0] d IH].
  - simpl. destruct (decide (k ∈ [])) as [Hin|_]; [by apply elem_of_nil in Hin|].
    reflexivity.
  - cbn [Dict.set]. destruct (decide (k = k0)) as [->|Hne].
    + rewrite !fmap_cons. cbn [fst]. rewrite decide_True by (by left). reflexivity.
    + rewrite !fmap_cons, IH. cbn [fst].
      destruct (decide (k ∈ d.*1)) as [Hin|Hnin].
      * rewrite decide_True by (by right). reflexivity.
      * rewrite decide_False; [reflexivity|].
        intros [?|?]%elem_of_cons; contradiction.
Qed.

Lemma dict_keys_set_NoDup k v d : NoDup (Dict.keys d) -> NoDup (Dict.keys (Dict.set k v d)).
Proof.
  intros H. rewrite dict_keys_set. destruct (decide (k ∈ Dict.keys d)); [assumption|].
  apply NoDup_app. repeat split; [assumption | | apply NoDup_singleton].
  intros x Hx ->%list_elem_of_singleton. contradiction.
Qed.

Lemma dict_set_set k v v' d : Dict.set k v (Dict.set k v' d) = Dict.set k v d.
Proof.
  induction d as [|[k0 v0] d IH]; simpl.
  - by rewrite decide_True.
  - destruct (decide (k = k0)) as [->|Hne]; simpl.
    + by rewrite decide_True.
    + rewrite decide_False by assumption. by rewrite IH.
Qed.
End DictFacts.

(** ** The aggregation *)

Lemma add_ints (acc : list Z) (vals : list value) :
  List.length acc = List.length vals ->
  mapM (fun x => Py.add x.1 x.2) (zip (VInt <$> acc) vals)
  = if forallb is_VInt vals
    then Ok (VInt <$> zip_with Z.add acc (int_of <$> vals))
    else Raise TypeError.
Proof.
  revert vals. induction acc as [|a acc IH]; intros [|v vals] Hlen;
    try discriminate; [reflexivity|].
  simpl in Hlen. injection Hlen as Hlen. specialize (IH vals Hlen).
  cbn [fmap list_fmap zip zip_with mapM forallb]. fold (fmap VInt acc).
  fold (zip (VInt <$> acc) vals). change (mapM _ (zip _ vals)) with
    (mapM (fun x : value * value => Py.add x.1 x.2) (zip (VInt <$> acc) vals)).
  rewrite IH. destruct v as [s|z|]; simpl; try reflexivity.
  destruct (forallb is_VInt vals); reflexivity.
Qed.

Lemma sum_Z_app (l1 l2 : list Z) : sum_Z (l1 ++ l2) = sum_Z l1 + sum_Z l2.
Proof. unfold sum_Z. induction l1 as [|x l1 IH]; simpl; lia. Qed.


Lemma group_sums_length rs d m k : List.length (group_sums rs d m k) = List.length m.
Proof. unfold group_sums. by rewrite length_fmap. Qed.

Lemma group_sums_notin rs d m k :
  k ∉ group_key d <$> rs -> group_sums rs d m k = (fun _ => 0) <$> m.
Proof.
  intros Hk. unfold group_sums, group_rows.
  assert (filter (fun row => group_key d row = k) rs = []) as ->; [|reflexivity].
  induction rs as [|row rs IH]; [reflexivity|].
  rewrite fmap_cons in Hk. apply not_elem_of_cons in Hk as [Hne Hk].
  rewrite filter_cons_False by congruence. auto.
Qed.

Lemma group_sums_snoc rs d m row k :
  group_sums (rs ++ [row]) d m k
  = if decide (group_key d row = k)
    then zip_with Z.add (group_sums rs d m k) (int_of <$> measure_vals m row)
    else group_sums rs d m k.
Proof.
  unfold group_sums, group_rows, measure_vals. rewrite filter_app.
  destruct (decide (group_key d row = k)) as [Hk|Hk].
  - rewrite filter_cons, decide_True, filter_nil by exact Hk.
    induction m as [|c m IH]; [reflexivity|].
    rewrite !fmap_cons. cbn [zip_with]. rewrite IH. f_equal.
    rewrite fmap_app, sum_Z_app. unfold sum_Z. simpl. lia.
  - rewrite filter_cons, decide_False, filter_nil by exact Hk. by rewrite app_nil_r.
Qed.

Lemma advanced_step_eq d m done data row :
  aggregated d m done data ->
  advanced_step d m data row
  = if ints_row m row
    then Ok (Dict.set (group_key d row)
               (VInt <$> zip_with Z.add (group_sums done d m (group_key d row))
                           (int_of <$> measure_vals m row)) data)
    else Raise TypeError.
Proof.
  intros [Hnd Hget]. unfold advanced_step, Dict.setdefault, ints_row.
  rewrite (Hget (group_key d row)).
  assert (List.length (group_sums done d m (group_key d row))
          = List.length (measure_vals m row)) as Hlen.
  { unfold measure_vals. by rewrite group_sums_length, length_fmap. }
  destruct (decide (group_key d row ∈ group_key d <$> done)) as [Hin|Hnin].
  - rewrite (add_ints _ _ Hlen).
    destruct (forallb is_VInt (measure_vals m row)); reflexivity.
  - assert ((fun _ : string => VInt 0) <$> m
            = VInt <$> group_sums done d m (group_key d row)) as ->.
    { rewrite (group_sums_notin _ _ _ _ Hnin), <- list_fmap_compose. reflexivity. }
    rewrite (add_ints _ _ Hlen).
    destruct (forallb is_VInt (measure_vals m row)); [|reflexivity].
    simpl. by rewrite dict_set_set.
Qed.

Lemma aggregated_nil d m : aggregated d m [] [].
Proof.
  split; [constructor|]. intros k. simpl.
  destruct (decide (k ∈ [])) as [Hin|_]; [by apply elem_of_nil in Hin | reflexivity].
Qed.

Lemma aggregated_step d m done data row :
  aggregated d m done data ->
  aggregated d m (done ++ [row])
    (Dict.set (group_key d row)
       (VInt <$> zip_with Z.add (group_sums done d m (group_key d row))
                   (int_of <$> measure_vals m row)) data).
Proof.
  intros [Hnd Hget]. split; [by apply dict_keys_set_NoDup|].
  intros k. rewrite dict_get_set, group_sums_snoc, fmap_app.
  destruct (decide (k = group_key d row)) as [->|Hne].
  - rewrite decide_True by (apply elem_of_app; right; by left).
    by rewrite decide_True.
  - rewrite (decide_False (P := group_key d row = k)) by congruence.
    rewrite Hget. destruct (decide (k ∈ group_key d <$> done)) as [Hin|Hnin].
    + rewrite decide_True by (apply elem_of_app; by left). reflexivity.
    + rewrite decide_False; [reflexivity|].
      intros [?|Hk%list_elem_of_singleton]%elem_of_app; [contradiction|].
      simpl in Hk. congruence.
Qed.

Lemma advanced_fold d m rs done data :
  aggregated d m done data ->
  if forallb (ints_row m) rs
  then exists data', foldM (advanced_step d m) rs data = Ok data'
                     /\ aggregated d m (done ++ rs) data'
  else foldM (advanced_step d m) rs data = Raise TypeError.
Proof.
  revert done data. induction rs as [|row rs IH]; intros done data Hagg.
  - simpl. exists data. by rewrite app_nil_r.
  - cbn [forallb foldM]. rewrite (advanced_step_eq _ _ _ _ _ Hagg).
    destruct (ints_row m row); [|reflexivity]. cbn [andb].
    specialize (IH _ _ (aggregated_step d m done data row Hagg)).
    rewrite <- app_assoc in IH. exact IH.
Qed.

(** The aggregation returns when every measure of every row is an integer,
    and then holds the sums of each group; otherwise it raises
    [TypeError]. *)
Lemma get_data_advanced_spec rs d m :
  if forallb (ints_row m) rs
  then exists data, get_data_advanced rs d m = Ok data /\ aggregated d m rs data
  else get_data_advanced rs d m = Raise TypeError.
Proof. apply (advanced_fold d m rs [] [] (aggregated_nil d m)). Qed.




(** ** The order of the ingestion calls *)














(** ** The Basic report *)

Lemma key_D1_text (row : gmap string value) :
  has_D1_text row = true -> key_D1 row = Ok (VStr (D1_text row)).
Proof.
  unfold has_D1_text, key_D1, D1_text.
  destruct (row !! "D1") as [[s|z|]|]; try discriminate. reflexivity.
Qed.

(** C3 (amended): when the columns resolve and every row has a text under
    the name D1, the Basic report is the header followed by the rows in an
    order in which no row comes after a row with a greater D1 text, texts
    being compared character by character. *)
Theorem basic_sorted_by_D1 (o : set_order) (self : etl) (common : bool)
    (d m : list string) :
  resolve o self common = Ok (d, m) ->
  forallb has_D1_text (rows self) = true ->
  exists sorted_rows,
    write_tsv_basic o self common
    = Ok ((VStr <$> d ++ m) :: (basic_line (d ++ m) <$> sorted_rows))
    /\ sorted_rows ≡ₚ rows self
    /\ StronglySorted (fun r1 r2 => Py.str_lt (D1_text r2) (D1_text r1) = false)
         sorted_rows.
Proof.
  intros Hres HD1. unfold write_tsv_basic. rewrite Hres. simpl.
  destruct (sorted_spec key_D1 Py.lt VStr D1_text Py.str_lt) with (l := rows self)
    as (r & -> & Hp & Hs).
  - reflexivity.
  - apply str_lt_asym.
  - apply str_le_trans.
  - intros row Hrow. apply key_D1_text. rewrite forallb_forall in HD1.
    by apply HD1, list_elem_of_In.
  - simpl. exists r. repeat split; assumption.
Qed.

(** With the columns D0 and D1 the first resolved dimension column is D0,
    and the body, sorted by D1, has the D0 text [b] before [a]. *)
Lemma basic_not_sorted_by_first_dimension :
  exists self,
    ingest [Csv "f.csv" [(1%nat, ["D0"; "D1"]); (2%nat, ["b"; "a"]);
                         (3%nat, ["a"; "b"])]] init = Ok self
    /\ resolve elements_order self false = Ok (["D0"; "D1"], [])
    /\ Forall (fun row => is_Some (row !! "D0")) (rows self)
    /\ write_tsv_basic elements_order self false
       = Ok [[VStr "D0"; VStr "D1"]; [VStr "b"; VStr "a"]; [VStr "a"; VStr "b"]]
    /\ Py.str_lt "a" "b" = true.
Proof.
  eexists. split; [reflexivity|]. split; [by vm_compute|]. split.
  - repeat constructor; eexists; reflexivity.
  - split; by vm_compute.
Qed.

(** Without a column named D1 there is no Basic report at all. *)
Lemma basic_without_D1 :
  exists self,
    ingest [Csv "f.csv" [(1%nat, ["D2"]); (2%nat, ["a"])]] init = Ok self
    /\ write_tsv_basic elements_order self false = Raise KeyError.
Proof. eexists. split; [reflexivity | by vm_compute]. Qed.

(** ** The Advanced report *)

Lemma key_values_text (k : list value) :
  Forall (fun v => is_VStr v = true) k -> key_values (key_text k) = k.
Proof.
  unfold key_values, key_text. induction 1 as [|v k Hv _ IH]; [reflexivity|].
  rewrite !fmap_cons, IH. destruct v; try discriminate. reflexivity.
Qed.

Lemma typed_rows_spec (rs : list (gmap string value)) :
  typed_rows rs = true -> cells_typed rs.
Proof.
  unfold typed_rows, typed_row. rewrite forallb_forall.
  intros H row c v Hrow Hc. apply list_elem_of_In, H in Hrow.
  rewrite forallb_forall in Hrow.
  apply elem_of_map_to_list, list_elem_of_In, Hrow in Hc.
  unfold typed_cell in Hc. simpl in Hc. apply andb_prop in Hc as [H1 H2].
  split; intros Hr; rewrite Hr in *; assumption.
Qed.

Lemma typed_group_key (rs : list (gmap string value)) (d : list string)
    (row : gmap string value) :
  cells_typed rs -> (forall x, x ∈ d -> is_dim x = true) -> row ∈ rs ->
  Forall (fun v => is_VStr v = true) (group_key d row).
Proof.
  intros Ht Hd Hrow. unfold group_key. apply Forall_fmap, Forall_forall.
  intros c Hc. simpl. unfold row_get. destruct (row !! c) as [v|] eqn:E; [|reflexivity].
  simpl. apply (Ht row c v Hrow E). auto.
Qed.

Lemma typed_ints_row (rs : list (gmap string value)) (m : list string)
    (row : gmap string value) :
  cells_typed rs -> (forall x, x ∈ m -> is_meas x = true) -> row ∈ rs ->
  ints_row m row = true.
Proof.
  intros Ht Hm Hrow. unfold ints_row, measure_vals. apply forallb_forall.
  intros v Hv. apply list_elem_of_In, list_elem_of_fmap in Hv as (c & -> & Hc).
  unfold row_get. destruct (row !! c) as [v|] eqn:E; [|reflexivity].
  simpl. apply (Ht row c v Hrow E). auto.
Qed.

Lemma rename_sum_meas (v : string) : is_meas v = true -> rename_sum v = Ok (sum_name v).
Proof. destruct v as [|c v]; [discriminate | reflexivity]. Qed.

Lemma strictly_sorted_texts (r : list (list value)) :
  (forall a, a ∈ r -> key_values (key_text a) = a) ->
  NoDup r ->
  StronglySorted (key_le key_text strs_lt) r ->
  StronglySorted (fun a b => strs_lt a b = true) (key_text <$> r).
Proof.
  intros Htext Hnd Hs. induction Hs as [|a r Hs IH Ha]; [constructor|].
  apply NoDup_cons in Hnd as [Hnin Hnd]. rewrite fmap_cons. constructor.
  - apply IH; [|assumption]. intros b Hb. apply Htext. by right.
  - apply Forall_fmap, Forall_forall. intros b Hb. simpl.
    rewrite Forall_forall in Ha. specialize (Ha b Hb). unfold key_le in Ha.
    destruct (strs_lt (key_text a) (key_text b)) eqn:E; [reflexivity|].
    exfalso. apply Hnin.
    assert (key_text a = key_text b) as Heq.
    { destruct (decide (key_text a = key_text b)) as [?|Hne]; [assumption|].
      apply strs_lt_total in E; [congruence | assumption]. }
    rewrite <- (Htext a) by (by left). rewrite Heq, Htext by (by right). exact Hb.
Qed.

Lemma strictly_sorted_NoDup (ks : list (list string)) :
  StronglySorted (fun a b => strs_lt a b = true) ks -> NoDup ks.
Proof.
  induction 1 as [|a ks Hs IH Ha]; constructor; [|assumption].
  intros Hin. rewrite Forall_forall in Ha. specialize (Ha a Hin).
  pose proof (strs_lt_asym a a Ha). congruence.
Qed.

(** On rows typed as the data model has them the Advanced report is
    written, the keys being tuples of texts in strictly ascending order. *)
Lemma advanced_typed_written (o : set_order) (self : etl) (common : bool)
    (d m : list string) :
  resolve o self common = Ok (d, m) ->
  typed_rows (rows self) = true ->
  exists ks : list (list string),
    write_tsv_advanced o self common
    = Ok ((VStr <$> d ++ (sum_name <$> m))
            :: ((fun k => key_values k
                          ++ (VInt <$> group_sums (rows self) d m (key_values k)))
                  <$> ks))
    /\ StronglySorted (fun a b => strs_lt a b = true) ks
    /\ NoDup ks
    /\ forall key, key ∈ group_key d <$> rows self
                   <-> exists k, k ∈ ks /\ key = key_values k.
Proof.
  intros Hres Htyped. apply typed_rows_spec in Htyped.
  assert (forall x, x ∈ d -> is_dim x = true) as Hd.
  { intros x Hx. by apply (resolve_elem_d _ _ _ _ _ Hres) in Hx as [_ ?]. }
  assert (forall x, x ∈ m -> is_meas x = true) as Hm.
  { intros x Hx. by apply (resolve_elem_m _ _ _ _ _ Hres) in Hx as [_ ?]. }
  unfold write_tsv_advanced. rewrite Hres. cbn [mbind res_bind].
  rewrite (mapM_Ok_pure rename_sum sum_name)
    by (intros a Ha; apply rename_sum_meas; auto).
  cbn [mbind res_bind].
  pose proof (get_data_advanced_spec (rows self) d m) as Hdata.
  assert (forallb (ints_row m) (rows self) = true) as Hints.
  { apply forallb_forall. intros row Hrow.
    eapply typed_ints_row; eauto. by apply list_elem_of_In. }
  rewrite Hints in Hdata. destruct Hdata as (data & -> & Hnd & Hget).
  cbn [mbind res_bind].
  assert (forall a, a ∈ Dict.keys data <-> a ∈ group_key d <$> rows self) as Hkeys.
  { intros a. rewrite <- dict_get_keys, Hget.
    destruct (decide (a ∈ group_key d <$> rows self)); split; try tauto; eauto.
    by intros [? ?]. }
  assert (forall a, a ∈ Dict.keys data -> key_values (key_text a) = a) as Htext.
  { intros a Ha. apply key_values_text.
    apply Hkeys, list_elem_of_fmap in Ha as (row & -> & Hrow).
    eapply typed_group_key; eauto. }
  destruct (sorted_spec tuple_key Py.tuple_lt key_values key_text strs_lt)
    with (l := Dict.keys data) as (r & -> & Hp & Hs).
  - apply tuple_lt_strs.
  - apply strs_lt_asym.
  - apply strs_le_trans.
  - intros a Ha. unfold tuple_key. by rewrite Htext.
  - cbn [mbind res_bind].
    rewrite (mapM_Ok_pure _
               (fun key => key ++ (VInt <$> group_sums (rows self) d m key))).
    2:{ intros a Ha. rewrite Hp in Ha. unfold Dict.getitem. rewrite Hget.
        rewrite decide_True by (by apply Hkeys). reflexivity. }
    cbn [mbind res_bind].
    assert (StronglySorted (fun a b => strs_lt a b = true) (key_text <$> r)) as Hss.
    { apply strictly_sorted_texts; [| by rewrite Hp | exact Hs].
      intros a Ha. apply Htext. by rewrite <- Hp. }
    exists (key_text <$> r). repeat split.
    + do 2 f_equal. rewrite <- list_fmap_compose. apply list_fmap_ext.
      intros _ a Ha%list_elem_of_lookup_2. simpl.
      rewrite Htext by (by rewrite <- Hp). reflexivity.
    + exact Hss.
    + by apply strictly_sorted_NoDup.
    + intros Hkey. exists (key_text key). split.
      * apply list_elem_of_fmap. exists key. split; [reflexivity|].
        rewrite Hp. by apply Hkeys.
      * symmetry. apply Htext. by apply Hkeys.
    + intros (k & Hk & ->). apply list_elem_of_fmap in Hk as (a & -> & Ha).
      rewrite Htext by (by rewrite <- Hp). apply Hkeys. by rewrite <- Hp.
Qed.

Lemma strictly_ascending (r : list (list value)) :
  NoDup r ->
  Sorted (ascends Py.tuple_lt id) r ->
  Sorted (fun a b => Py.tuple_lt a b = Ok true) r.
Proof.
  intros Hnd Hs. induction Hs as [|a r Hs IH Ha]; [constructor|].
  apply NoDup_cons in Hnd as [Hnin Hnd]. constructor; [auto|].
  destruct Ha as [|b r Hab]; constructor.
  apply tuple_lt_total; [|exact Hab]. intros ->. apply Hnin. by left.
Qed.

(** Whatever the rows hold, an Advanced report that is written has the
    header and one line for each Group Key of the rows and no other, each
    key smaller than the next in Python's order on tuples, each line the key
    followed by the sums of its group. *)
Lemma advanced_written_inv (o : set_order) (self : etl) (common : bool)
    (report : list (list value)) :
  write_tsv_advanced o self common = Ok report ->
  exists d m keys,
    resolve o self common = Ok (d, m)
    /\ report
       = (VStr <$> d ++ (sum_name <$> m))
           :: ((fun key => key ++ (VInt <$> group_sums (rows self) d m key)) <$> keys)
    /\ NoDup keys
    /\ (forall key, key ∈ keys <-> key ∈ group_key d <$> rows self)
    /\ Sorted (fun a b => Py.tuple_lt a b = Ok true) keys.
Proof.
  unfold write_tsv_advanced. intros H. inv_bind H. destruct a as [d m].
  assert (forall x, x ∈ m -> is_meas x = true) as Hm.
  { intros x Hx. by apply (resolve_elem_m _ _ _ _ _ Ha) in Hx as [_ ?]. }
  rewrite (mapM_Ok_pure rename_sum sum_name) in H
    by (intros x Hx; apply rename_sum_meas; auto).
  cbn [mbind res_bind] in H.
  pose proof (get_data_advanced_spec (rows self) d m) as Hdata.
  destruct (forallb (ints_row m) (rows self));
    [|rewrite Hdata in H; discriminate].
  destruct Hdata as (data & Hd & Hnd & Hget). rewrite Hd in H.
  cbn [mbind res_bind] in H. inv_bind H.
  destruct (sorted_Ok Py.tuple_lt id tuple_lt_asym tuple_key _ _ (fun _ => eq_refl) Ha0)
    as [Hp Hs].
  assert (forall key, key ∈ a <-> key ∈ group_key d <$> rows self) as Hkeys.
  { intros key. rewrite Hp, <- dict_get_keys, Hget.
    destruct (decide (key ∈ group_key d <$> rows self)); split; try tauto; eauto.
    by intros [? ?]. }
  rewrite (mapM_Ok_pure _
             (fun key => key ++ (VInt <$> group_sums (rows self) d m key))) in H.
  2:{ intros key Hkey. unfold Dict.getitem. rewrite Hget.
      rewrite decide_True by (by apply Hkeys). reflexivity. }
  cbn [mbind res_bind] in H. inversion H; subst; clear H.
  exists d, m, a. split; [exact Ha|]. split; [reflexivity|].
  split; [by rewrite Hp|]. split; [exact Hkeys|].
  apply strictly_ascending; [by rewrite Hp | exact Hs].
Qed.

Lemma group_key_spec (d : list string) (row : gmap string value) :
  group_key d row = spec_group_key d row.
Proof.
  unfold group_key, spec_group_key, row_get. apply list_fmap_ext.
  intros i c _. by destruct (row !! c).
Qed.

Lemma group_sums_spec (rs : list (gmap string value)) (d m : list string)
    (k : list value) :
  group_sums rs d m k = spec_group_value rs d m k.
Proof.
  unfold group_sums, spec_group_value, group_rows. apply list_fmap_ext.
  intros i c _. f_equal.
  rewrite (list_filter_iff (fun row => group_key d row = k)
             (fun row => spec_group_key d row = k))
    by (intros row; by rewrite group_key_spec).
  apply list_fmap_ext. intros j row _. unfold row_get.
  by destruct (row !! c) as [[]|].
Qed.









(** ** The theorems at concrete inputs *)

(** Two csv sources: every stored column starts with D or M. *)
Lemma only_D_M_stored_witness :
  ingest [source_a; source_b] init = Ok (run [source_a; source_b])
  /\ forall row k, row ∈ rows (run [source_a; source_b]) ->
                   is_Some (row !! k) -> role_name k = true.
Proof.
  split; [reflexivity|].
  apply (only_D_M_stored elements_order [source_a; source_b]
           (run [source_a; source_b])); reflexivity.
Defined.

(** The Basic report of the scenario. *)
Lemma basic_sorted_by_D1_witness :
  resolve elements_order (run [scenario]) false = Ok (["D1"], ["M1"; "M2"])
  /\ forallb has_D1_text (rows (run [scenario])) = true
  /\ exists sorted_rows,
       write_tsv_basic elements_order (run [scenario]) false
       = Ok ((VStr <$> ["D1"] ++ ["M1"; "M2"])
               :: (basic_line (["D1"] ++ ["M1"; "M2"]) <$> sorted_rows))
       /\ sorted_rows ≡ₚ rows (run [scenario])
       /\ StronglySorted (fun r1 r2 => Py.str_lt (D1_text r2) (D1_text r1) = false)
            sorted_rows.
Proof.
  split; [by vm_compute|]. split; [by vm_compute|].
  apply (basic_sorted_by_D1 elements_order (run [scenario]) false); by vm_compute.
Defined.

(** The scenario with the text [x] for the rejected value. *)
Lemma scenario_reports_witness :
  Py.int_of_str "x" = None
  /\ exists self,
       read_csv "t.csv" [(1%nat, ["D1"; "M1"; "M2"]); (2%nat, ["a"; "3"; "5"]);
                         (3%nat, ["b"; "x"; "2"])] init = Ok self
       /\ stdout self = [IncorrectCsv "x" "t.csv" "M1" 3]
       /\ rows self = [ {[ "D1" := VStr "a"; "M1" := VInt 3; "M2" := VInt 5 ]};
                        {[ "D1" := VStr "b"; "M2" := VInt 2 ]} ]
       /\ report_text <$> write_tsv_basic elements_order self false
          = Ok [["D1"; "M1"; "M2"]; ["a"; "3"; "5"]; ["b"; "-"; "2"]]
       /\ report_text <$> write_tsv_advanced elements_order self false
          = Ok [["D1"; "MS1"; "MS2"]; ["a"; "3"; "5"]; ["b"; "0"; "2"]].
Proof.
  split; [reflexivity|].
  apply (scenario_reports elements_order "t.csv" "x"). reflexivity.
Defined.

(** Two csv sources, one with the extra column D2. *)
Lemma intersection_subset_union_witness :
  ingest [source_a; source_b] init = Ok (run [source_a; source_b])
  /\ resolve elements_order (run [source_a; source_b]) false
     = Ok (["D1"; "D2"], ["M1"])
  /\ exists d m,
       resolve elements_order (run [source_a; source_b]) true = Ok (d, m)
       /\ d ⊆ ["D1"; "D2"] /\ m ⊆ ["M1"].
Proof.
  split; [reflexivity|]. split; [by vm_compute|].
  apply (intersection_subset_union elements_order [source_a; source_b]);
    by vm_compute.
Defined.


(** A document of two objects is read. *)
Lemma read_xml_one_row_witness :
  forallb xml_ok two_objects = true
  /\ exists self', read_xml "f.xml" two_objects init = Ok self'.
Proof.
  split; [reflexivity|].
  apply (proj1 (read_xml_one_row "f.xml" two_objects init)). reflexivity.
Defined.


(** * Further properties of the code *)

(** ** Ingestion only appends *)

Lemma ingest_init (srcs : list source) (self : etl) :
  ingest srcs self = etl_app self <$> ingest srcs init.
Proof.
  revert self. induction srcs as [|src srcs IH]; intros self.
  - simpl. by rewrite etl_app_init_r.
  - unfold ingest. cbn [foldM]. rewrite (read_init src self).
    destruct (read init src) as [d|e]; [|reflexivity].
    cbn [fmap res_fmap mbind res_bind]. fold (ingest srcs (etl_app self d)).
    fold (ingest srcs d). rewrite (IH (etl_app self d)), (IH d).
    destruct (ingest srcs init) as [d'|e]; [|reflexivity].
    cbn [fmap res_fmap]. f_equal. unfold etl_app. simpl.
    rewrite <- !app_assoc. by rewrite (assoc_L (∪)).
Qed.

(** X1: what a sequence of ingestion calls adds does not depend on what the
    object already holds, and nothing stored is changed or removed: the
    rows, the source column sets and the printed lines of the state before
    are a prefix of those after, the columns a subset. *)
Theorem ingest_only_appends (srcs : list source) (self self' : etl) :
  ingest srcs self = Ok self' ->
  (exists added, ingest srcs init = Ok added /\ self' = etl_app self added)
  /\ rows self `prefix_of` rows self'
  /\ common_columns self `prefix_of` common_columns self'
  /\ stdout self `prefix_of` stdout self'
  /\ columns self ⊆ columns self'.
Proof.
  rewrite ingest_init. destruct (ingest srcs init) as [d|e]; [|discriminate].
  intros H. inversion H; subst; clear H. split; [eauto|].
  unfold etl_app. simpl. repeat split; try (by eexists).
  intros x Hx. apply elem_of_union. by left.
Qed.

(** ** The resolved lists *)

Lemma resolved_set_policy (self : etl) (common : bool) (x : string) :
  x ∈ resolved_set self common <-> in_policy self common x.
Proof.
  unfold resolved_set, in_policy. destruct common; [|reflexivity].
  destruct (common_columns self) as [|s0 rest].
  - split; [by intros ?%elem_of_empty | by intros [? _]].
  - rewrite elem_of_intersection_all. split.
    + intros [H0 Hr]. split; [done|]. intros s [->|Hs]%elem_of_cons; auto.
    + intros [_ H]. split; [apply H; by left|]. intros s Hs. apply H. by right.
Qed.

Lemma resolved_NoDup (o : set_order) (self : etl) (common : bool) (d m : list string) :
  resolve o self common = Ok (d, m) -> NoDup d /\ NoDup m.
Proof.
  intros H. apply resolve_inv in H as (_ & Hd & Hm & _).
  assert (NoDup (iter o (resolved_set self common))) as Hnd
    by (rewrite (iter_perm o); apply NoDup_elements).
  split; [rewrite Hd | rewrite Hm]; by apply NoDup_filter.
Qed.

(** X2: the lists that a policy resolves hold exactly the names of the
    policy that start with D, respectively with M, each once, in ascending
    order of the number after the first character. *)
Theorem resolved_lists_exact (o : set_order) (self : etl) (common : bool)
    (d m : list string) :
  resolve o self common = Ok (d, m) ->
  (forall x, x ∈ d <-> in_policy self common x /\ is_dim x = true)
  /\ (forall x, x ∈ m <-> in_policy self common x /\ is_meas x = true)
  /\ NoDup d /\ NoDup m
  /\ StronglySorted suffix_le d /\ StronglySorted suffix_le m.
Proof.
  intros H. split; [|split].
  - intros x. rewrite (resolve_elem_d _ _ _ _ _ H). by rewrite resolved_set_policy.
  - intros x. rewrite (resolve_elem_m _ _ _ _ _ H). by rewrite resolved_set_policy.
  - destruct (resolved_NoDup _ _ _ _ _ H) as [Hd Hm].
    apply resolve_inv in H as (_ & _ & _ & Hsd & Hsm). auto.
Qed.

(** ** The column universe *)

Lemma universe_is_union_snoc (self : etl) (s : gset string) (rs : list (gmap string value))
    (out : list diag) :
  universe_is_union self ->
  universe_is_union {| rows := rs; columns := columns self ∪ s;
                       common_columns := common_columns self ++ [s];
                       stdout := out |}.
Proof.
  intros H x. simpl. rewrite elem_of_union, (H x). split.
  - intros [(s' & Hs' & Hx)|Hx].
    + exists s'. split; [|done]. apply elem_of_app. by left.
    + exists s. split; [|done]. apply elem_of_app. right. by left.
  - intros (s' & [Hs'|Hs']%elem_of_app & Hx).
    + left. eauto.
    + apply list_elem_of_singleton in Hs'. subst. by right.
Qed.

Lemma read_csv_universe (path : string) (reader : list (nat * list string))
    (self self' : etl) :
  universe_is_union self -> read_csv path reader self = Ok self' ->
  universe_is_union self'.
Proof.
  unfold read_csv. intros H0 H. inv_bind H. destruct a as [st c].
  inversion H; subst; clear H.
  apply (foldM_invariant (fun x => universe_is_union x.1) _ _ _ _ Ha); [exact H0|].
  clear. intros [st0 c0] [n row] [st1 c1] _ Hst Hstep. unfold csv_record in Hstep.
  simpl in *. destruct (not_columns c0).
  - inversion Hstep; subst; clear Hstep. simpl. by apply universe_is_union_snoc.
  - inv_bind Hstep. destruct a as [r o]. inversion Hstep; subst. exact Hst.
Qed.

Lemma json_item_common (path : string) (field kvs : list (string * value))
    (r r' : gmap string value) (c c' : gset string) (o o' : list diag) :
  foldM (json_item path field) kvs (r, c, o) = Ok (r', c', o') ->
  c' = c ∪ list_to_set (fst <$> kvs).
Proof.
  revert r c o. induction kvs as [|[key val] kvs IH]; intros r c o H.
  - inversion H; subst. simpl. by rewrite (right_id_L ∅ (∪)).
  - cbn [foldM] in H. inv_bind H. destruct a as [[r1 c1] o1].
    rewrite (IH _ _ _ H). unfold json_item in Ha. inv_bind Ha.
    assert (c1 = c ∪ {[key]}) as ->.
    { destruct (Ascii.eqb a "M"); [|by inversion Ha].
      destruct (Py.int val) as [z|[]]; by inversion Ha. }
    rewrite fmap_cons, list_to_set_cons. by rewrite (assoc_L (∪)).
Qed.

Lemma read_json_universe (path : string) (fields : list (list (string * value)))
    (self self' : etl) :
  universe_is_union self -> read_json path fields self = Ok self' ->
  universe_is_union self'.
Proof.
  unfold read_json. intros H0 H. inv_bind H. destruct a as [st c].
  inversion H; subst; clear H.
  assert (forall x, x ∈ columns st
                    <-> (exists s, s ∈ common_columns st /\ x ∈ s) \/ x ∈ c) as Hst.
  { apply (foldM_invariant
             (fun y => forall x, x ∈ columns y.1
                         <-> (exists s, s ∈ common_columns y.1 /\ x ∈ s) \/ x ∈ y.2)
             _ _ _ _ Ha).
    - intros x. simpl. rewrite (H0 x), elem_of_empty. tauto.
    - clear. intros [st0 c0] field [st1 c1] _ Hst Hstep.
      unfold json_field in Hstep. inv_bind Hstep. destruct a as [[r c'] o].
      inversion Hstep; subst; clear Hstep. simpl in *.
      rewrite (json_item_common _ _ _ _ _ _ _ _ _ Ha). intros x.
      rewrite !elem_of_union, (Hst x). tauto. }
  intros x. simpl. rewrite (Hst x). split.
  - intros [(s & Hs & Hx)|Hx].
    + exists s. split; [|done]. apply elem_of_app. by left.
    + exists c. split; [|done]. apply elem_of_app. right. by left.
  - intros (s & [Hs|Hs]%elem_of_app & Hx); [left; eauto|].
    apply list_elem_of_singleton in Hs. subst. by right.
Qed.

Lemma read_xml_universe (path : string) (objects : list xml_object) (self self' : etl) :
  universe_is_union self -> read_xml path objects self = Ok self' ->
  universe_is_union self'.
Proof.
  unfold read_xml. intros H0 H. inv_bind H. destruct a as [[[cols r] c] o].
  inversion H; subst; clear H.
  destruct (xml_obj_fold _ _ _ _ _ _ _ _ _ _ Ha) as (-> & -> & _).
  rewrite (left_id_L ∅ (∪)). by apply universe_is_union_snoc.
Qed.

(** X3: in every state that ingestion calls produce on a new object, the
    column universe is the union of the recorded source column sets: a name
    is in [columns] exactly when some source carries it. *)
Theorem universe_is_union_of_sources (srcs : list source) (self : etl) :
  ingest srcs init = Ok self ->
  forall x, x ∈ columns self <-> exists s, s ∈ common_columns self /\ x ∈ s.
Proof.
  intros H. apply (foldM_invariant universe_is_union _ _ _ _ H).
  - intros x. simpl. rewrite elem_of_empty. split; [done|].
    by intros (s & Hs%elem_of_nil & _).
  - intros st src st' _ Hst Hread.
    destruct src; simpl in Hread;
      eauto using read_csv_universe, read_json_universe, read_xml_universe.
Qed.

(** ** One csv source *)

Lemma index0_roles (key : string) :
  key <> "" ->
  exists c, Py.index0 key = Ok c /\ Ascii.eqb c "D" = is_dim key
            /\ Ascii.eqb c "M" = is_meas key.
Proof. destruct key as [|c key]; [done|]. intros _. exists c. auto. Qed.

Lemma csv_field_eq (path : string) (n : nat) (r : gmap string value) (o : list diag)
    (key val : string) :
  key <> "" ->
  csv_field path n (r, o) (key, val)
  = Ok (match csv_store key val with Some v => <[key := v]> r | None => r end,
        o ++ csv_diags path n [(key, val)]).
Proof.
  intros Hkey. destruct (index0_roles key Hkey) as (c & Hc & HD & HM).
  unfold csv_field, csv_store, csv_diags. rewrite Hc.
  cbn [mbind res_bind omap list_omap fst snd].
  rewrite HD, HM. destruct (is_dim key) eqn:Ed.
  - rewrite (is_dim_not_meas _ Ed). cbn [andb]. by rewrite app_nil_r.
  - destruct (is_meas key); cbn [andb]; [|by rewrite app_nil_r].
    destruct (Py.int_of_str val) as [z|].
    + rewrite bool_decide_eq_false_2 by done. by rewrite app_nil_r.
    + rewrite bool_decide_eq_true_2 by done. reflexivity.
Qed.

Lemma csv_field_fold (path : string) (n : nat) (kvs : list (string * string))
    (r : gmap string value) (o : list diag) :
  forallb (fun kv => negb (String.eqb kv.1 "")) kvs = true ->
  exists r', foldM (csv_field path n) kvs (r, o) = Ok (r', o ++ csv_diags path n kvs)
             /\ forall k, r' !! k = from_option Some (r !! k) (last (csv_values kvs k)).
Proof.
  revert r o. induction kvs as [|[key val] kvs IH]; intros r o Hok.
  - exists r. simpl. by rewrite app_nil_r.
  - cbn [forallb] in Hok. apply andb_prop in Hok as [Hkey Hok].
    apply negb_true_iff, String.eqb_neq in Hkey. simpl in Hkey.
    cbn [foldM]. rewrite (csv_field_eq _ _ _ _ _ _ Hkey). cbn [mbind res_bind].
    destruct (IH (match csv_store key val with Some v => <[key := v]> r | None => r end)
                (o ++ csv_diags path n [(key, val)]) Hok) as (r' & -> & Hr').
    exists r'. split.
    + rewrite <- app_assoc. do 2 f_equal. unfold csv_diags.
      change ((key, val) :: kvs) with ([(key, val)] ++ kvs). by rewrite omap_app.
    + intros k. rewrite Hr'. unfold csv_values. cbn [omap list_omap fst snd].
      fold (csv_values kvs k).
      destruct (decide (key = k)) as [->|Hne].
      * destruct (csv_store k val) as [v|].
        -- by rewrite last_or_cons, lookup_insert_eq.
        -- reflexivity.
      * destruct (csv_store key val) as [v|]; [|reflexivity].
        by rewrite lookup_insert_ne.
Qed.

Lemma csv_field_fold_empty (path : string) (n : nat) (kvs : list (string * string))
    (r : gmap string value) (o : list diag) :
  forallb (fun kv => negb (String.eqb kv.1 "")) kvs = false ->
  foldM (csv_field path n) kvs (r, o) = Raise IndexError.
Proof.
  revert r o. induction kvs as [|[key val] kvs IH]; intros r o Hbad; [discriminate|].
  cbn [forallb] in Hbad. cbn [foldM]. simpl in Hbad.
  destruct (String.eqb_spec key "") as [->|Hkey].
  - reflexivity.
  - rewrite (csv_field_eq _ _ _ _ _ _ Hkey). cbn [mbind res_bind]. by apply IH.
Qed.

Lemma csv_record_data (path : string) (hdr : list string) (st : etl) (n : nat)
    (row : list string) :
  hdr <> [] ->
  csv_record path (st, Some hdr) (n, row)
  = '(new_row, out) ← foldM (csv_field path n) (zip hdr row) (∅, stdout st);
    Ok ({| rows := rows st ++ [new_row]; columns := columns st;
           common_columns := common_columns st; stdout := out |}, Some hdr).
Proof. destruct hdr; [done | reflexivity]. Qed.

Lemma csv_records_fold (path : string) (hdr : list string)
    (recs : list (nat * list string)) (st : etl) :
  hdr <> [] ->
  forallb (csv_rec_ok hdr) recs = true ->
  exists new_rows,
    foldM (csv_record path) recs (st, Some hdr)
    = Ok ({| rows := rows st ++ new_rows;
             columns := columns st;
             common_columns := common_columns st;
             stdout := stdout st ++ csv_all_diags path hdr recs |}, Some hdr)
    /\ Forall2 (csv_row_of hdr) recs new_rows.
Proof.
  intros Hhdr. revert st. induction recs as [|[n row] recs IH]; intros st Hok.
  - exists []. split; [|constructor]. destruct st. simpl.
    by rewrite !app_nil_r.
  - cbn [forallb] in Hok. apply andb_prop in Hok as [Hrec Hok].
    cbn [foldM]. rewrite (csv_record_data _ _ _ _ _ Hhdr).
    destruct (csv_field_fold path n (zip hdr row) ∅ (stdout st) Hrec)
      as (r & -> & Hr).
    cbn [mbind res_bind].
    destruct (IH {| rows := rows st ++ [r]; columns := columns st;
                    common_columns := common_columns st;
                    stdout := stdout st ++ csv_diags path n (zip hdr row) |} Hok)
      as (new_rows & -> & Hrows).
    exists (r :: new_rows). split.
    + simpl. rewrite <- !app_assoc. reflexivity.
    + constructor; [|assumption]. intros k. rewrite Hr, lookup_empty.
      by destruct (last _).
Qed.

Lemma csv_records_fold_bad (path : string) (hdr : list string)
    (recs : list (nat * list string)) (st : etl) :
  hdr <> [] ->
  forallb (csv_rec_ok hdr) recs = false ->
  foldM (csv_record path) recs (st, Some hdr) = Raise IndexError.
Proof.
  intros Hhdr. revert st. induction recs as [|[n row] recs IH]; intros st Hbad;
    [discriminate|].
  cbn [forallb] in Hbad. cbn [foldM]. rewrite (csv_record_data _ _ _ _ _ Hhdr).
  destruct (csv_rec_ok hdr (n, row)) eqn:Hrec.
  - destruct (csv_field_fold path n (zip hdr row) ∅ (stdout st) Hrec)
      as (r & -> & Hr).
    cbn [mbind res_bind]. by apply IH.
  - by rewrite (csv_field_fold_empty _ _ _ _ _ Hrec).
Qed.

Lemma read_csv_header (path : string) (n0 : nat) (hdr : list string)
    (recs : list (nat * list string)) (self : etl) :
  read_csv path ((n0, hdr) :: recs) self
  = '(self', _) ← foldM (csv_record path) recs
                     ({| rows := rows self;
                         columns := columns self ∪ list_to_set hdr;
                         common_columns := common_columns self ++ [list_to_set hdr];
                         stdout := stdout self |}, Some hdr);
    Ok self'.
Proof. reflexivity. Qed.

(** X4: a csv source that starts with a header of at least one name is read
    through exactly when no field of a data record stands under an empty
    header name, and raises [IndexError] otherwise.  When it is read, the
    header names are added to [columns], the header is recorded as one
    source column set, and one row is appended for each data record. *)
Theorem read_csv_shape (path : string) (n0 : nat) (hdr : list string)
    (recs : list (nat * list string)) (self : etl) :
  hdr <> [] ->
  (forallb (csv_rec_ok hdr) recs = false ->
   read_csv path ((n0, hdr) :: recs) self = Raise IndexError)
  /\ (forallb (csv_rec_ok hdr) recs = true ->
      exists self',
        read_csv path ((n0, hdr) :: recs) self = Ok self'
        /\ columns self' = columns self ∪ list_to_set hdr
        /\ common_columns self' = common_columns self ++ [list_to_set hdr]
        /\ List.length (rows self') = (List.length (rows self) + List.length recs)%nat).
Proof.
  intros Hhdr. rewrite read_csv_header. split; intros Hok.
  - by rewrite (csv_records_fold_bad path hdr recs _ Hhdr Hok).
  - destruct (csv_records_fold path hdr recs
                {| rows := rows self;
                   columns := columns self ∪ list_to_set hdr;
                   common_columns := common_columns self ++ [list_to_set hdr];
                   stdout := stdout self |} Hhdr Hok) as (new_rows & -> & Hrows).
    eexists. split; [reflexivity|]. simpl. repeat split.
    rewrite length_app. f_equal. symmetry. by eapply Forall2_length.
Qed.

Lemma read_csv_inv (path : string) (n0 : nat) (hdr : list string)
    (recs : list (nat * list string)) (self self' : etl) :
  hdr <> [] ->
  read_csv path ((n0, hdr) :: recs) self = Ok self' ->
  exists new_rows,
    self' = {| rows := rows self ++ new_rows;
               columns := columns self ∪ list_to_set hdr;
               common_columns := common_columns self ++ [list_to_set hdr];
               stdout := stdout self ++ csv_all_diags path hdr recs |}
    /\ Forall2 (csv_row_of hdr) recs new_rows.
Proof.
  intros Hhdr. rewrite read_csv_header. intros H.
  destruct (forallb (csv_rec_ok hdr) recs) eqn:Hok.
  - destruct (csv_records_fold path hdr recs
                {| rows := rows self;
                   columns := columns self ∪ list_to_set hdr;
                   common_columns := common_columns self ++ [list_to_set hdr];
                   stdout := stdout self |} Hhdr Hok) as (new_rows & Hf & Hrows).
    rewrite Hf in H. inversion H; subst. eauto.
  - rewrite (csv_records_fold_bad path hdr recs _ Hhdr Hok) in H. discriminate.
Qed.

Lemma csv_values_notin (hdr row : list string) (k : string) :
  k ∉ hdr -> csv_values (zip hdr row) k = [].
Proof.
  revert row. induction hdr as [|h hdr IH]; intros [|v row] Hk; try reflexivity.
  apply not_elem_of_cons in Hk as [Hne Hk]. unfold csv_values.
  cbn [zip zip_with omap list_omap fst snd].
  rewrite decide_False by congruence. by apply IH.
Qed.

Lemma csv_values_at (hdr row : list string) (j : nat) (k : string) :
  NoDup hdr -> hdr !! j = Some k ->
  last (csv_values (zip hdr row) k) = row !! j ≫= csv_store k.
Proof.
  revert row j. induction hdr as [|h hdr IH]; intros row j Hnd Hj; [done|].
  apply NoDup_cons in Hnd as [Hh Hnd]. destruct row as [|v row].
  - by destruct j.
  - unfold csv_values. cbn [zip zip_with omap list_omap fst snd].
    fold (zip hdr row) (csv_values (zip hdr row) k). destruct j as [|j].
    + injection Hj as ->. rewrite decide_True by done.
      rewrite (csv_values_notin hdr row k Hh). simpl.
      by destruct (csv_store k v).
    + simpl in Hj. assert (h <> k) as Hne.
      { intros ->. apply Hh. by eapply list_elem_of_lookup_2. }
      rewrite decide_False by done. exact (IH row j Hnd Hj).
Qed.

(** X5: under a header of distinct names, the row that [read_csv] appends
    for a data record holds, for the name at position [j] of the header, what
    the text at position [j] of the record stores: the text itself under a D
    name, the integer under an M name when [int] accepts the text; it holds
    nothing for a position beyond the record, for a rejected text, for a
    name that starts with neither D nor M, and for a name not in the
    header. *)
Theorem read_csv_row_content (path : string) (n0 : nat) (hdr : list string)
    (recs : list (nat * list string)) (self self' : etl)
    (i n : nat) (row : list string) :
  hdr <> [] -> NoDup hdr ->
  read_csv path ((n0, hdr) :: recs) self = Ok self' ->
  recs !! i = Some (n, row) ->
  exists r,
    rows self' !! (List.length (rows self) + i)%nat = Some r
    /\ (forall j k, hdr !! j = Some k -> r !! k = row !! j ≫= csv_store k)
    /\ (forall k, k ∉ hdr -> r !! k = None).
Proof.
  intros Hhdr Hnd H Hi.
  destruct (read_csv_inv _ _ _ _ _ _ Hhdr H) as (new_rows & -> & Hrows).
  destruct (Forall2_lookup_l _ _ _ _ _ Hrows Hi) as (r & Hr & Hrow).
  exists r. simpl. split; [|split].
  - rewrite lookup_app_r by lia. by replace (_ + i - _)%nat with i by lia.
  - intros j k Hj. rewrite (Hrow k). by apply csv_values_at.
  - intros k Hk. rewrite (Hrow k). simpl. by rewrite csv_values_notin.
Qed.

(** X6: reading a csv source prints, after what was printed before,
    exactly the lines of [csv_all_diags]: going through the data records in
    order and through the fields of each record in order, one line for each
    field that stands under an M name and whose text [int] rejects, with the
    text, the path, the name and the line number of the record; a field that
    occurs twice gives two lines. *)
Theorem read_csv_diagnostics (path : string) (n0 : nat) (hdr : list string)
    (recs : list (nat * list string)) (self self' : etl) :
  hdr <> [] ->
  read_csv path ((n0, hdr) :: recs) self = Ok self' ->
  stdout self' = stdout self ++ csv_all_diags path hdr recs.
Proof.
  intros Hhdr H.
  by destruct (read_csv_inv _ _ _ _ _ _ Hhdr H) as (new_rows & -> & _).
Qed.

(** ** One json source *)

Lemma json_item_eq (path : string) (field : list (string * value))
    (r : gmap string value) (c : gset string) (o : list diag) (key : string)
    (val : value) :
  json_item_ok (key, val) = true ->
  json_item path field (r, c, o) (key, val)
  = Ok (match json_store key val with Some v => <[key := v]> r | None => r end,
        c ∪ {[key]}, o ++ json_diag path field (key, val)).
Proof.
  unfold json_item_ok. cbn [fst snd]. intros [Hkey Hm]%andb_prop.
  apply negb_true_iff, String.eqb_neq in Hkey. apply negb_true_iff in Hm.
  destruct (index0_roles key Hkey) as (x & Hx & _ & HM).
  unfold json_item, json_store, json_diag. rewrite Hx. cbn [mbind res_bind fst snd].
  rewrite HM. destruct (is_meas key); cbn [andb] in *;
    [|destruct val; by rewrite app_nil_r].
  destruct val as [s|z|]; simpl in *; try discriminate.
  - destruct (Py.int_of_str s); simpl; [|reflexivity].
    by rewrite insert_insert_eq, app_nil_r.
  - by rewrite insert_insert_eq, app_nil_r.
Qed.

Lemma json_item_bad (path : string) (field : list (string * value))
    (acc : gmap string value * gset string * list diag) (kv : string * value) :
  json_item_ok kv = false -> exists e, json_item path field acc kv = Raise e.
Proof.
  destruct acc as [[r c] o], kv as [key val]. unfold json_item_ok. cbn [fst snd].
  destruct (String.eqb_spec key "") as [->|Hkey]; [intros _; by eexists|].
  cbn [negb andb]. intros Hm. apply negb_false_iff, andb_prop in Hm as [Hm Hv].
  apply bool_decide_eq_true in Hv. subst.
  destruct (index0_roles key Hkey) as (x & Hx & _ & HM).
  unfold json_item. rewrite Hx. cbn [mbind res_bind]. rewrite HM, Hm. by eexists.
Qed.

Lemma json_item_fold (path : string) (field kvs : list (string * value))
    (r : gmap string value) (c : gset string) (o : list diag) :
  forallb json_item_ok kvs = true ->
  exists r',
    foldM (json_item path field) kvs (r, c, o)
    = Ok (r', c ∪ list_to_set (kvs.*1), o ++ json_field_diags path field kvs)
    /\ forall k, r' !! k = from_option Some (r !! k) (last (json_values kvs k)).
Proof.
  revert r c o. induction kvs as [|[key val] kvs IH]; intros r c o Hok.
  - exists r. unfold json_field_diags. simpl.
    by rewrite (right_id_L ∅ (∪)), app_nil_r.
  - cbn [forallb] in Hok. apply andb_prop in Hok as [Hkv Hok].
    cbn [foldM]. rewrite (json_item_eq _ _ _ _ _ _ _ Hkv). cbn [mbind res_bind].
    destruct (IH (match json_store key val with Some v => <[key := v]> r | None => r end)
                (c ∪ {[key]}) (o ++ json_diag path field (key, val)) Hok)
      as (r' & -> & Hr').
    exists r'. split.
    + rewrite fmap_cons, list_to_set_cons. unfold json_field_diags.
      rewrite fmap_cons. cbn [List.concat]. by rewrite (assoc_L (∪)), <- app_assoc.
    + intros k. rewrite Hr'. unfold json_values. cbn [omap list_omap fst snd].
      fold (json_values kvs k).
      destruct (decide (key = k)) as [->|Hne].
      * destruct (json_store k val) as [v|]; [|reflexivity].
        by rewrite last_or_cons, lookup_insert_eq.
      * destruct (json_store key val) as [v|]; [|reflexivity].
        by rewrite lookup_insert_ne.
Qed.

Lemma json_field_eq (path : string) (field : list (string * value))
    (st : etl) (c : gset string) :
  json_field path (st, c) field
  = foldM (json_item path field) field (∅, c, stdout st) ≫= fun '(new_row, common, out) =>
    Ok ({| rows := rows st ++ [new_row];
           columns := columns st ∪ list_to_set (field.*1);
           common_columns := common_columns st;
           stdout := out |}, common).
Proof. reflexivity. Qed.

Lemma json_field_fold (path : string) (fields : list (list (string * value)))
    (st : etl) (c : gset string) :
  forallb (forallb json_item_ok) fields = true ->
  exists new_rows,
    foldM (json_field path) fields (st, c)
    = Ok ({| rows := rows st ++ new_rows;
             columns := columns st ∪ json_keys fields;
             common_columns := common_columns st;
             stdout := stdout st ++ json_all_diags path fields |},
          c ∪ json_keys fields)
    /\ Forall2 json_row_of fields new_rows.
Proof.
  revert st c. induction fields as [|field fields IH]; intros st c Hok.
  - exists []. split; [|constructor]. destruct st. unfold json_keys, json_all_diags.
    simpl. by rewrite !app_nil_r, !(right_id_L ∅ (∪)).
  - cbn [forallb] in Hok. apply andb_prop in Hok as [Hfield Hok].
    cbn [foldM]. rewrite json_field_eq.
    destruct (json_item_fold path field field ∅ c (stdout st) Hfield)
      as (r & -> & Hr).
    cbn [mbind res_bind].
    destruct (IH {| rows := rows st ++ [r];
                    columns := columns st ∪ list_to_set (field.*1);
                    common_columns := common_columns st;
                    stdout := stdout st ++ json_field_diags path field field |}
                (c ∪ list_to_set (field.*1)) Hok) as (new_rows & -> & Hrows).
    exists (r :: new_rows). split.
    + unfold json_keys, json_all_diags. simpl.
      rewrite list_to_set_app_L, <- !app_assoc.
      by rewrite !(assoc_L (∪)).
    + constructor; [|assumption]. intros k. rewrite Hr, lookup_empty.
      by destruct (last _).
Qed.

Lemma forallb_false_elem {A : Type} (f : A -> bool) (l : list A) :
  forallb f l = false -> exists a, a ∈ l /\ f a = false.
Proof.
  induction l as [|a l IH]; [discriminate|]. cbn [forallb].
  destruct (f a) eqn:Ha; cbn [andb].
  - intros (b & Hb & Hfb)%IH. exists b. split; [by right | done].
  - intros _. exists a. split; [by left | done].
Qed.

Lemma json_field_fold_bad (path : string) (fields : list (list (string * value)))
    (acc : etl * gset string) :
  forallb (forallb json_item_ok) fields = false ->
  exists e, foldM (json_field path) fields acc = Raise e.
Proof.
  intros (field & Hfield & (kv & Hkv & Hbad)%forallb_false_elem)%forallb_false_elem.
  apply foldM_Raise. exists field. split; [done|]. intros [st c].
  rewrite json_field_eq.
  destruct (foldM_Raise (json_item path field) field (∅, c, stdout st)) as (e & ->);
    [|by eexists].
  exists kv. split; [done|]. intros acc'. by apply json_item_bad.
Qed.

Lemma read_json_inv (path : string) (fields : list (list (string * value)))
    (self self' : etl) :
  read_json path fields self = Ok self' ->
  exists new_rows,
    rows self' = rows self ++ new_rows
    /\ columns self' = columns self ∪ json_keys fields
    /\ common_columns self' = common_columns self ++ [json_keys fields]
    /\ Forall2 json_row_of fields new_rows
    /\ stdout self' = stdout self ++ json_all_diags path fields.
Proof.
  unfold read_json. intros H.
  destruct (forallb (forallb json_item_ok) fields) eqn:Hok.
  - destruct (json_field_fold path fields self ∅ Hok) as (new_rows & Hf & Hrows).
    rewrite Hf in H. inversion H; subst. simpl. exists new_rows.
    by rewrite (left_id_L ∅ (∪)).
  - destruct (json_field_fold_bad path fields (self, ∅) Hok) as (e & He).
    rewrite He in H. discriminate.
Qed.

(** X7: a json source is read through exactly when no key is empty and no
    key that starts with M has the value [None].  When it is read, one row
    is appended for each field, all the keys of the document are added to
    [columns], and they are recorded as one source column set. *)
Theorem read_json_shape (path : string) (fields : list (list (string * value)))
    (self : etl) :
  ((exists self', read_json path fields self = Ok self')
   <-> forallb (forallb json_item_ok) fields = true)
  /\ (forall self', read_json path fields self = Ok self' ->
      List.length (rows self') = (List.length (rows self) + List.length fields)%nat
      /\ rows self `prefix_of` rows self'
      /\ columns self' = columns self ∪ json_keys fields
      /\ common_columns self' = common_columns self ++ [json_keys fields]).
Proof.
  split; [split|].
  - intros (self' & H). destruct (forallb (forallb json_item_ok) fields) eqn:Hok; [done|].
    unfold read_json in H.
    destruct (json_field_fold_bad path fields (self, ∅) Hok) as (e & He).
    rewrite He in H. discriminate.
  - intros Hok. unfold read_json.
    destruct (json_field_fold path fields self ∅ Hok) as (new_rows & -> & _).
    by eexists.
  - intros self' H.
    destruct (read_json_inv _ _ _ _ H) as (new_rows & Hr & Hc & Hcc & Hrows & _).
    rewrite Hr, length_app. repeat split; try done.
    + f_equal. symmetry. by eapply Forall2_length.
    + by eexists.
Qed.

Lemma json_values_notin (field : list (string * value)) (k : string) :
  k ∉ field.*1 -> json_values field k = [].
Proof.
  induction field as [|[key val] field IH]; intros Hk; [reflexivity|].
  rewrite fmap_cons in Hk. apply not_elem_of_cons in Hk as [Hne Hk].
  unfold json_values. cbn [omap list_omap fst snd].
  rewrite decide_False by (cbn in Hne; congruence). by apply IH.
Qed.

Lemma json_values_at (field : list (string * value)) (key : string) (val : value) :
  NoDup (field.*1) -> (key, val) ∈ field ->
  last (json_values field key) = json_store key val.
Proof.
  induction field as [|[k v] field IH]; intros Hnd Hin; [inversion Hin|].
  rewrite fmap_cons in Hnd. apply NoDup_cons in Hnd as [Hk Hnd]. cbn [fst] in Hk.
  unfold json_values. cbn [omap list_omap fst snd]. fold (json_values field key).
  apply elem_of_cons in Hin as [Heq|Hin].
  - injection Heq as <- <-. rewrite decide_True by done.
    rewrite (json_values_notin field key Hk). by destruct (json_store key val).
  - assert (k <> key) as Hne.
    { intros ->. apply Hk. apply list_elem_of_fmap. by exists (key, val). }
    rewrite decide_False by done. by apply IH.
Qed.

(** X8: the row that [read_json] appends for a field with distinct keys
    holds, under every key of the field, whatever its first character, the
    value as the document has it; only a key that starts with M whose value
    [int] rejects is left out.  The row holds nothing else. *)
Theorem read_json_row_content (path : string)
    (fields : list (list (string * value))) (self self' : etl)
    (i : nat) (field : list (string * value)) :
  read_json path fields self = Ok self' ->
  fields !! i = Some field ->
  NoDup (field.*1) ->
  exists r,
    rows self' !! (List.length (rows self) + i)%nat = Some r
    /\ (forall key val, (key, val) ∈ field ->
        r !! key = if is_meas key && negb (is_ok (Py.int val)) then None else Some val)
    /\ (forall k, k ∉ field.*1 -> r !! k = None).
Proof.
  intros H Hi Hnd.
  destruct (read_json_inv _ _ _ _ H) as (new_rows & Hr & _ & _ & Hrows & _).
  destruct (Forall2_lookup_l _ _ _ _ _ Hrows Hi) as (r & Hri & Hrow).
  exists r. split; [|split].
  - rewrite Hr, lookup_app_r by lia. rewrite <- Hri. f_equal. lia.
  - intros key val Hin. rewrite (Hrow key), (json_values_at _ _ _ Hnd Hin).
    unfold json_store. destruct (is_meas key); [|reflexivity].
    by destruct (is_ok (Py.int val)).
  - intros k Hk. by rewrite (Hrow k), (json_values_notin _ _ Hk).
Qed.

(** ** [sorted] is stable *)

Section SortStable.
Context {K K' A : Type} `{EqDecision K'}.
Variable key : A -> res K.
Variable less : K -> K -> res bool.
Variable inj : K' -> K.
Variable kf : A -> K'.
Variable ltb : K' -> K' -> bool.
Hypothesis less_inj : forall x y, less (inj x) (inj y) = Ok (ltb x y).
Hypothesis ltb_irrefl : forall x, ltb x x = false.

Lemma insert_sorted_stable (x : A) (l : list A) :
  exists r, Py.insert_sorted less (inj (kf x), x) (keyed inj kf l) = Ok (keyed inj kf r)
            /\ forall t, filter (fun a => kf a = t) r = filter (fun a => kf a = t) (x :: l).
Proof.
  induction l as [|y l (r & Hr & Hf)]; simpl.
  - by exists [x].
  - rewrite less_inj. simpl. destruct (ltb (kf y) (kf x)) eqn:E.
    + rewrite Hr. simpl. exists (y :: r). split; [reflexivity|]. intros t.
      rewrite filter_cons, Hf, !filter_cons.
      destruct (decide (kf y = t)) as [Hy|Hy], (decide (kf x = t)) as [Hx|Hx];
        try reflexivity.
      rewrite Hy, Hx, ltb_irrefl in E. discriminate.
    + by exists (x :: y :: l).
Qed.

Lemma sort_keyed_stable (l : list A) :
  exists r, Py.sort_keyed less (keyed inj kf l) = Ok (keyed inj kf r)
            /\ forall t, filter (fun a => kf a = t) r = filter (fun a => kf a = t) l.
Proof.
  induction l as [|x l (r & Hr & Hf)]; simpl.
  - by exists [].
  - rewrite Hr. simpl. destruct (insert_sorted_stable x r) as (r' & -> & Hf').
    exists r'. split; [reflexivity|]. intros t.
    by rewrite Hf', !filter_cons, Hf.
Qed.

(** The elements with one and the same key leave [sorted] in the order in
    which they went in. *)
Lemma sorted_stable (l r : list A) :
  (forall a, a ∈ l -> key a = Ok (inj (kf a))) ->
  Py.sorted key less l = Ok r ->
  forall t, filter (fun a => kf a = t) r = filter (fun a => kf a = t) l.
Proof.
  intros Hk. unfold Py.sorted.
  rewrite (mapM_Ok_pure _ (fun a => (inj (kf a), a))).
  - simpl. destruct (sort_keyed_stable l) as (r' & Hr & Hf).
    fold (keyed inj kf l). rewrite Hr. simpl. rewrite snd_keyed.
    intros [= <-]. exact Hf.
  - intros a Ha. unfold Py.with_key. by rewrite Hk.
Qed.
End SortStable.

(** ** When the Basic report is not written *)

(** X9: the Basic report needs the key D1 in every stored row, whether or
    not D1 is among the columns it writes: when the columns resolve and one
    row has nothing under D1 the call raises [KeyError].  An error of the
    resolution is the error of the call. *)
Theorem basic_needs_D1 (o : set_order) (self : etl) (common : bool) :
  (forall e, resolve o self common = Raise e ->
             write_tsv_basic o self common = Raise e)
  /\ (forall row, is_ok (resolve o self common) = true ->
                  row ∈ rows self -> row !! "D1" = None ->
                  write_tsv_basic o self common = Raise KeyError).
Proof.
  split.
  - intros e H. unfold write_tsv_basic. by rewrite H.
  - intros row Hres Hrow HD1. unfold write_tsv_basic.
    destruct (resolve o self common) as [[d m]|e]; [|discriminate].
    cbn [mbind res_bind].
    rewrite (sorted_key_Raise key_D1 Py.lt KeyError); [reflexivity| |].
    + intros a _. unfold key_D1. destruct (a !! "D1"); [by right | by left].
    + exists row. split; [assumption|]. unfold key_D1. by rewrite HD1.
Qed.

(** X10: the sort of the Basic report is stable: the rows with one and the
    same D1 text are written in the order in which they were stored. *)
Theorem basic_ties_keep_stored_order (o : set_order) (self : etl) (common : bool)
    (report : list (list value)) :
  forallb has_D1_text (rows self) = true ->
  write_tsv_basic o self common = Ok report ->
  exists d m sorted_rows,
    resolve o self common = Ok (d, m)
    /\ report = (VStr <$> d ++ m) :: (basic_line (d ++ m) <$> sorted_rows)
    /\ forall t, filter (fun row => D1_text row = t) sorted_rows
                 = filter (fun row => D1_text row = t) (rows self).
Proof.
  intros HD1. unfold write_tsv_basic. intros H. inv_bind H. destruct a as [d m].
  inv_bind H. inversion H; subst; clear H. exists d, m, a. split; [assumption|].
  split; [reflexivity|].
  apply (sorted_stable key_D1 Py.lt VStr D1_text Py.str_lt) with (l := rows self).
  - reflexivity.
  - intros x. destruct (Py.str_lt x x) eqn:E; [|reflexivity].
    by rewrite (str_lt_asym _ _ E) in E.
  - intros row Hrow. apply key_D1_text. rewrite forallb_forall in HD1.
    by apply HD1, list_elem_of_In.
  - assumption.
Qed.

(** ** When the Advanced report is not written, and what it adds up to *)

Lemma advanced_TypeError (o : set_order) (self : etl) (common : bool)
    (d m : list string) (row : gmap string value) (c : string) (v : value) :
  resolve o self common = Ok (d, m) ->
  row ∈ rows self -> c ∈ m -> row !! c = Some v -> is_VInt v = false ->
  write_tsv_advanced o self common = Raise TypeError.
Proof.
  intros Hres Hrow Hc Hv Hint. unfold write_tsv_advanced. rewrite Hres.
  cbn [mbind res_bind].
  rewrite (mapM_Ok_pure rename_sum sum_name).
  2:{ intros x Hx. apply rename_sum_meas.
      by apply (resolve_elem_m _ _ _ _ _ Hres) in Hx as [_ ?]. }
  cbn [mbind res_bind].
  pose proof (get_data_advanced_spec (rows self) d m) as Hdata.
  destruct (forallb (ints_row m) (rows self)) eqn:E; [|by rewrite Hdata].
  exfalso. rewrite forallb_forall in E. apply list_elem_of_In, E in Hrow.
  unfold ints_row, measure_vals in Hrow. rewrite forallb_forall in Hrow.
  assert (is_VInt (row_get row c (VInt 0)) = true) as Hget.
  { apply Hrow, list_elem_of_In, list_elem_of_fmap. by exists c. }
  unfold row_get in Hget. rewrite Hv in Hget. simpl in Hget. congruence.
Qed.

(** X11: the Advanced report cannot add a text or [None]: when the columns
    resolve and a stored row holds a text or [None] under one of the
    resolved measure columns, the call raises [TypeError]. *)
Theorem advanced_rejects_text_measure (o : set_order) (self : etl) (common : bool)
    (d m : list string) (row : gmap string value) (c : string) (v : value) :
  resolve o self common = Ok (d, m) ->
  row ∈ rows self -> c ∈ m -> row !! c = Some v ->
  v = VNone \/ (exists s, v = VStr s) ->
  write_tsv_advanced o self common = Raise TypeError.
Proof.
  intros Hres Hrow Hc Hv Htext.
  apply (advanced_TypeError o self common d m row c v); try assumption.
  by destruct Htext as [->|[s ->]].
Qed.



Lemma group_key_length (d : list string) (row : gmap string value) :
  List.length (group_key d row) = List.length d.
Proof. unfold group_key. by rewrite length_fmap. Qed.


(** ** The reports as tables *)

Lemma sum_name_inj (x y : string) :
  x <> "" -> y <> "" -> sum_name x = sum_name y -> x = y.
Proof.
  destruct x as [|a x], y as [|b y]; try done. simpl. intros _ _ [= -> ->].
  reflexivity.
Qed.

Lemma sum_name_meas (x : string) : is_meas x = true -> is_meas (sum_name x) = true.
Proof. by destruct x. Qed.

Lemma header_NoDup (o : set_order) (self : etl) (common : bool) (d m : list string) :
  resolve o self common = Ok (d, m) ->
  NoDup (VStr <$> d ++ m) /\ NoDup (VStr <$> d ++ (sum_name <$> m)).
Proof.
  intros Hres. destruct (resolved_NoDup _ _ _ _ _ Hres) as [Hd Hm].
  assert (forall x, x ∈ d -> is_dim x = true) as HD.
  { intros x Hx. by apply (resolve_elem_d _ _ _ _ _ Hres) in Hx as [_ ?]. }
  assert (forall x, x ∈ m -> is_meas x = true) as HM.
  { intros x Hx. by apply (resolve_elem_m _ _ _ _ _ Hres) in Hx as [_ ?]. }
  split; (apply NoDup_fmap_2; [by intros ? ? [= ->]|]); apply NoDup_app.
  - split; [assumption|]. split; [|assumption].
    intros x Hx Hx'. apply HD in Hx. apply HM in Hx'.
    by rewrite (is_dim_not_meas _ Hx) in Hx'.
  - split; [assumption|]. split.
    + intros x Hx (y & -> & Hy)%list_elem_of_fmap. apply HD in Hx.
      apply HM, sum_name_meas in Hy. by rewrite (is_dim_not_meas _ Hx) in Hy.
    + apply NoDup_fmap_2_strong; [|assumption].
      intros x y Hx Hy. apply sum_name_inj.
      * intros ->. by apply HM in Hx.
      * intros ->. by apply HM in Hy.
Qed.

(** What [sorted] returns was reordered only, and every key was computed. *)
Lemma insert_sorted_perm {K A : Type} (less : K -> K -> res bool)
    (x : K * A) (l r : list (K * A)) :
  Py.insert_sorted less x l = Ok r -> r ≡ₚ x :: l.
Proof.
  revert r. induction l as [|y l IH]; intros r H.
  - by inversion H.
  - cbn [Py.insert_sorted] in H. inv_bind H. destruct a.
    + inv_bind H. inversion H; subst; clear H. rewrite (IH _ Ha0). apply perm_swap.
    + by inversion H.
Qed.

Lemma sort_keyed_perm {K A : Type} (less : K -> K -> res bool) (l r : list (K * A)) :
  Py.sort_keyed less l = Ok r -> r ≡ₚ l.
Proof.
  revert r. induction l as [|x l IH]; intros r H.
  - by inversion H.
  - cbn [Py.sort_keyed] in H. inv_bind H.
    rewrite (insert_sorted_perm _ _ _ _ H). by rewrite (IH _ Ha).
Qed.

Lemma mapM_with_key {K A : Type} (key : A -> res K) (l : list A) (ks : list (K * A)) :
  mapM (Py.with_key key) l = Ok ks ->
  ks.*2 = l /\ forall a, a ∈ l -> is_ok (key a) = true.
Proof.
  revert ks. induction l as [|x l IH]; intros ks H.
  - inversion H. split; [reflexivity|]. intros a Ha. inversion Ha.
  - cbn [mapM] in H. inv_bind H. inv_bind H. inversion H; subst; clear H.
    unfold Py.with_key in Ha. inv_bind Ha. inversion Ha; subst; clear Ha.
    destruct (IH _ Ha0) as [Hl Hk]. split; [by rewrite fmap_cons, Hl|].
    intros b [->|Hb]%elem_of_cons; [by rewrite Ha1 | by apply Hk].
Qed.

Lemma sorted_perm {K A : Type} (key : A -> res K) (less : K -> K -> res bool)
    (l r : list A) :
  Py.sorted key less l = Ok r ->
  r ≡ₚ l /\ forall a, a ∈ l -> is_ok (key a) = true.
Proof.
  unfold Py.sorted. intros H. inv_bind H. inv_bind H. inversion H; subst; clear H.
  destruct (mapM_with_key _ _ _ Ha) as [Hl Hk]. split; [|assumption].
  rewrite <- Hl. apply fmap_Permutation. by eapply sort_keyed_perm.
Qed.

(** X13: a report that is written is a table: no name occurs twice in the
    header and every line of the body has as many cells as the header.  The
    Basic report has one line for each stored row. *)
Theorem reports_are_tables (o : set_order) (self : etl) (common : bool)
    (report : list (list value)) :
  (write_tsv_basic o self common = Ok report ->
   exists header body,
     report = header :: body
     /\ NoDup header
     /\ Forall (fun line => List.length line = List.length header) body
     /\ List.length body = List.length (rows self))
  /\ (write_tsv_advanced o self common = Ok report ->
      exists header body,
        report = header :: body
        /\ NoDup header
        /\ Forall (fun line => List.length line = List.length header) body).
Proof.
  split; intros H.
  - unfold write_tsv_basic in H. inv_bind H.
    destruct a as [d m]. inv_bind H. inversion H; subst; clear H.
    eexists _, _. split; [reflexivity|].
    split; [apply (header_NoDup _ _ _ _ _ Ha)|]. split.
    + apply Forall_fmap, Forall_forall. intros row _. unfold basic_line. simpl.
      by rewrite !length_fmap.
    + rewrite length_fmap. apply sorted_perm in Ha0 as [Hp _]. by rewrite Hp.
  - apply advanced_written_inv in H
      as (d & m & keys & Hres & -> & _ & Hkeys & _).
    eexists _, _. split; [reflexivity|].
    split; [apply (header_NoDup _ _ _ _ _ Hres)|].
    apply Forall_fmap, Forall_forall. intros key Hkey. simpl.
    apply Hkeys, list_elem_of_fmap in Hkey as (row & -> & _).
    unfold group_sums.
    by rewrite length_fmap, !length_app, !length_fmap, group_key_length.
Qed.

(** ** A Basic report that is written *)

Lemma sorted_key_ext {K A : Type} (key key' : A -> res K) (kf : A -> K)
    (less : K -> K -> res bool) (l : list A) :
  (forall a, a ∈ l -> key a = Ok (kf a)) ->
  (forall a, a ∈ l -> key' a = Ok (kf a)) ->
  Py.sorted key less l = Py.sorted key' less l.
Proof.
  intros Hk Hk'. unfold Py.sorted.
  rewrite (mapM_Ok_pure (Py.with_key key) (fun a => (kf a, a)))
    by (intros a Ha; unfold Py.with_key; by rewrite Hk).
  rewrite (mapM_Ok_pure (Py.with_key key') (fun a => (kf a, a)))
    by (intros a Ha; unfold Py.with_key; by rewrite Hk').
  reflexivity.
Qed.

(** X14: a Basic report that is written, on any state: the header is the
    resolved dimension names followed by the resolved measure names; every
    stored row has a value under D1; the body holds one line for each stored
    row, the rows reordered so that no row is followed by one whose D1 value
    is smaller in Python's [<]. *)
Theorem basic_report_written (o : set_order) (self : etl) (common : bool)
    (report : list (list value)) :
  write_tsv_basic o self common = Ok report ->
  exists d m sorted_rows,
    resolve o self common = Ok (d, m)
    /\ report = (VStr <$> d ++ m) :: (basic_line (d ++ m) <$> sorted_rows)
    /\ sorted_rows ≡ₚ rows self
    /\ (forall row, row ∈ rows self -> is_Some (row !! "D1"))
    /\ Sorted (fun a b => Py.lt (D1_value b) (D1_value a) = Ok false) sorted_rows.
Proof.
  unfold write_tsv_basic. intros H. inv_bind H. destruct a as [d m].
  inv_bind H. inversion H; subst; clear H. rename a into sorted_rows.
  exists d, m, sorted_rows. split; [assumption|]. split; [reflexivity|].
  destruct (sorted_perm _ _ _ _ Ha0) as [Hp Hk].
  assert (forall row, row ∈ rows self -> key_D1 row = Ok (D1_value row)) as Hkey.
  { intros row Hrow. apply Hk in Hrow. unfold key_D1, D1_value in *.
    by destruct (row !! "D1"). }
  split; [assumption|]. split.
  { intros row Hrow. apply Hk in Hrow. unfold key_D1 in Hrow.
    destruct (row !! "D1"); [by eexists | discriminate]. }
  rewrite (sorted_key_ext key_D1 (fun row => Ok (D1_value row)) D1_value) in Ha0
    by auto.
  by apply (sorted_Ok Py.lt D1_value lt_asym) in Ha0 as [_ Hs].
Qed.

(** ** A source without a column *)

Lemma etl_app_init_l (a : etl) : etl_app init a = a.
Proof. destruct a. unfold etl_app. simpl. by rewrite (left_id_L ∅ (∪)). Qed.

Lemma etl_app_assoc (a b c : etl) : etl_app a (etl_app b c) = etl_app (etl_app a b) c.
Proof. unfold etl_app. simpl. by rewrite !app_assoc, (assoc_L (∪)). Qed.

(** The state after a sequence of calls is what came before a call, what
    the call adds on its own, and what came after it. *)
Lemma ingest_elem (srcs : list source) (src : source) (self : etl) :
  ingest srcs init = Ok self -> src ∈ srcs ->
  exists pre one post,
    read init src = Ok one /\ self = etl_app (etl_app pre one) post.
Proof.
  revert self. induction srcs as [|s srcs IH]; intros self H Hin; [inversion Hin|].
  unfold ingest in H. cbn [foldM] in H. inv_bind H. fold (ingest srcs a) in H.
  rewrite ingest_init in H. destruct (ingest srcs init) as [b|e] eqn:Hb; [|discriminate].
  inversion H; subst; clear H. apply elem_of_cons in Hin as [->|Hin].
  - exists init, a, b. by rewrite etl_app_init_l.
  - destruct (IH b eq_refl Hin) as (pre & one & post & Hone & ->).
    exists (etl_app a pre), one, post. split; [assumption|].
    by rewrite !etl_app_assoc.
Qed.

Lemma no_column_records_empty (src : source) (one : etl) :
  no_column src = true -> read init src = Ok one -> ∅ ∈ common_columns one.
Proof.
  destruct src as [path reader|path fields|path objects]; simpl; intros Hno H.
  - destruct reader as [|[n [|h hdr]] recs]; try discriminate.
    unfold read_csv in H. cbn [foldM] in H. inv_bind H. destruct a as [st c].
    inversion H; subst; clear H. simpl in Ha.
    apply (foldM_invariant (fun x => ∅ ∈ common_columns x.1) _ _ _ _ Ha).
    + simpl. apply list_elem_of_singleton. reflexivity.
    + clear. intros [st0 c0] [n row] [st1 c1] _ Hst Hstep. unfold csv_record in Hstep.
      simpl in *. destruct (not_columns c0).
      * inversion Hstep; subst; clear Hstep. simpl. apply elem_of_app. by left.
      * inv_bind Hstep. destruct a. by inversion Hstep; subst.
  - apply read_json_inv in H as (new_rows & _ & _ & -> & _ & _). simpl.
    apply list_elem_of_singleton. unfold json_keys.
    induction fields as [|[|kv field] fields IH]; try discriminate; [reflexivity|].
    simpl in *. by apply IH.
  - destruct objects; [|discriminate]. inversion H. simpl.
    apply list_elem_of_singleton. reflexivity.
Qed.

Lemma resolve_empty_set (o : set_order) (self : etl) :
  ∅ ∈ common_columns self -> resolve o self true = Ok ([], []).
Proof.
  intros He. rewrite resolve_eq.
  assert (resolved_set self true = ∅) as ->; [|by rewrite iter_empty].
  apply set_eq. intros x. rewrite resolved_set_policy. unfold in_policy.
  split; [|by intros ?%elem_of_empty]. intros [_ H]. by apply H.
Qed.

Lemma advanced_step_no_column (data : list (list value * list value))
    (row : gmap string value) :
  advanced_step [] [] data row = Ok (Dict.set [] [] data).
Proof.
  unfold advanced_step, Dict.setdefault. cbn [group_key measure_vals fmap list_fmap].
  destruct (Dict.get [] data) as [v|].
  - by destruct v.
  - simpl. by rewrite dict_set_set.
Qed.

Lemma advanced_no_column (rs : list (gmap string value)) (data : list (list value * list value)) :
  foldM (advanced_step [] []) rs data
  = Ok (if decide (rs = []) then data else Dict.set [] [] data).
Proof.
  revert data. induction rs as [|row rs IH]; intros data; [reflexivity|].
  cbn [foldM]. rewrite advanced_step_no_column. cbn [mbind res_bind].
  rewrite IH. destruct (decide (rs = [])); simpl; [reflexivity|].
  by rewrite dict_set_set.
Qed.

(** X15: a source without a column empties the intersection: after a
    sequence of calls of which one reads a csv file that begins with a blank
    record, a json document whose fields are all empty or an xml document
    without an object, the intersection policy resolves to no column at
    all, whatever the other sources hold, and the Advanced report under that
    policy is an empty header followed, if a row is stored, by one empty
    line. *)
Theorem source_without_column (o : set_order) (srcs : list source) (src : source)
    (self : etl) :
  ingest srcs init = Ok self -> src ∈ srcs -> no_column src = true ->
  resolve o self true = Ok ([], [])
  /\ write_tsv_advanced o self true
     = Ok ([] :: if decide (rows self = []) then [] else [[]]).
Proof.
  intros H Hin Hno. destruct (ingest_elem _ _ _ H Hin) as (pre & one & post & Hone & ->).
  assert (resolve o (etl_app (etl_app pre one) post) true = Ok ([], [])) as Hres.
  { apply resolve_empty_set. simpl. apply elem_of_app. left. apply elem_of_app. right.
    by apply (no_column_records_empty src). }
  split; [assumption|]. unfold write_tsv_advanced. rewrite Hres.
  cbn [mbind res_bind mapM]. unfold get_data_advanced. rewrite advanced_no_column.
  cbn [mbind res_bind]. by destruct (decide _).
Qed.

(** ** A measure that a json document gives as text *)

(** X16: [read_json] stores a measure that the document gives as text as
    that text, and the Advanced report cannot add it: after a sequence of
    calls of which one reads a json document with, in a field of distinct
    keys, a key that starts with M and a text that [int] accepts, the
    Advanced report over all columns is never written: it raises the error
    of the resolution, if there is one, and [TypeError] otherwise. *)
Theorem json_text_measure_breaks_advanced (o : set_order) (srcs : list source)
    (path : string) (fields : list (list (string * value)))
    (field : list (string * value)) (key s : string) (self : etl) :
  ingest srcs init = Ok self ->
  Json path fields ∈ srcs -> field ∈ fields -> NoDup (field.*1) ->
  (key, VStr s) ∈ field -> is_meas key = true -> is_ok (Py.int (VStr s)) = true ->
  write_tsv_advanced o self false
  = Raise (match resolve o self false with Raise e => e | Ok _ => TypeError end).
Proof.
  intros H Hin Hfield Hnd Hkv Hm Hint.
  destruct (resolve o self false) as [[d m]|e] eqn:Hres;
    [|unfold write_tsv_advanced; by rewrite Hres].
  destruct (ingest_elem _ _ _ H Hin) as (pre & one & post & Hone & ->).
  simpl in Hone.
  destruct (read_json_inv _ _ _ _ Hone) as (new_rows & Hr & Hc & _ & Hrows & _).
  apply list_elem_of_lookup_1 in Hfield as (i & Hi).
  destruct (Forall2_lookup_l _ _ _ _ _ Hrows Hi) as (r & Hri & Hrow).
  assert (r !! key = Some (VStr s)) as Hrk.
  { rewrite (Hrow key), (json_values_at _ _ _ Hnd Hkv). unfold json_store.
    by rewrite Hm, Hint. }
  apply (advanced_TypeError o _ false d m r key (VStr s) Hres); try done.
  - simpl. rewrite Hr. apply elem_of_app. left. apply elem_of_app. right.
    apply elem_of_app. right. by eapply list_elem_of_lookup_2.
  - apply (resolve_elem_m _ _ _ _ _ Hres). split; [|assumption].
    simpl. rewrite Hc. apply elem_of_union. left. apply elem_of_union. right.
    apply elem_of_union. right. unfold json_keys. apply elem_of_list_to_set.
    apply list_elem_of_In, in_concat. exists (field.*1). split.
    + apply list_elem_of_In, list_elem_of_fmap. exists field. split; [done|].
      by eapply list_elem_of_lookup_2.
    + apply list_elem_of_In, list_elem_of_fmap. by exists (key, VStr s).
Qed.

(** ** The files of the writers *)

Lemma write_lines_spec (data : list (list value * list value)) (ks : list (list value)) :
  match mapM (fun key => v ← Dict.getitem key data; Ok (key ++ v)) ks with
  | Ok body => write_lines data ks = (body, None)
  | Raise e => exists ls, write_lines data ks = (ls, Some e)
  end.
Proof.
  induction ks as [|key ks IH]; [reflexivity|].
  cbn [mapM write_lines]. destruct (Dict.getitem key data) as [v|e]; cbn [mbind res_bind].
  - destruct (mapM _ ks) as [body|e]; cbn [mbind res_bind].
    + by rewrite IH.
    + destruct IH as (ls & ->). by eexists.
  - by eexists.
Qed.

Lemma written_keys_found (data : list (list value * list value)) (ks : list (list value)) :
  ks ⊆ Dict.keys data ->
  exists body, mapM (fun key => v ← Dict.getitem key data; Ok (key ++ v)) ks = Ok body.
Proof.
  induction ks as [|key ks IH]; intros Hsub; [by eexists|].
  destruct IH as (body & Hbody); [intros k Hk; apply Hsub; by right|].
  assert (key ∈ Dict.keys data) as Hin by (apply Hsub; by left).
  apply dict_get_keys in Hin as [v Hv].
  cbn [mapM]. rewrite Hbody. unfold Dict.getitem. rewrite Hv. by eexists.
Qed.

Lemma basic_file_spec (o : set_order) (self : etl) (common : bool) :
  write_tsv_basic o self common
  = match (write_tsv_basic_file o self common).2 with
    | None => Ok (write_tsv_basic_file o self common).1
    | Some e => Raise e
    end
  /\ (is_Some (write_tsv_basic_file o self common).2 ->
      (List.length (write_tsv_basic_file o self common).1 <= 1)%nat).
Proof.
  unfold write_tsv_basic, write_tsv_basic_file.
  destruct (resolve o self common) as [[d m]|e]; cbn [mbind res_bind].
  - destruct (Py.sorted key_D1 Py.lt (rows self)) as [sorted_rows|e]; simpl.
    + split; [reflexivity|]. by intros [? ?].
    + split; [reflexivity|]. intros _. lia.
  - simpl. split; [reflexivity|]. intros _. lia.
Qed.

Lemma advanced_file_spec (o : set_order) (self : etl) (common : bool) :
  write_tsv_advanced o self common
  = match (write_tsv_advanced_file o self common).2 with
    | None => Ok (write_tsv_advanced_file o self common).1
    | Some e => Raise e
    end
  /\ (is_Some (write_tsv_advanced_file o self common).2 ->
      (List.length (write_tsv_advanced_file o self common).1 <= 1)%nat).
Proof.
  unfold write_tsv_advanced, write_tsv_advanced_file.
  destruct (resolve o self common) as [[d m]|e]; cbn [mbind res_bind];
    [|simpl; split; [reflexivity | intros _; lia]].
  destruct (mapM rename_sum m) as [ms|e]; cbn [mbind res_bind];
    [|simpl; split; [reflexivity | intros _; lia]].
  destruct (get_data_advanced (rows self) d m) as [data|e]; cbn [mbind res_bind];
    [|simpl; split; [reflexivity | intros _; lia]].
  destruct (Py.sorted tuple_key Py.tuple_lt (Dict.keys data)) as [ks|e] eqn:Hks;
    cbn [mbind res_bind]; [|simpl; split; [reflexivity | intros _; lia]].
  destruct (written_keys_found data ks) as (body & Hbody).
  { apply sorted_perm in Hks as [Hp _]. intros k Hk. by rewrite <- Hp. }
  pose proof (write_lines_spec data ks) as Hw. rewrite Hbody in Hw |- *.
  rewrite Hw. simpl. split; [reflexivity|]. by intros [? ?].
Qed.

(** X17: what the writers leave on the disk.  A call that returns has
    written the whole report to its file.  A call that raises has emptied
    its file all the same and has written at most the header to it: no
    line of the body is written before the last step that can fail. *)
Theorem writers_files (o : set_order) (self : etl) (common : bool)
    (content : list (list value)) (e : option exn) :
  (write_tsv_basic_file o self common = (content, e) ->
   match e with
   | None => write_tsv_basic o self common = Ok content
   | Some e => write_tsv_basic o self common = Raise e
               /\ (List.length content <= 1)%nat
   end)
  /\ (write_tsv_advanced_file o self common = (content, e) ->
      match e with
      | None => write_tsv_advanced o self common = Ok content
      | Some e => write_tsv_advanced o self common = Raise e
                  /\ (List.length content <= 1)%nat
      end).
Proof.
  split; intros H.
  - destruct (basic_file_spec o self common) as [Heq Hlen]. rewrite H in Heq, Hlen.
    simpl in *. destruct e; [split|]; eauto.
  - destruct (advanced_file_spec o self common) as [Heq Hlen]. rewrite H in Heq, Hlen.
    simpl in *. destruct e; [split|]; eauto.
Qed.

(** ** The script *)

Lemma resolve_names_ok (o : set_order) (self : etl) (common : bool) :
  sets_in_universe self -> names_ok (elements (columns self)) = true ->
  exists d m, resolve o self common = Ok (d, m).
Proof.
  intros Hinv Hok.
  destruct (d_m_sorted_Ok (iter o (resolved_set self common))) as (d & m & H & _).
  - eapply names_ok_subset; [|exact Hok]. intros x. rewrite iter_elem, elem_of_elements.
    intros Hx. destruct common; [|exact Hx].
    by apply (intersection_in_universe self false Hinv).
  - rewrite <- resolve_eq in H. eauto.
Qed.

Lemma basic_written (o : set_order) (self : etl) (common : bool) :
  is_ok (resolve o self common) = true ->
  forallb has_D1_text (rows self) = true ->
  is_ok (write_tsv_basic o self common) = true.
Proof.
  intros Hres HD1. unfold write_tsv_basic.
  destruct (resolve o self common) as [[d m]|e]; [|discriminate]. cbn [mbind res_bind].
  destruct (sorted_spec key_D1 Py.lt VStr D1_text Py.str_lt) with (l := rows self)
    as (r & -> & _).
  - reflexivity.
  - apply str_lt_asym.
  - apply str_le_trans.
  - intros row Hrow. apply key_D1_text. rewrite forallb_forall in HD1.
    by apply HD1, list_elem_of_In.
  - reflexivity.
Qed.

Lemma advanced_written (o : set_order) (self : etl) (common : bool) :
  is_ok (resolve o self common) = true ->
  typed_rows (rows self) = true ->
  is_ok (write_tsv_advanced o self common) = true.
Proof.
  intros Hres Htyped. destruct (resolve o self common) as [[d m]|e] eqn:E; [|discriminate].
  destruct (advanced_typed_written o self common d m E Htyped) as (ks & -> & _).
  reflexivity.
Qed.

Lemma basic_file_Ok (o : set_order) (self : etl) (common : bool) (report : list (list value)) :
  write_tsv_basic o self common = Ok report ->
  write_tsv_basic_file o self common = (report, None).
Proof.
  destruct (basic_file_spec o self common) as [-> _].
  destruct (write_tsv_basic_file o self common) as [content [e|]]; simpl; congruence.
Qed.

Lemma advanced_file_Ok (o : set_order) (self : etl) (common : bool)
    (report : list (list value)) :
  write_tsv_advanced o self common = Ok report ->
  write_tsv_advanced_file o self common = (report, None).
Proof.
  destruct (advanced_file_spec o self common) as [-> _].
  destruct (write_tsv_advanced_file o self common) as [content [e|]]; simpl; congruence.
Qed.

(** X18: the script runs to its end when the four sources are read, no
    name of the column universe is empty or has, after a D or an M, a
    suffix that [int] rejects, every stored row has a text under D1, and
    the cells are typed as the data model has them.  It then prints the
    start line, the lines of the rejected values and the end line, and
    leaves the four reports in their files: those with all the columns in
    [out_basic.tsv] and [out_advanced.tsv], those with the columns common to
    all sources in [out_basic_union.tsv] and [out_advanced_union.tsv]. *)
Theorem main_completes (o : set_order) (fs : gmap string (list (list value)))
    (csv_data_1 csv_data_2 : list (nat * list string))
    (json_data : list (list (string * value))) (xml_data : list xml_object)
    (self : etl) :
  ingest (script_sources csv_data_1 csv_data_2 json_data xml_data) init = Ok self ->
  names_ok (elements (columns self)) = true ->
  forallb has_D1_text (rows self) = true ->
  typed_rows (rows self) = true ->
  exists basic advanced basic_common advanced_common,
    write_tsv_basic o self false = Ok basic
    /\ write_tsv_advanced o self false = Ok advanced
    /\ write_tsv_basic o self true = Ok basic_common
    /\ write_tsv_advanced o self true = Ok advanced_common
    /\ main o fs csv_data_1 csv_data_2 json_data xml_data
       = (<["results/out_advanced_union.tsv" := advanced_common]>
            (<["results/out_basic_union.tsv" := basic_common]>
               (<["results/out_advanced.tsv" := advanced]>
                  (<["results/out_basic.tsv" := basic]> fs))),
          Ok (StartProcess :: (Incorrect <$> stdout self) ++ [ProcessCompleted])).
Proof.
  intros Hing Hok HD1 Htyped.
  assert (sets_in_universe self) as Hinv.
  { apply (ingest_sets_in_universe _ init _ (Forall_nil_2 _) Hing). }
  assert (forall common, is_ok (resolve o self common) = true) as Hres.
  { intros common. by destruct (resolve_names_ok o self common Hinv Hok) as (d & m & ->). }
  pose proof (basic_written o self false (Hres false) HD1) as Hb.
  pose proof (basic_written o self true (Hres true) HD1) as Hb'.
  pose proof (advanced_written o self false (Hres false) Htyped) as Ha.
  pose proof (advanced_written o self true (Hres true) Htyped) as Ha'.
  destruct (write_tsv_basic o self false) as [b|] eqn:Eb; [|discriminate].
  destruct (write_tsv_basic o self true) as [b'|] eqn:Eb'; [|discriminate].
  destruct (write_tsv_advanced o self false) as [a|] eqn:Ea; [|discriminate].
  destruct (write_tsv_advanced o self true) as [a'|] eqn:Ea'; [|discriminate].
  exists b, a, b', a'. repeat (split; [reflexivity|]).
  unfold main. rewrite Hing. unfold script_reports. cbn [write_all].
  rewrite (basic_file_Ok _ _ _ _ Eb), (advanced_file_Ok _ _ _ _ Ea),
    (basic_file_Ok _ _ _ _ Eb'), (advanced_file_Ok _ _ _ _ Ea').
  reflexivity.
Qed.

(** X19: the first report of the script needs the key D1: when the four
    sources are read and the columns resolve but a stored row has nothing
    under D1, the script ends with [KeyError] at its first report; it
    leaves [out_basic.tsv] with the header alone and does not touch the
    files of the other three reports. *)
Theorem main_stops_without_D1 (o : set_order) (fs : gmap string (list (list value)))
    (csv_data_1 csv_data_2 : list (nat * list string))
    (json_data : list (list (string * value))) (xml_data : list xml_object)
    (self : etl) (d m : list string) (row : gmap string value) :
  ingest (script_sources csv_data_1 csv_data_2 json_data xml_data) init = Ok self ->
  resolve o self false = Ok (d, m) ->
  row ∈ rows self -> row !! "D1" = None ->
  main o fs csv_data_1 csv_data_2 json_data xml_data
  = (<["results/out_basic.tsv" := [VStr <$> d ++ m]]> fs, Raise KeyError).
Proof.
  intros Hing Hres Hrow HD1. unfold main. rewrite Hing.
  unfold script_reports. cbn [write_all]. unfold write_tsv_basic_file. rewrite Hres.
  rewrite (sorted_key_Raise key_D1 Py.lt KeyError); [reflexivity| |].
  - intros a _. unfold key_D1. destruct (a !! "D1"); [by right | by left].
  - exists row. split; [assumption|]. unfold key_D1. by rewrite HD1.
Qed.

Lemma write_all_other (ws : list (string * (etl -> list (list value) * option exn)))
    (self : etl) (fs : gmap string (list (list value))) (path : string) :
  path ∉ ws.*1 -> (write_all ws self fs).1 !! path = fs !! path.
Proof.
  revert fs. induction ws as [|[p w] ws IH]; intros fs Hp; [reflexivity|].
  rewrite fmap_cons in Hp. apply not_elem_of_cons in Hp as [Hne Hp]. cbn [fst] in Hne.
  cbn [write_all]. destruct (w self) as [content [e|]]; simpl.
  - by rewrite lookup_insert_ne.
  - rewrite (IH _ Hp). by rewrite lookup_insert_ne.
Qed.

(** X20: the script writes to the files of its four reports and to no
    other file, whatever the sources hold and however it ends; when a
    source cannot be read it writes to no file at all. *)
Theorem main_writes_reports_only (o : set_order) (fs : gmap string (list (list value)))
    (csv_data_1 csv_data_2 : list (nat * list string))
    (json_data : list (list (string * value))) (xml_data : list xml_object) :
  (forall path,
     path ∉ ["results/out_basic.tsv"; "results/out_advanced.tsv";
             "results/out_basic_union.tsv"; "results/out_advanced_union.tsv"] ->
     (main o fs csv_data_1 csv_data_2 json_data xml_data).1 !! path = fs !! path)
  /\ (is_ok (ingest (script_sources csv_data_1 csv_data_2 json_data xml_data) init)
      = false ->
      (main o fs csv_data_1 csv_data_2 json_data xml_data).1 = fs).
Proof.
  unfold main. split.
  - intros path Hpath. destruct (ingest _ init) as [self|e]; [|reflexivity].
    pose proof (write_all_other (script_reports o) self fs path Hpath) as Hw.
    by destruct (write_all (script_reports o) self fs) as [fs' [e|]].
  - intros Hbad. by destruct (ingest _ init).
Qed.

(** ** What the json and xml readers print *)

(** X21: reading a json source prints, after what was printed before,
    exactly the lines of [json_all_diags]: going through the fields in order
    and through the items of each field in order, one line for each item
    whose key starts with M and whose value is a text that [int] rejects,
    with the value, the path, the key and the field. *)
Theorem read_json_diagnostics (path : string) (fields : list (list (string * value)))
    (self self' : etl) :
  read_json path fields self = Ok self' ->
  stdout self' = stdout self ++ json_all_diags path fields.
Proof.
  intros H. by destruct (read_json_inv _ _ _ _ H) as (new_rows & _ & _ & _ & _ & ->).
Qed.

Lemma xml_child_out (path column : string) (texts : list (option string))
    (r r' : gmap string value) (o o' : list diag) :
  foldM (xml_child path column) texts (r, o) = Ok (r', o') ->
  o' = o ++ List.concat (xml_child_diag path column <$> texts).
Proof.
  revert r o. induction texts as [|t texts IH]; intros r o H.
  - inversion H; subst. simpl. by rewrite app_nil_r.
  - simpl in H. inv_bind H. destruct a as [r1 o1].
    rewrite (IH _ _ H). rewrite fmap_cons. cbn [List.concat]. rewrite app_assoc.
    f_equal. unfold xml_child in Ha. inv_bind Ha.
    assert (column <> "") as Hcol by (intros ->; discriminate).
    destruct (index0_roles column Hcol) as (x & Hx & HD & HM).
    assert (a = x) as -> by congruence. rewrite HD, HM in Ha.
    unfold xml_child_diag. destruct (is_dim column) eqn:Ed.
    + inversion Ha; subst. rewrite (is_dim_not_meas _ Ed). simpl.
      destruct t; by rewrite app_nil_r.
    + destruct (is_meas column); [|inversion Ha; subst; destruct t; by rewrite app_nil_r].
      destruct t as [s|]; simpl in Ha; [|discriminate]. simpl.
      destruct (Py.int_of_str s) as [z|]; simpl.
      * inversion Ha; subst. by rewrite app_nil_r.
      * by inversion Ha; subst.
Qed.

Lemma xml_obj_out (path : string) (objects : list xml_object)
    (cols0 cols : gset string) (r0 r : gmap string value) (c0 c : gset string)
    (o0 o : list diag) :
  foldM (xml_obj path) objects (cols0, r0, c0, o0) = Ok (cols, r, c, o) ->
  o = o0 ++ xml_all_diags path objects.
Proof.
  revert cols0 r0 c0 o0. induction objects as [|obj objects IH];
    intros cols0 r0 c0 o0 H.
  - inversion H; subst. unfold xml_all_diags. simpl. by rewrite app_nil_r.
  - simpl in H. inv_bind H. destruct a as [[[cols1 r1] c1] o1].
    unfold xml_obj in Ha. inv_bind Ha. inv_bind Ha. destruct a0 as [r' o'].
    inversion Ha; subst; clear Ha.
    destruct (attrib_name obj) as [column|] eqn:Hname; [|discriminate].
    inversion Ha0; subst; clear Ha0.
    rewrite (IH _ _ _ _ H). rewrite (xml_child_out _ _ _ _ _ _ _ Ha1).
    unfold xml_all_diags. rewrite fmap_cons. cbn [List.concat].
    unfold xml_obj_diags at 2. rewrite Hname. by rewrite app_assoc.
Qed.

(** X22: reading an xml source prints, after what was printed before,
    exactly the lines of [xml_all_diags]: going through the objects in order
    and through the children of each object in order, one line for each
    child of an object whose name starts with M whose text [int] rejects,
    with the text, the path and the name; two children with the same
    rejected text give two lines. *)
Theorem read_xml_diagnostics (path : string) (objects : list xml_object)
    (self self' : etl) :
  read_xml path objects self = Ok self' ->
  stdout self' = stdout self ++ xml_all_diags path objects.
Proof.
  unfold read_xml. intros H. inv_bind H. destruct a as [[[cols r] c] o].
  inversion H; subst; clear H. simpl. by eapply xml_obj_out.
Qed.

(** ** The aggregation as a method *)

Lemma advanced_step_keys (d m : list string) (data data' : list (list value * list value))
    (row : gmap string value) :
  advanced_step d m data row = Ok data' ->
  Dict.keys data'
  = if decide (group_key d row ∈ Dict.keys data) then Dict.keys data
    else Dict.keys data ++ [group_key d row].
Proof.
  unfold advanced_step, Dict.setdefault. intros H.
  destruct (Dict.get (group_key d row) data) as [v|] eqn:Hg.
  - inv_bind H. inversion H; subst; clear H. rewrite dict_keys_set.
    by destruct (decide _).
  - inv_bind H. inversion H; subst; clear H. rewrite !dict_keys_set.
    destruct (decide (group_key d row ∈ Dict.keys data)) as [Hin|Hnin].
    + by rewrite decide_True.
    + rewrite decide_True; [reflexivity|]. apply elem_of_app. right. by left.
Qed.

Lemma advanced_fold_keys (d m : list string) (rs : list (gmap string value))
    (data data' : list (list value * list value)) :
  foldM (advanced_step d m) rs data = Ok data' ->
  Dict.keys data'
  = foldl (fun acc k => if decide (k ∈ acc) then acc else acc ++ [k])
      (Dict.keys data) (group_key d <$> rs).
Proof.
  revert data. induction rs as [|row rs IH]; intros data H.
  - by inversion H.
  - cbn [foldM] in H. inv_bind H. rewrite (IH _ H).
    by rewrite (advanced_step_keys _ _ _ _ _ Ha).
Qed.

Lemma integers_under_spec (m : list string) (row : gmap string value) :
  integers_under m row = ints_row m row.
Proof.
  unfold integers_under, ints_row, measure_vals, row_get.
  induction m as [|c m IH]; [reflexivity|]. rewrite fmap_cons. cbn [forallb].
  rewrite IH. by destruct (row !! c) as [[]|].
Qed.

Lemma forallb_ext_list {A : Type} (f g : A -> bool) (l : list A) :
  (forall a, f a = g a) -> forallb f l = forallb g l.
Proof. intros H. induction l as [|a l IH]; [reflexivity|]. simpl. by rewrite H, IH. Qed.

(** X23: [get_data_advanced], for any two lists of column names.  It
    raises [TypeError] when a stored row holds a text or [None] under one of
    the measure names.  It returns when every row holds an integer or
    nothing under each of the measure names (and texts under the dimension
    names): the dict it returns has one key for each Group Key of the rows,
    in the order in which the keys first occur in the rows, and maps each
    key to the Group Value of the key, the sums over the rows of the
    group. *)
Theorem get_data_advanced_groups (rs : list (gmap string value))
    (d_columns m_columns : list string) :
  (forallb (integers_under m_columns) rs = false ->
   get_data_advanced rs d_columns m_columns = Raise TypeError)
  /\ (forallb (texts_under d_columns) rs = true ->
      forallb (integers_under m_columns) rs = true ->
      exists data,
        get_data_advanced rs d_columns m_columns = Ok data
        /\ Dict.keys data = first_seen (spec_group_key d_columns <$> rs)
        /\ forall k, k ∈ Dict.keys data ->
             Dict.get k data
             = Some (VInt <$> spec_group_value rs d_columns m_columns k)).
Proof.
  pose proof (get_data_advanced_spec rs d_columns m_columns) as H.
  rewrite (forallb_ext_list _ _ rs (integers_under_spec m_columns)).
  destruct (forallb (ints_row m_columns) rs); split; try discriminate.
  - intros _ _. destruct H as (data & Hd & Hnd & Hget). exists data.
    split; [assumption|]. split.
    + rewrite (advanced_fold_keys d_columns m_columns rs [] data Hd).
      unfold first_seen. change (Dict.keys []) with (@nil (list value)).
      by rewrite (list_fmap_ext (group_key d_columns) (spec_group_key d_columns) rs)
        by (intros; apply group_key_spec).
    + intros k Hk. apply dict_get_keys in Hk as [v Hv]. rewrite Hv.
      rewrite Hget in Hv. rewrite <- group_sums_spec. by destruct (decide _).
  - by intros _.
Qed.

(** ** The further properties at concrete inputs *)

(** A second csv source read after a first one. *)
Lemma ingest_only_appends_witness :
  ingest [source_b] (run [source_a]) = Ok (run [source_a; source_b])
  /\ (exists added, ingest [source_b] init = Ok added
                    /\ run [source_a; source_b] = etl_app (run [source_a]) added)
  /\ rows (run [source_a]) `prefix_of` rows (run [source_a; source_b])
  /\ common_columns (run [source_a]) `prefix_of` common_columns (run [source_a; source_b])
  /\ stdout (run [source_a]) `prefix_of` stdout (run [source_a; source_b])
  /\ columns (run [source_a]) ⊆ columns (run [source_a; source_b]).
Proof.
  split; [reflexivity|].
  apply (ingest_only_appends [source_b] (run [source_a])). reflexivity.
Defined.

(** The columns that the two csv sources share. *)
Lemma resolved_lists_exact_witness :
  resolve elements_order (run [source_a; source_b]) true = Ok (["D1"], ["M1"])
  /\ (forall x, x ∈ ["D1"] <-> in_policy (run [source_a; source_b]) true x
                               /\ is_dim x = true)
  /\ (forall x, x ∈ ["M1"] <-> in_policy (run [source_a; source_b]) true x
                               /\ is_meas x = true)
  /\ NoDup ["D1"] /\ NoDup ["M1"]
  /\ StronglySorted suffix_le ["D1"] /\ StronglySorted suffix_le ["M1"].
Proof.
  split; [by vm_compute|].
  apply (resolved_lists_exact elements_order (run [source_a; source_b]) true).
  by vm_compute.
Defined.

(** The column universe of the two csv sources. *)
Lemma universe_is_union_of_sources_witness :
  ingest [source_a; source_b] init = Ok (run [source_a; source_b])
  /\ forall x, x ∈ columns (run [source_a; source_b])
               <-> exists s, s ∈ common_columns (run [source_a; source_b]) /\ x ∈ s.
Proof.
  split; [reflexivity|].
  apply (universe_is_union_of_sources [source_a; source_b]). reflexivity.
Defined.

(** The csv source of the scenario is read through. *)
Lemma read_csv_shape_witness :
  ["D1"; "M1"; "M2"] <> []
  /\ forallb (csv_rec_ok ["D1"; "M1"; "M2"])
       [(2%nat, ["a"; "3"; "5"]); (3%nat, ["b"; "x"; "2"])] = true
  /\ exists self',
       read_csv "t.csv" ((1%nat, ["D1"; "M1"; "M2"])
                           :: [(2%nat, ["a"; "3"; "5"]); (3%nat, ["b"; "x"; "2"])]) init
       = Ok self'
       /\ columns self' = columns init ∪ list_to_set ["D1"; "M1"; "M2"]
       /\ common_columns self'
          = common_columns init ++ [list_to_set ["D1"; "M1"; "M2"]]
       /\ List.length (rows self') = (List.length (rows init) + 2)%nat.
Proof.
  split; [done|]. split; [reflexivity|].
  apply (proj2 (read_csv_shape "t.csv" 1 ["D1"; "M1"; "M2"]
                  [(2%nat, ["a"; "3"; "5"]); (3%nat, ["b"; "x"; "2"])] init
                  ltac:(done))).
  reflexivity.
Defined.

(** The second data record of the scenario: the text [x] under M1 is not
    stored. *)
Lemma read_csv_row_content_witness :
  ["D1"; "M1"; "M2"] <> [] /\ NoDup ["D1"; "M1"; "M2"]
  /\ ingest [scenario] init = Ok (run [scenario])
  /\ exists r,
       rows (run [scenario]) !! (List.length (rows init) + 1)%nat = Some r
       /\ (forall j k, ["D1"; "M1"; "M2"] !! j = Some k ->
             r !! k = ["b"; "x"; "2"] !! j ≫= csv_store k)
       /\ (forall k, k ∉ ["D1"; "M1"; "M2"] -> r !! k = None).
Proof.
  assert (NoDup ["D1"; "M1"; "M2"]) as Hnd
    by (apply (bool_decide_unpack _); by vm_compute).
  split; [done|]. split; [exact Hnd|]. split; [reflexivity|].
  apply (read_csv_row_content "t.csv" 1 ["D1"; "M1"; "M2"]
           [(2%nat, ["a"; "3"; "5"]); (3%nat, ["b"; "x"; "2"])]
           init (run [scenario]) 1 3 ["b"; "x"; "2"]);
    [done | exact Hnd | reflexivity | reflexivity].
Defined.

(** A header with the name M1 twice and a record with the text [x] twice:
    two lines. *)
Lemma read_csv_diagnostics_witness :
  ["M1"; "M1"] <> []
  /\ ingest [twice] init = Ok (run [twice])
  /\ csv_all_diags "m.csv" ["M1"; "M1"] [(2%nat, ["x"; "x"])]
     = [IncorrectCsv "x" "m.csv" "M1" 2; IncorrectCsv "x" "m.csv" "M1" 2]
  /\ stdout (run [twice])
     = stdout init ++ csv_all_diags "m.csv" ["M1"; "M1"] [(2%nat, ["x"; "x"])].
Proof.
  split; [done|]. split; [reflexivity|]. split; [reflexivity|].
  apply (read_csv_diagnostics "m.csv" 1 ["M1"; "M1"] [(2%nat, ["x"; "x"])]
           init (run [twice])); [done | reflexivity].
Defined.

(** The json document with a measure given as text is read through. *)
Lemma read_json_shape_witness :
  forallb (forallb json_item_ok) text_measure = true
  /\ exists self', read_json "f.json" text_measure init = Ok self'.
Proof.
  split; [reflexivity|].
  apply (proj2 (proj1 (read_json_shape "f.json" text_measure init))). reflexivity.
Defined.

(** Its row holds the text [3] under M1. *)
Lemma read_json_row_content_witness :
  ingest [Json "f.json" text_measure] init = Ok (run [Json "f.json" text_measure])
  /\ text_measure !! 0%nat = Some [("D1", VStr "a"); ("M1", VStr "3")]
  /\ NoDup ([("D1", VStr "a"); ("M1", VStr "3")].*1)
  /\ exists r,
       rows (run [Json "f.json" text_measure]) !! (List.length (rows init) + 0)%nat
       = Some r
       /\ (forall key val, (key, val) ∈ [("D1", VStr "a"); ("M1", VStr "3")] ->
             r !! key
             = if is_meas key && negb (is_ok (Py.int val)) then None else Some val)
       /\ (forall k, k ∉ [("D1", VStr "a"); ("M1", VStr "3")].*1 -> r !! k = None).
Proof.
  assert (NoDup ([("D1", VStr "a"); ("M1", VStr "3")].*1)) as Hnd
    by (apply (bool_decide_unpack _); by vm_compute).
  split; [reflexivity|]. split; [reflexivity|]. split; [exact Hnd|].
  apply (read_json_row_content "f.json" text_measure init
           (run [Json "f.json" text_measure]) 0 [("D1", VStr "a"); ("M1", VStr "3")]);
    [reflexivity | reflexivity | exact Hnd].
Defined.

(** A csv source without D1: the columns resolve, the report is not
    written. *)
Lemma basic_needs_D1_witness :
  is_ok (resolve elements_order (run [source_c]) false) = true
  /\ rows (run [source_c]) !! 0%nat = Some {[ "D2" := VStr "a" ]}
  /\ ({[ "D2" := VStr "a" ]} : gmap string value) !! "D1" = None
  /\ write_tsv_basic elements_order (run [source_c]) false = Raise KeyError.
Proof.
  split; [by vm_compute|]. split; [reflexivity|]. split; [reflexivity|].
  apply (proj2 (basic_needs_D1 elements_order (run [source_c]) false)
           {[ "D2" := VStr "a" ]}); [by vm_compute | | reflexivity].
  apply (list_elem_of_lookup_2 _ 0%nat). reflexivity.
Defined.

(** Three rows stored in the order b, a, a: the report has the two rows
    with the D1 text [a] first, in the order in which they were stored. *)
Lemma basic_ties_keep_stored_order_witness :
  forallb has_D1_text (rows (run [tied])) = true
  /\ rows (run [tied])
     = [ {[ "D1" := VStr "b"; "M1" := VInt 1 ]}; {[ "D1" := VStr "a"; "M1" := VInt 2 ]};
         {[ "D1" := VStr "a"; "M1" := VInt 3 ]} ]
  /\ write_tsv_basic elements_order (run [tied]) false = Ok tied_basic
  /\ exists d m sorted_rows,
       resolve elements_order (run [tied]) false = Ok (d, m)
       /\ tied_basic = (VStr <$> d ++ m) :: (basic_line (d ++ m) <$> sorted_rows)
       /\ forall t, filter (fun row => D1_text row = t) sorted_rows
                    = filter (fun row => D1_text row = t) (rows (run [tied])).
Proof.
  split; [by vm_compute|]. split; [reflexivity|]. split; [by vm_compute|].
  apply (basic_ties_keep_stored_order elements_order (run [tied]) false);
    by vm_compute.
Defined.

(** The json row with the text [3] under M1. *)
Lemma advanced_rejects_text_measure_witness :
  resolve elements_order (run [Json "f.json" text_measure]) false = Ok (["D1"], ["M1"])
  /\ rows (run [Json "f.json" text_measure]) !! 0%nat
     = Some {[ "D1" := VStr "a"; "M1" := VStr "3" ]}
  /\ write_tsv_advanced elements_order (run [Json "f.json" text_measure]) false
     = Raise TypeError.
Proof.
  split; [by vm_compute|]. split; [reflexivity|].
  apply (advanced_rejects_text_measure elements_order (run [Json "f.json" text_measure])
           false ["D1"] ["M1"] {[ "D1" := VStr "a"; "M1" := VStr "3" ]} "M1" (VStr "3")).
  - by vm_compute.
  - apply (list_elem_of_lookup_2 _ 0%nat). reflexivity.
  - apply list_elem_of_singleton. reflexivity.
  - reflexivity.
  - right. by exists "3".
Defined.


(** The Basic report of the scenario is a table of three columns. *)
Lemma reports_are_tables_witness :
  write_tsv_basic elements_order (run [scenario]) false = Ok scenario_basic
  /\ exists header body,
       scenario_basic = header :: body
       /\ NoDup header
       /\ Forall (fun line => List.length line = List.length header) body
       /\ List.length body = List.length (rows (run [scenario])).
Proof.
  split; [by vm_compute|].
  apply (proj1 (reports_are_tables elements_order (run [scenario]) false
                  scenario_basic)).
  by vm_compute.
Defined.

(** The Basic report of the scenario, as it is written. *)
Lemma basic_report_written_witness :
  write_tsv_basic elements_order (run [scenario]) false = Ok scenario_basic
  /\ exists d m sorted_rows,
       resolve elements_order (run [scenario]) false = Ok (d, m)
       /\ scenario_basic = (VStr <$> d ++ m) :: (basic_line (d ++ m) <$> sorted_rows)
       /\ sorted_rows ≡ₚ rows (run [scenario])
       /\ (forall row, row ∈ rows (run [scenario]) -> is_Some (row !! "D1"))
       /\ Sorted (fun a b => Py.lt (D1_value b) (D1_value a) = Ok false) sorted_rows.
Proof.
  split; [by vm_compute|].
  apply (basic_report_written elements_order (run [scenario]) false).
  by vm_compute.
Defined.

(** A csv source and a json document without a field. *)
Lemma source_without_column_witness :
  ingest [source_a; Json "e.json" []] init = Ok (run [source_a; Json "e.json" []])
  /\ no_column (Json "e.json" []) = true
  /\ resolve elements_order (run [source_a; Json "e.json" []]) true = Ok ([], [])
  /\ write_tsv_advanced elements_order (run [source_a; Json "e.json" []]) true
     = Ok ([] :: if decide (rows (run [source_a; Json "e.json" []]) = [])
                 then [] else [[]]).
Proof.
  split; [reflexivity|]. split; [reflexivity|].
  apply (source_without_column elements_order [source_a; Json "e.json" []]
           (Json "e.json" [])); [reflexivity | | reflexivity].
  apply elem_of_cons. right. apply elem_of_cons. by left.
Defined.

(** The json document with the text [3] under M1. *)
Lemma json_text_measure_breaks_advanced_witness :
  ingest [Json "f.json" text_measure] init = Ok (run [Json "f.json" text_measure])
  /\ is_meas "M1" = true /\ is_ok (Py.int (VStr "3")) = true
  /\ write_tsv_advanced elements_order (run [Json "f.json" text_measure]) false
     = Raise (match resolve elements_order (run [Json "f.json" text_measure]) false with
              | Raise e => e
              | Ok _ => TypeError
              end).
Proof.
  split; [reflexivity|]. split; [reflexivity|]. split; [reflexivity|].
  apply (json_text_measure_breaks_advanced elements_order [Json "f.json" text_measure]
           "f.json" text_measure [("D1", VStr "a"); ("M1", VStr "3")] "M1" "3").
  - reflexivity.
  - apply list_elem_of_singleton. reflexivity.
  - apply list_elem_of_singleton. reflexivity.
  - apply (bool_decide_unpack _). by vm_compute.
  - apply elem_of_cons. right. apply elem_of_cons. by left.
  - reflexivity.
  - reflexivity.
Defined.

(** The file of the Basic report of the scenario. *)
Lemma writers_files_witness :
  write_tsv_basic_file elements_order (run [scenario]) false = (scenario_basic, None)
  /\ write_tsv_basic elements_order (run [scenario]) false = Ok scenario_basic.
Proof.
  split; [by vm_compute|].
  apply (proj1 (writers_files elements_order (run [scenario]) false
                  scenario_basic None)).
  by vm_compute.
Defined.

(** A run of the script on four small sources. *)
Lemma main_completes_witness :
  ingest (script_sources csv_data_a csv_data_b json_data_c two_objects) init
  = Ok (run (script_sources csv_data_a csv_data_b json_data_c two_objects))
  /\ exists basic advanced basic_common advanced_common,
       write_tsv_basic elements_order
         (run (script_sources csv_data_a csv_data_b json_data_c two_objects)) false
       = Ok basic
       /\ write_tsv_advanced elements_order
            (run (script_sources csv_data_a csv_data_b json_data_c two_objects)) false
          = Ok advanced
       /\ write_tsv_basic elements_order
            (run (script_sources csv_data_a csv_data_b json_data_c two_objects)) true
          = Ok basic_common
       /\ write_tsv_advanced elements_order
            (run (script_sources csv_data_a csv_data_b json_data_c two_objects)) true
          = Ok advanced_common
       /\ main elements_order ∅ csv_data_a csv_data_b json_data_c two_objects
          = (<["results/out_advanced_union.tsv" := advanced_common]>
               (<["results/out_basic_union.tsv" := basic_common]>
                  (<["results/out_advanced.tsv" := advanced]>
                     (<["results/out_basic.tsv" := basic]> ∅))),
             Ok (StartProcess
                   :: (Incorrect
                         <$> stdout (run (script_sources csv_data_a csv_data_b
                                            json_data_c two_objects)))
                   ++ [ProcessCompleted])).
Proof.
  split; [reflexivity|].
  apply (main_completes elements_order ∅ csv_data_a csv_data_b json_data_c two_objects);
    by vm_compute.
Defined.

(** A run of the script with an xml document without an object: its row
    holds nothing. *)
Lemma main_stops_without_D1_witness :
  ingest (script_sources csv_data_a csv_data_b [] []) init
  = Ok (run (script_sources csv_data_a csv_data_b [] []))
  /\ resolve elements_order (run (script_sources csv_data_a csv_data_b [] [])) false
     = Ok (["D1"; "D2"], ["M1"])
  /\ rows (run (script_sources csv_data_a csv_data_b [] [])) !! 2%nat = Some ∅
  /\ main elements_order ∅ csv_data_a csv_data_b [] []
     = (<["results/out_basic.tsv" := [VStr <$> ["D1"; "D2"] ++ ["M1"]]]> ∅,
        Raise KeyError).
Proof.
  split; [reflexivity|]. split; [by vm_compute|]. split; [reflexivity|].
  apply (main_stops_without_D1 elements_order ∅ csv_data_a csv_data_b [] []
           (run (script_sources csv_data_a csv_data_b [] [])) ["D1"; "D2"] ["M1"] ∅).
  - reflexivity.
  - by vm_compute.
  - apply (list_elem_of_lookup_2 _ 2%nat). reflexivity.
  - reflexivity.
Defined.

(** A file that is no report is left as it was. *)
Lemma main_writes_reports_only_witness :
  ("results/notes.txt" ∉ ["results/out_basic.tsv"; "results/out_advanced.tsv";
                          "results/out_basic_union.tsv"; "results/out_advanced_union.tsv"])
  /\ (main elements_order {[ "results/notes.txt" := [[VStr "kept"]] ]}
        csv_data_a csv_data_b json_data_c two_objects).1 !! "results/notes.txt"
     = Some [[VStr "kept"]].
Proof.
  assert ("results/notes.txt" ∉ ["results/out_basic.tsv"; "results/out_advanced.tsv";
                                 "results/out_basic_union.tsv";
                                 "results/out_advanced_union.tsv"]) as Hpath
    by (apply (bool_decide_unpack _); by vm_compute).
  split; [exact Hpath|].
  rewrite (proj1 (main_writes_reports_only elements_order
                    {[ "results/notes.txt" := [[VStr "kept"]] ]}
                    csv_data_a csv_data_b json_data_c two_objects) _ Hpath).
  reflexivity.
Defined.

(** A json document of two fields with the text [x] under M1: two lines,
    in the order of the fields. *)
Lemma read_json_diagnostics_witness :
  ingest [Json "f.json" [[("M1", VStr "x")]; [("D1", VStr "a"); ("M1", VStr "x")]]] init
  = Ok (run [Json "f.json" [[("M1", VStr "x")]; [("D1", VStr "a"); ("M1", VStr "x")]]])
  /\ json_all_diags "f.json" [[("M1", VStr "x")]; [("D1", VStr "a"); ("M1", VStr "x")]]
     = [IncorrectJson (VStr "x") "f.json" "M1" [("M1", VStr "x")];
        IncorrectJson (VStr "x") "f.json" "M1" [("D1", VStr "a"); ("M1", VStr "x")]]
  /\ stdout (run [Json "f.json" [[("M1", VStr "x")];
                                  [("D1", VStr "a"); ("M1", VStr "x")]]])
     = stdout init
       ++ json_all_diags "f.json" [[("M1", VStr "x")]; [("D1", VStr "a"); ("M1", VStr "x")]].
Proof.
  split; [reflexivity|]. split; [reflexivity|].
  apply (read_json_diagnostics "f.json"
           [[("M1", VStr "x")]; [("D1", VStr "a"); ("M1", VStr "x")]] init).
  reflexivity.
Defined.

(** An object M1 with the text [x] in two children: two lines. *)
Lemma read_xml_diagnostics_witness :
  ingest [Xml "f.xml" [XmlObject (Some "M1") [Some "x"; Some "3"; Some "x"]]] init
  = Ok (run [Xml "f.xml" [XmlObject (Some "M1") [Some "x"; Some "3"; Some "x"]]])
  /\ xml_all_diags "f.xml" [XmlObject (Some "M1") [Some "x"; Some "3"; Some "x"]]
     = [IncorrectXml "x" "f.xml" "M1"; IncorrectXml "x" "f.xml" "M1"]
  /\ stdout (run [Xml "f.xml" [XmlObject (Some "M1") [Some "x"; Some "3"; Some "x"]]])
     = stdout init
       ++ xml_all_diags "f.xml" [XmlObject (Some "M1") [Some "x"; Some "3"; Some "x"]].
Proof.
  split; [reflexivity|]. split; [reflexivity|].
  apply (read_xml_diagnostics "f.xml"
           [XmlObject (Some "M1") [Some "x"; Some "3"; Some "x"]] init).
  reflexivity.
Defined.

(** The rows of the csv source with a tie: the key [b] comes first in the
    dict, and the key [a] has the sum 5. *)
Lemma get_data_advanced_groups_witness :
  forallb (texts_under ["D1"]) (rows (run [tied])) = true
  /\ forallb (integers_under ["M1"]) (rows (run [tied])) = true
  /\ first_seen (spec_group_key ["D1"] <$> rows (run [tied])) = [[VStr "b"]; [VStr "a"]]
  /\ spec_group_value (rows (run [tied])) ["D1"] ["M1"] [VStr "a"] = [5]
  /\ exists data,
       get_data_advanced (rows (run [tied])) ["D1"] ["M1"] = Ok data
       /\ Dict.keys data = first_seen (spec_group_key ["D1"] <$> rows (run [tied]))
       /\ forall k, k ∈ Dict.keys data ->
            Dict.get k data
            = Some (VInt <$> spec_group_value (rows (run [tied])) ["D1"] ["M1"] k).
Proof.
  split; [by vm_compute|]. split; [by vm_compute|]. split; [by vm_compute|].
  split; [by vm_compute|].
  apply (proj2 (get_data_advanced_groups (rows (run [tied])) ["D1"] ["M1"]));
    by vm_compute.
Defined.
